(** * LiteESP8266Client: the response matcher, the delimited-field reader and
      the bounded packet extractor

    A shallow embedding of [src/LiteESP8266Client.cpp].  The library is
    written for AVR boards (Arduino Uno, SoftwareSerial, PROGMEM strings), so
    the integer types follow avr-gcc: [char] is a signed 8-bit type,
    [uint8_t] has 8 bits, [int], [unsigned int] and [uint16_t] have 16 bits,
    [unsigned long] has 32 bits.  Unsigned quantities are values of [N] with
    the wrap-around written out; signed ones are values of [Z]. *)

From Stdlib Require Import String Ascii List NArith ZArith Bool Lia.
Import ListNotations.
Open Scope N_scope.

(** ** Machine integers *)

Definition wrap8 (n : N) : N := n mod 256.
Definition wrap16 (n : N) : N := n mod 65536.
Definition wrap32 (n : N) : N := n mod 4294967296.

(** [a - b] on [unsigned int] / [uint16_t] operands. *)
Definition sub16 (a b : N) : N := wrap16 (a + 65536 - wrap16 b).

(** The value of a byte seen as [uint8_t] and as (signed) [char]. *)
Definition uint8 (c : ascii) : Z := Z.of_N (N_of_ascii c).
Definition schar (c : ascii) : Z :=
  if (uint8 c <? 128)%Z then uint8 c else (uint8 c - 256)%Z.

(** Conversion of an [int] to [char]: the low eight bits. *)
Definition char_of_int (z : Z) : ascii := ascii_of_N (Z.to_N (z mod 256)).

(** ** Constants of LiteESP8266Client.h *)

Definition COMMAND_RESPONSE_TIMEOUT : N := 1000.
Definition CLIENT_CONNECT_TIMEOUT : N := 5000.

Definition LITE_ESP8266_SUCCESS : N := 0.
Definition LITE_ESP8266_FAILURE : N := 1.
Definition LITE_ESP8266_TIMEOUT : N := 2.
Definition LITE_ESP8266_LENGTH_EXCEEDED : N := 3.

(** ** Strings *)

Definition chars (s : string) : list ascii := list_ascii_of_string s.

Definition ESP8266_DATA_PACKET : list ascii := chars "+IPD,".
Definition ESP8266_CONTENT_LENGTH_HEADER : list ascii :=
  chars "Content-Length: ".
Definition CR : ascii := ascii_of_N 13.
Definition LF : ascii := ascii_of_N 10.
Definition ESP8266_CRLFCRLF : list ascii := [CR; LF; CR; LF].

(** A string in program memory is the list of the bytes found at its address;
    the bytes after the end of the list read as NUL.  [strlen_P] counts the
    bytes before the first NUL. *)
Definition pgm_read_byte_near (s : list ascii) (i : N) : ascii :=
  nth (N.to_nat i) s zero.

Fixpoint strlen_P (s : list ascii) : N :=
  match s with
  | [] => 0
  | c :: s' => if Ascii.eqb c zero then 0 else 1 + strlen_P s'
  end.

(** Data memory seen from the address of a buffer: the list of the bytes
    found there; a store past the end of the list lengthens it (the bytes in
    between read as NUL). *)
Definition peek (i : N) (mem : list ascii) : ascii := nth (N.to_nat i) mem zero.

Fixpoint poke_nat (i : nat) (c : ascii) (mem : list ascii) : list ascii :=
  match i, mem with
  | O, [] => [c]
  | O, _ :: m => c :: m
  | S i', [] => zero :: poke_nat i' c []
  | S i', x :: m => x :: poke_nat i' c m
  end.

Definition poke (i : N) (c : ascii) (mem : list ascii) : list ascii :=
  poke_nat (N.to_nat i) c mem.

(** ** The radio's serial line

    [clock] is what [millis()] returns.  [rx] is what the polling loops will
    see on the line, in order: [Some b] is a byte that is ready to be read,
    [None] is one millisecond during which nothing is ready.  After the end of
    the list the line stays silent.  Reading a byte takes no time. *)

Record Radio : Type := mkRadio { clock : N; rx : list (option ascii) }.

Definition millis (r : Radio) : N := clock r.

Definition available (r : Radio) : bool :=
  match rx r with
  | Some _ :: _ => true
  | _ => false
  end.

(** [SoftwareSerial::read]: the next byte as an [int], or [-1] when there is
    none. *)
Definition read (r : Radio) : Z * Radio :=
  match rx r with
  | Some b :: rest => (uint8 b, mkRadio (clock r) rest)
  | _ => ((-1)%Z, r)
  end.

(** A stretch of the line given as the bytes and, for each, the milliseconds
    of silence before it. *)
Fixpoint line_of (arrivals : list (nat * ascii)) : list (option ascii) :=
  match arrivals with
  | [] => []
  | (d, b) :: rest => repeat None d ++ Some b :: line_of rest
  end.

Definition delay_of (arrivals : list (nat * ascii)) : N :=
  fold_right (fun a acc => N.of_nat (fst a) + acc) 0 arrivals.

Definition bytes_of (arrivals : list (nat * ascii)) : list ascii :=
  map snd arrivals.

(** A byte string that is ready at once. *)
Definition ready (s : list ascii) : list (nat * ascii) :=
  map (fun c => (O, c)) s.

(** ** The polling loop

    Every reading function of LiteESP8266Client.cpp has the shape
<<
    while (millis() < (start_time + timeout_ms)) {
      if (radio_serial_->available()) { ... radio_serial_->read() ... }
    }
    return LITE_ESP8266_TIMEOUT;
>>
    [poll] is that loop.  [body] is the block run on the byte read: it gives
    the new values of the loop's variables and the code returned, or [None]
    when the loop goes on.  An iteration that finds nothing to read lets one
    millisecond pass; once the line is silent for good the loop spins until
    the deadline. *)

Section Polling.
Context {St : Type}.
Variable body : St -> ascii -> St * option N.

Fixpoint poll (deadline : N) (s : St) (now : N) (line : list (option ascii))
  : N * St * Radio :=
  if now <? deadline then
    match line with
    | [] => (LITE_ESP8266_TIMEOUT, s, mkRadio deadline [])
    | None :: line' => poll deadline s (wrap32 (now + 1)) line'
    | Some b :: line' =>
        match body s b with
        | (s', Some code) => (code, s', mkRadio now line')
        | (s', None) => poll deadline s' now line'
        end
    end
  else (LITE_ESP8266_TIMEOUT, s, mkRadio now line).

(** The successive values of the loop's variables, from the entry of the
    loop to its exit. *)
Fixpoint poll_trace (deadline : N) (s : St) (now : N)
    (line : list (option ascii)) : list St :=
  if now <? deadline then
    match line with
    | [] => [s]
    | None :: line' => poll_trace deadline s (wrap32 (now + 1)) line'
    | Some b :: line' =>
        match body s b with
        | (s', Some _) => [s; s']
        | (s', None) => s :: poll_trace deadline s' now line'
        end
    end
  else [s].

(** What the loop's block does over a run of bytes, the clock left aside:
    the variables after the run and, when the block returned on the way,
    the code and the bytes not looked at. *)
Fixpoint feed (s : St) (bytes : list ascii)
  : St * option (N * list ascii) :=
  match bytes with
  | [] => (s, None)
  | b :: bytes' =>
      match body s b with
      | (s', Some code) => (s', Some (code, bytes'))
      | (s', None) => feed s' bytes'
      end
  end.
End Polling.

(** ** read_for_response *)

(** The block shared by the matchers,
<<
    if (c == token[matched]) { matched++; if (matched == length) return ...; }
    else { matched = 0; }
>>
    with [hit] the outcome of the comparison: the new cursor, and whether the
    function returns. *)
Definition match_char (hit : bool) (matched length : N) : N * bool :=
  if hit then
    let matched' := wrap8 (matched + 1) in
    (matched', matched' =? length)
  else (0, false).

Definition rfr_body (progmem_response_string : list ascii)
    (response_length : N) (matched_chars : N) (b : ascii) : N * option N :=
  (* radio_serial_->read() is an int, pgm_read_byte_near a uint8_t *)
  let hit := (uint8 b =? uint8 (pgm_read_byte_near progmem_response_string
                                                   matched_chars))%Z in
  match match_char hit matched_chars response_length with
  | (m, true) => (m, Some LITE_ESP8266_SUCCESS)
  | (m, false) => (m, None)
  end.

Definition read_for_response (progmem_response_string : list ascii)
    (timeout_ms : N) (radio : Radio) : N * Radio :=
  let matched_chars := 0 in
  let response_length := wrap8 (strlen_P progmem_response_string) in
  let start_time := millis radio in
  let '(code, _, radio') :=
    poll (rfr_body progmem_response_string response_length)
         (wrap32 (start_time + timeout_ms)) matched_chars
         (clock radio) (rx radio) in
  (code, radio').

(** The values taken by [matched_chars] during a call. *)
Definition read_for_response_cursors (progmem_response_string : list ascii)
    (timeout_ms : N) (radio : Radio) : list N :=
  poll_trace (rfr_body progmem_response_string
                       (wrap8 (strlen_P progmem_response_string)))
             (wrap32 (millis radio + timeout_ms)) 0 (clock radio) (rx radio).

(** ** read_for_responses *)

Definition rfrs_body (progmem_pass_string progmem_fail_string : list ascii)
    (pass_response_length fail_response_length : N)
    (cursors : N * N) (b : ascii) : (N * N) * option N :=
  let '(pass_matched_chars, fail_matched_characters) := cursors in
  (* char next_character = radio_serial_->read(); *)
  let next_character := schar b in
  let pass_hit :=
    (next_character
     =? uint8 (pgm_read_byte_near progmem_pass_string pass_matched_chars))%Z in
  match match_char pass_hit pass_matched_chars pass_response_length with
  | (p, true) => ((p, fail_matched_characters), Some LITE_ESP8266_SUCCESS)
  | (p, false) =>
      let fail_hit :=
        (next_character
         =? uint8 (pgm_read_byte_near progmem_fail_string
                                      fail_matched_characters))%Z in
      match match_char fail_hit fail_matched_characters
                       fail_response_length with
      | (f, true) => ((p, f), Some LITE_ESP8266_FAILURE)
      | (f, false) => ((p, f), None)
      end
  end.

Definition read_for_responses (progmem_pass_string progmem_fail_string
    : list ascii) (timeout_ms : N) (radio : Radio) : N * Radio :=
  let pass_response_length := wrap8 (strlen_P progmem_pass_string) in
  let fail_response_length := wrap8 (strlen_P progmem_fail_string) in
  let start_time := millis radio in
  let '(code, _, radio') :=
    poll (rfrs_body progmem_pass_string progmem_fail_string
                    pass_response_length fail_response_length)
         (wrap32 (start_time + timeout_ms)) (0, 0)
         (clock radio) (rx radio) in
  (code, radio').

(** ** copy_serial_to_buffer

    The loop's variables are the memory at [buffer] and [bytes_read]. *)

Definition csb_body (read_until : ascii) (max_bytes : N)
    (vars : list ascii * N) (b : ascii) : (list ascii * N) * option N :=
  let '(buffer, bytes_read) := vars in
  let buffer := poke bytes_read b buffer in
  if Ascii.eqb (peek bytes_read buffer) read_until then
    ((poke bytes_read zero buffer, bytes_read), Some LITE_ESP8266_SUCCESS)
  else
    let bytes_read := wrap16 (bytes_read + 1) in
    if sub16 max_bytes 1 <=? bytes_read then
      ((poke bytes_read zero buffer, bytes_read),
       Some LITE_ESP8266_LENGTH_EXCEEDED)
    else ((buffer, bytes_read), None).

Definition copy_serial_to_buffer (buffer : list ascii) (read_until : ascii)
    (max_bytes : N) (timeout_ms : N) (radio : Radio)
    : N * list ascii * Radio :=
  let start_time := millis radio in
  let bytes_read := 0 in
  let '(code, vars, radio') :=
    poll (csb_body read_until max_bytes)
         (wrap32 (start_time + timeout_ms)) (buffer, bytes_read)
         (clock radio) (rx radio) in
  (code, fst vars, radio').

(** ** atoi

    The C library's [atoi] on the string at the head of [s]: white space is
    skipped, one sign is taken, the decimal digits that follow are
    accumulated; avr-libc computes in the 16-bit [int], which wraps. *)

Definition isspace (c : ascii) : bool :=
  let n := N_of_ascii c in (n =? 32) || ((9 <=? n) && (n <=? 13)).

Definition isdigit (c : ascii) : bool :=
  let n := N_of_ascii c in (48 <=? n) && (n <=? 57).

Definition int16 (z : Z) : Z := ((z + 32768) mod 65536 - 32768)%Z.

Fixpoint skip_space (s : list ascii) : list ascii :=
  match s with
  | c :: s' => if isspace c then skip_space s' else s
  | [] => []
  end.

Fixpoint atoi_digits (acc : Z) (s : list ascii) : Z :=
  match s with
  | c :: s' =>
      if isdigit c then atoi_digits (acc * 10 + (uint8 c - 48))%Z s' else acc
  | [] => acc
  end.

Definition atoi (s : list ascii) : Z :=
  match skip_space s with
  | c :: s' =>
      if Ascii.eqb c "-" then int16 (- atoi_digits 0 s')
      else if Ascii.eqb c "+" then int16 (atoi_digits 0 s')
      else int16 (atoi_digits 0 (c :: s'))
  | [] => int16 0
  end.

(** [unsigned int n = atoi(buffer);] *)
Definition unsigned_of_int (z : Z) : N := Z.to_N (z mod 65536).

Definition parse_length (buffer : list ascii) : N :=
  unsigned_of_int (atoi buffer).

(** ** get_response_packet and get_http_response *)

(** The region handed to the caller: the size passed to [malloc] and the
    memory found at the pointer when the function returns. *)
Record Packet : Type :=
  mkPacket { bytes_allocated : N; data : list ascii }.

(** <<
    if (max_allocate_bytes > data_length) { ... bytes_allocated = data_length + 1; }
    else { ... bytes_allocated = max_allocate_bytes; }
>> *)
Definition allocation_size (max_allocate_bytes data_length : N) : N :=
  if data_length <? max_allocate_bytes then wrap16 (data_length + 1)
  else max_allocate_bytes.

(** [while (!radio_serial_->available() && (millis() < deadline));] *)
Fixpoint wait_for_byte (deadline now : N) (line : list (option ascii))
  : Radio :=
  match line with
  | Some _ :: _ => mkRadio now line
  | None :: line' =>
      if now <? deadline then wait_for_byte deadline (wrap32 (now + 1)) line'
      else mkRadio now line
  | [] => if now <? deadline then mkRadio deadline [] else mkRadio now []
  end.

(** The clock moves on by one millisecond, and a millisecond of silence at
    the head of the line goes by with it. *)
Definition tick (r : Radio) : Radio :=
  mkRadio (wrap32 (clock r + 1))
          (match rx r with
           | None :: line => line
           | line => line
           end).

(** The [for] loop that copies the payload, with [remaining] the number of
    iterations left ([data_length - i]).

    The inner [while] waits for a byte up to the deadline and no longer, and
    the loop is left only when the clock is past the deadline.  While the
    clock reads the deadline and the line is silent, the turns of the [for]
    loop therefore run on without waiting, each taking the [-1] that [read]
    returns for a byte, until the clock moves.  How many turns the processor
    completes in that stretch depends on its speed: it is [idle_turns]. *)
Fixpoint copy_payload (idle_turns remaining : nat) (i : N)
    (deadline allocated : N) (mem : list ascii) (radio : Radio)
    {struct remaining} : list ascii * Radio :=
  match remaining with
  | O => (mem, radio)
  | S remaining' =>
      let radio := wait_for_byte deadline (clock radio) (rx radio) in
      let '(idle_turns, radio) :=
        if negb (available radio) && (millis radio =? deadline) then
          match idle_turns with
          | O => (O, tick radio)
          | S idle_turns' => (idle_turns', radio)
          end
        else (idle_turns, radio) in
      if deadline <? millis radio then (mem, radio)
      else
        let '(c, radio) := read radio in
        if i <? sub16 allocated 1 then
          copy_payload idle_turns remaining' (wrap16 (i + 1)) deadline
                       allocated (poke i (char_of_int c) mem) radio
        else
          copy_payload idle_turns remaining' (wrap16 (i + 1)) deadline
                       allocated mem radio
  end.

(** The allocation, [memset] and copy loop, which the two functions hold
    word for word. *)
Definition receive_payload (idle_turns : nat)
    (max_allocate_bytes data_length : N) (deadline : N) (radio : Radio)
  : Packet * Radio :=
  let allocated := allocation_size max_allocate_bytes data_length in
  let mem := repeat zero (N.to_nat allocated) in
  let '(mem, radio) :=
    copy_payload idle_turns (N.to_nat data_length) 0 deadline allocated mem
                 radio in
  (mkPacket allocated mem, radio).

(** [stack] is what the uninitialised local buffer holds on entry, and
    [idle_turns] the number of turns of the copy loop that the processor
    completes on a silent line while the clock reads the deadline.  [None] is
    the NULL pointer. *)
Definition get_response_packet (stack : list ascii) (idle_turns : nat)
    (max_allocate_bytes : N)
    (timeout_ms : N) (radio : Radio) : option Packet * Radio :=
  let data_length_buffer := stack in
  let start_time := millis radio in
  let '(code, radio) :=
    read_for_response ESP8266_DATA_PACKET CLIENT_CONNECT_TIMEOUT radio in
  if code =? LITE_ESP8266_SUCCESS then
    let '(_, data_length_buffer, radio) :=
      copy_serial_to_buffer data_length_buffer ":"%char 5
                            COMMAND_RESPONSE_TIMEOUT radio in
    let data_length := parse_length data_length_buffer in
    let '(packet, radio) :=
      receive_payload idle_turns max_allocate_bytes data_length
                      (wrap32 (start_time + timeout_ms)) radio in
    (Some packet, radio)
  else (None, radio).

Definition get_http_response (stack : list ascii) (idle_turns : nat)
    (max_allocate_bytes : N)
    (timeout_ms : N) (radio : Radio) : option Packet * Radio :=
  let content_length_buffer := stack in
  let start_time := millis radio in
  let '(code, radio) :=
    read_for_response ESP8266_CONTENT_LENGTH_HEADER CLIENT_CONNECT_TIMEOUT
                      radio in
  if code =? LITE_ESP8266_SUCCESS then
    let '(_, content_length_buffer, radio) :=
      copy_serial_to_buffer content_length_buffer CR 16
                            COMMAND_RESPONSE_TIMEOUT radio in
    let content_length := parse_length content_length_buffer in
    let '(code, radio) :=
      read_for_response ESP8266_CRLFCRLF CLIENT_CONNECT_TIMEOUT radio in
    if code =? LITE_ESP8266_SUCCESS then
      let '(packet, radio) :=
        receive_payload idle_turns max_allocate_bytes content_length
                        (wrap32 (start_time + timeout_ms)) radio in
      (Some packet, radio)
    else (None, radio)
  else (None, radio).

(** ** Notions used in the statements *)

(** A token: the characters of a C string (no NUL among them). *)
Definition cstring (s : list ascii) : Prop := Forall (fun c => c <> zero) s.

(** Seven-bit characters, which a [char] and a [uint8_t] read alike. *)
Definition seven_bit (s : list ascii) : Prop :=
  Forall (fun c => (uint8 c < 128)%Z) s.

Fixpoint starts_with (tok s : list ascii) : bool :=
  match tok, s with
  | [], _ => true
  | _ :: _, [] => false
  | t :: tok', c :: s' => Ascii.eqb t c && starts_with tok' s'
  end.

(** [tok] is a contiguous subsequence of [s]. *)
Fixpoint contains (tok s : list ascii) : bool :=
  starts_with tok s ||
  match s with
  | [] => false
  | _ :: s' => contains tok s'
  end.

(** The cursor counts characters of the token that were just read: after
    [seen], a cursor [m] below the token's length means that [seen] ends with
    the first [m] characters of the token. *)
Definition trails (tok : list ascii) (m : N) (seen : list ascii) : Prop :=
  m < N.of_nat (length tok) /\
  exists a, seen = a ++ firstn (N.to_nat m) tok.

(** The byte [b] read with the cursor of [tok] at [m] completes the token
    in [read_for_responses]: its block makes the function return. *)
Definition completes (tok : list ascii) (m : N) (b : ascii) : bool :=
  snd (match_char (schar b =? uint8 (pgm_read_byte_near tok m))%Z m
                  (wrap8 (strlen_P tok))).

(** The string has a number at its head: after the white space and one
    optional sign comes a digit. *)
Definition has_number (s : list ascii) : bool :=
  match skip_space s with
  | c :: s' =>
      if Ascii.eqb c "-" || Ascii.eqb c "+" then
        match s' with
        | c' :: _ => isdigit c'
        | [] => false
        end
      else isdigit c
  | [] => false
  end.

(** The clock reads [at_time] while a loop entered at [start_time] with
    [timeout_ms] still runs: [at_time] is below the deadline that the loop
    computes in its [unsigned long]. *)
Definition before_deadline (start_time timeout_ms at_time : N) : Prop :=
  at_time < wrap32 (start_time + timeout_ms).

(** ** read_until *)

Definition ru_body (read_until : ascii) (_ : unit) (b : ascii)
  : unit * option N :=
  (* if (read_until == radio_serial_->read()): a char against an int *)
  if (schar read_until =? uint8 b)%Z then (tt, Some LITE_ESP8266_SUCCESS)
  else (tt, None).

Definition read_until (read_until : ascii) (timeout_ms : N) (radio : Radio)
  : N * Radio :=
  let start_time := millis radio in
  let '(code, _, radio') :=
    poll (ru_body read_until) (wrap32 (start_time + timeout_ms)) tt
         (clock radio) (rx radio) in
  (code, radio').

(** ** Commands

    What a function writes to the radio is the list of the bytes written, in
    order.  Writing takes no time and leaves the line as it is. *)

Definition ESP8266_COMMAND_PREFIX : list ascii := chars "AT+".
Definition ESP8266_COMMAND_VERSION : list ascii := chars "GMR".
Definition ESP8266_COMMAND_DNS_LOOKUP : list ascii := chars "CIPDOMAIN=".
Definition ESP8266_COMMAND_SEND_DATA : list ascii := chars "CIPSEND=".
Definition ESP8266_RESPONSE_OK : list ascii := chars "OK" ++ [CR; LF].
Definition ESP8266_RESPONSE_ERROR : list ascii := chars "ERROR" ++ [CR; LF].
Definition ESP8266_DNS_LOOKUP_PREFIX : list ascii := chars "+CIPDOMAIN:".
Definition ESP8266_SEND_OK : list ascii := chars "SEND OK" ++ [CR; LF].

(** The double quote. *)
Definition QUOTE : ascii := ascii_of_N 34.

Definition WIFI_CONNECT_TIMEOUT : N := 30000.
Definition VERSION_STRING_LENGTH : N := 32.
Definition IP_ADDRESS_LENGTH : N := 16.

(** [strlen] on the memory at a pointer. *)
Definition strlen (s : list ascii) : N := strlen_P s.

(** [print] of a string, in program or data memory: its characters up to the
    NUL. *)
Definition print (s : list ascii) : list ascii :=
  firstn (N.to_nat (strlen s)) s.

(** [params] is [None] for the NULL pointer. *)
Definition send_command (progmem_command : list ascii)
    (params : option (list ascii)) : list ascii :=
  print progmem_command
  ++ match params with
     | Some p => if 0 <? strlen p then print p else []
     | None => []
     end
  ++ [CR; LF].

Definition send_command_with_prefix (progmem_command : list ascii)
    (params : option (list ascii)) : list ascii :=
  print ESP8266_COMMAND_PREFIX ++ send_command progmem_command params.

(** [utoa(value, buffer, 10)]: the memory at [buffer] afterwards, the decimal
    digits of the 16-bit [value] and a NUL.  Five turns of the division loop
    suffice for 16 bits. *)
Fixpoint utoa_digits (turns : nat) (n : N) (acc : list ascii) : list ascii :=
  match turns with
  | O => acc
  | S turns' =>
      let acc' := ascii_of_N (48 + n mod 10) :: acc in
      if n / 10 =? 0 then acc' else utoa_digits turns' (n / 10) acc'
  end.

Definition utoa (value : N) : list ascii :=
  utoa_digits 5 (wrap16 value) [] ++ [zero].

(** ** get_software_version, dns_lookup and send

    Each gives the bytes written, the result and the line afterwards, with
    the buffers it fills. *)

Record esp8266_version_data : Type := mkVersion {
  at_version : list ascii;
  sdk_version : list ascii;
  compile_time : list ascii
}.

Definition get_software_version (software_version : esp8266_version_data)
    (radio : Radio) : list ascii * bool * esp8266_version_data * Radio :=
  let tx := send_command_with_prefix ESP8266_COMMAND_VERSION None in
  let '(_, radio) := read_until ":"%char COMMAND_RESPONSE_TIMEOUT radio in
  let '(_, at_version', radio) :=
    copy_serial_to_buffer (at_version software_version) CR
                          VERSION_STRING_LENGTH COMMAND_RESPONSE_TIMEOUT
                          radio in
  let '(_, radio) := read_until ":"%char COMMAND_RESPONSE_TIMEOUT radio in
  let '(_, sdk_version', radio) :=
    copy_serial_to_buffer (sdk_version software_version) CR
                          VERSION_STRING_LENGTH COMMAND_RESPONSE_TIMEOUT
                          radio in
  let '(_, radio) := read_until ":"%char COMMAND_RESPONSE_TIMEOUT radio in
  let '(_, compile_time', radio) :=
    copy_serial_to_buffer (compile_time software_version) CR
                          VERSION_STRING_LENGTH COMMAND_RESPONSE_TIMEOUT
                          radio in
  let '(code, radio) :=
    read_for_response ESP8266_RESPONSE_OK COMMAND_RESPONSE_TIMEOUT radio in
  (tx, code =? LITE_ESP8266_SUCCESS,
   mkVersion at_version' sdk_version' compile_time', radio).

Definition dns_lookup (domain : list ascii) (ip_address : list ascii)
    (radio : Radio) : list ascii * bool * list ascii * Radio :=
  let tx := print ESP8266_COMMAND_PREFIX ++ print ESP8266_COMMAND_DNS_LOOKUP
            ++ [QUOTE] ++ print domain ++ [QUOTE] ++ [CR; LF] in
  let '(code, radio) :=
    read_for_responses ESP8266_DNS_LOOKUP_PREFIX ESP8266_RESPONSE_ERROR
                       WIFI_CONNECT_TIMEOUT radio in
  if code =? LITE_ESP8266_SUCCESS then
    let '(_, ip_address, radio) :=
      copy_serial_to_buffer ip_address CR IP_ADDRESS_LENGTH
                            COMMAND_RESPONSE_TIMEOUT radio in
    let '(_, radio) :=
      read_for_response ESP8266_RESPONSE_OK COMMAND_RESPONSE_TIMEOUT radio in
    (tx, true, ip_address, radio)
  else (tx, false, ip_address, radio).

Definition send (data : list ascii) (radio : Radio)
  : list ascii * bool * Radio :=
  let length_buffer := utoa (strlen data) in
  let tx := send_command_with_prefix ESP8266_COMMAND_SEND_DATA
                                     (Some length_buffer) in
  let '(code, radio) :=
    read_for_responses ESP8266_RESPONSE_OK ESP8266_RESPONSE_ERROR
                       COMMAND_RESPONSE_TIMEOUT radio in
  if LITE_ESP8266_SUCCESS =? code then
    let tx := tx ++ print data in
    let '(code, radio) :=
      read_for_response ESP8266_SEND_OK COMMAND_RESPONSE_TIMEOUT radio in
    (tx, LITE_ESP8266_SUCCESS =? code, radio)
  else (tx, false, radio).

(** ** connect_to_ap *)

Definition ESP8266_COMMAND_CONNECT_TO_AP : list ascii := chars "CWJAP_DEF=".
Definition ESP8266_RESPONSE_FAIL : list ascii := chars "FAIL" ++ [CR; LF].

(** The characters of [s] stored from index [i] on, and a NUL after them. *)
Fixpoint store_chars (i : nat) (s mem : list ascii) : list ascii :=
  match s with
  | [] => poke_nat i zero mem
  | c :: s' => store_chars (S i) s' (poke_nat i c mem)
  end.

(** [strcat_P(dest, src)]: the memory at [dest] afterwards. *)
Definition strcat_P (dest src : list ascii) : list ascii :=
  store_chars (N.to_nat (strlen dest)) (print src) dest.

(** [buffer[strlen(buffer)] = c;] *)
Definition put_at_end (buffer : list ascii) (c : ascii) : list ascii :=
  poke (strlen buffer) c buffer.

(** The local [join_ap_buffer] when the command is sent.  A NULL pointer is
    [None]. *)
Definition join_ap_buffer (progmem_ssid : list ascii)
    (progmem_password progmem_bssid : option (list ascii)) : list ascii :=
  (* char join_ap_buffer[128]; memset(join_ap_buffer, 0, 128); *)
  let buffer := repeat zero 128 in
  let buffer := poke 0 QUOTE buffer in
  let buffer := strcat_P buffer progmem_ssid in
  let buffer := put_at_end buffer QUOTE in
  let buffer :=
    match progmem_password with
    | Some password =>
        let buffer := put_at_end buffer ","%char in
        let buffer := put_at_end buffer QUOTE in
        let buffer := strcat_P buffer password in
        put_at_end buffer QUOTE
    | None => buffer
    end in
  match progmem_bssid with
  | Some bssid =>
      let buffer := put_at_end buffer ","%char in
      let buffer := put_at_end buffer QUOTE in
      let buffer := strcat_P buffer bssid in
      put_at_end buffer QUOTE
  | None => buffer
  end.

Definition connect_to_ap (progmem_ssid : list ascii)
    (progmem_password progmem_bssid : option (list ascii)) (radio : Radio)
  : list ascii * bool * Radio :=
  let tx :=
    send_command_with_prefix ESP8266_COMMAND_CONNECT_TO_AP
      (Some (join_ap_buffer progmem_ssid progmem_password progmem_bssid)) in
  let '(code, radio) :=
    read_for_responses ESP8266_RESPONSE_OK ESP8266_RESPONSE_FAIL
                       WIFI_CONNECT_TIMEOUT radio in
  (tx, LITE_ESP8266_SUCCESS =? code, radio).

(** A string between double quotes, and the same after a comma when there
    is one. *)
Definition quoted (s : list ascii) : list ascii := QUOTE :: s ++ [QUOTE].

Definition comma_quoted (s : option (list ascii)) : list ascii :=
  match s with
  | Some s => ","%char :: quoted s
  | None => []
  end.

(** ** More notions used in the statements *)

(** The bytes that a line brings, in order. *)
Fixpoint heard (line : list (option ascii)) : list ascii :=
  match line with
  | [] => []
  | Some b :: line' => b :: heard line'
  | None :: line' => heard line'
  end.

(** The number that a string of decimal digits denotes. *)
Definition number_of (digits : list ascii) : N :=
  fold_left (fun acc c => 10 * acc + (N_of_ascii c - 48)) digits 0.

(** What the copy loop of the packet extractor leaves in the region after a
    run of bytes, the first of index [i]: the bytes of index below [cap] are
    stored, the others dropped. *)
Fixpoint store_run (i cap : nat) (bytes mem : list ascii) : list ascii :=
  match bytes with
  | [] => mem
  | b :: bytes' =>
      store_run (S i) cap bytes' (if (i <? cap)%nat then poke_nat i b mem
                                  else mem)
  end.

(** * Tests *)

Definition at_once (clock0 : N) (s : string) : Radio :=
  mkRadio clock0 (line_of (ready (chars s))).

Example rfr_ok :
  read_for_response (chars "OK") 1000
    (mkRadio 7 (line_of [(3%nat, "x"%char); (0%nat, "O"%char);
                         (2%nat, "K"%char); (0%nat, "z"%char)]))
  = (LITE_ESP8266_SUCCESS, mkRadio 12 [Some "z"%char]).
Proof. vm_compute. reflexivity. Qed.

Example rfr_no_backtrack :
  read_for_response (chars "AB") 1000 (at_once 0 "AAB")
  = (LITE_ESP8266_TIMEOUT, mkRadio 1000 []).
Proof. vm_compute. reflexivity. Qed.

Example rfrs_fail :
  read_for_responses (chars "OK") (chars "FAIL") 1000 (at_once 0 "xFAILOK")
  = (LITE_ESP8266_FAILURE, mkRadio 0 [Some "O"%char; Some "K"%char]).
Proof. vm_compute. reflexivity. Qed.

Example csb_abc :
  copy_serial_to_buffer (chars "????????") "d"%char 8 1000 (at_once 0 "abcdefg")
  = (LITE_ESP8266_SUCCESS, chars "abc" ++ zero :: chars "????",
     at_once 0 "efg").
Proof. vm_compute. reflexivity. Qed.

Example csb_full :
  copy_serial_to_buffer (chars "????") "d"%char 4 1000 (at_once 0 "abcdefg")
  = (LITE_ESP8266_LENGTH_EXCEEDED, chars "abc" ++ [zero], at_once 0 "defg").
Proof. vm_compute. reflexivity. Qed.

Example atoi_532 : parse_length (chars "532" ++ [zero; "7"%char]) = 532.
Proof. vm_compute. reflexivity. Qed.

Example grp_10 :
  get_response_packet (chars "?????") 250 10 5000
                      (at_once 0 "+IPD,5:helloXY")
  = (Some (mkPacket 6 (chars "hello" ++ [zero])), at_once 0 "XY").
Proof. vm_compute. reflexivity. Qed.

Example grp_late_terminator :
  get_response_packet (chars "?????") 250 3 5000
    (mkRadio 0 (line_of (ready (chars "+IPD,")) ++
                line_of [(0%nat, "5"%char); (1500%nat, ":"%char)] ++
                line_of (ready (chars "helloXY"))))
  = (Some (mkPacket 3 (chars ":h" ++ [zero])), at_once 1500 "oXY").
Proof. vm_compute. reflexivity. Qed.

Example grp_short_payload :
  get_response_packet (chars "?????") 3 10 5000 (at_once 0 "+IPD,9:ab")
  = (Some (mkPacket 10 (chars "ab" ++ repeat (ascii_of_N 255) 3
                        ++ repeat zero 5)),
     mkRadio 5001 []).
Proof. vm_compute. reflexivity. Qed.

Example ghr_10 :
  get_http_response [] 250 10 5000
    (mkRadio 0 (line_of (ready (chars "Content-Length: 2" ++ [CR; LF] ++
                                chars "Connection: close" ++
                                [CR; LF; CR; LF] ++ chars "hiX"))))
  = (Some (mkPacket 3 (chars "hi" ++ [zero])), at_once 0 "X").
Proof. vm_compute. reflexivity. Qed.

(** * Facts about the machine integers and the memory *)

Lemma wrap32_small n : n < 4294967296 -> wrap32 n = n.
Proof. intros H. unfold wrap32. now apply N.mod_small. Qed.

Lemma wrap32_lt n : wrap32 n < 4294967296.
Proof. unfold wrap32. apply N.mod_lt. lia. Qed.

Lemma wrap8_small n : n < 256 -> wrap8 n = n.
Proof. intros H. unfold wrap8. now apply N.mod_small. Qed.

Lemma wrap16_small n : n < 65536 -> wrap16 n = n.
Proof. intros H. unfold wrap16. now apply N.mod_small. Qed.

Lemma sub16_small a b : b <= a -> a < 65536 -> sub16 a b = a - b.
Proof.
  intros Hb Ha. unfold sub16.
  rewrite (wrap16_small b) by lia.
  unfold wrap16.
  replace (a + 65536 - b) with ((a - b) + 1 * 65536) by lia.
  rewrite N.Div0.mod_add. apply N.mod_small. lia.
Qed.

Lemma uint8_inj a b : uint8 a = uint8 b -> a = b.
Proof.
  unfold uint8. intros H. apply N2Z.inj in H.
  rewrite <- (ascii_N_embedding a), <- (ascii_N_embedding b). now rewrite H.
Qed.

Lemma uint8_range c : (0 <= uint8 c < 256)%Z.
Proof. unfold uint8. pose proof (N_ascii_bounded c). lia. Qed.

Lemma char_of_uint8 b : char_of_int (uint8 b) = b.
Proof.
  unfold char_of_int. pose proof (uint8_range b).
  rewrite Z.mod_small by lia. unfold uint8. rewrite N2Z.id.
  apply ascii_N_embedding.
Qed.

Lemma uint8_eqb_refl c : (uint8 c =? uint8 c)%Z = true.
Proof. apply Z.eqb_refl. Qed.

(** A [char] equals a [uint8_t] only when both hold the same seven-bit
    byte. *)
Lemma schar_eq_uint8 b t : schar b = uint8 t -> b = t.
Proof.
  unfold schar. pose proof (uint8_range b). pose proof (uint8_range t).
  destruct (uint8 b <? 128)%Z eqn:E; intros Heq.
  - now apply uint8_inj.
  - lia.
Qed.

Lemma schar_seven_bit t : (uint8 t < 128)%Z -> schar t = uint8 t.
Proof.
  intros H. unfold schar.
  destruct (uint8 t <? 128)%Z eqn:E; [reflexivity|].
  apply Z.ltb_ge in E. lia.
Qed.

Lemma strlen_P_cstring s : cstring s -> strlen_P s = N.of_nat (length s).
Proof.
  induction 1 as [|c s Hc Hs IH]; [reflexivity|].
  cbn [strlen_P length]. destruct (Ascii.eqb c zero) eqn:E.
  - apply Ascii.eqb_eq in E. contradiction.
  - rewrite IH. lia.
Qed.

Lemma firstn_succ_nth (s : list ascii) k :
  (k < length s)%nat -> firstn (S k) s = firstn k s ++ [nth k s zero].
Proof.
  revert k. induction s as [|c s IH]; intros k Hk; cbn [length] in Hk.
  - lia.
  - destruct k as [|k]; [reflexivity|].
    cbn [firstn nth app]. f_equal. apply IH. lia.
Qed.

Lemma pgm_read_nth s k : pgm_read_byte_near s (N.of_nat k) = nth k s zero.
Proof. unfold pgm_read_byte_near. now rewrite Nat2N.id. Qed.

(** * Facts about the polling loop *)

Section PollingFacts.
Context {St : Type}.
Variable body : St -> ascii -> St * option N.

Lemma feed_app s a b :
  feed body s (a ++ b) =
  match feed body s a with
  | (s', None) => feed body s' b
  | (s', Some (code, rest)) => (s', Some (code, rest ++ b))
  end.
Proof.
  revert s. induction a as [|x a IH]; intros s; cbn [feed app].
  - reflexivity.
  - destruct (body s x) as [s1 [code|]]; [reflexivity|apply IH].
Qed.

(** [poll] is the [while] loop over [millis], [available] and [read]. *)
Lemma poll_iteration deadline s radio :
  poll body deadline s (clock radio) (rx radio) =
  if millis radio <? deadline then
    if available radio then
      let '(c, radio') := read radio in
      match body s (char_of_int c) with
      | (s', Some code) => (code, s', radio')
      | (s', None) => poll body deadline s' (clock radio') (rx radio')
      end
    else
      match rx radio with
      | [] => (LITE_ESP8266_TIMEOUT, s, mkRadio deadline [])
      | _ :: line' => poll body deadline s (wrap32 (clock radio + 1)) line'
      end
  else (LITE_ESP8266_TIMEOUT, s, radio).
Proof.
  destruct radio as [now [|[b|] line]]; unfold millis, available, read;
    cbn [clock rx poll]; destruct (now <? deadline); try reflexivity.
  rewrite char_of_uint8. destruct (body s b) as [s' [code|]]; reflexivity.
Qed.

(** Silence before the deadline only moves the clock. *)
Lemma poll_silence deadline s now d line :
  deadline < 4294967296 -> now + N.of_nat d <= deadline ->
  poll body deadline s now (repeat None d ++ line)
  = poll body deadline s (now + N.of_nat d) line.
Proof.
  intros Hd. revert now. induction d as [|d IH]; intros now Hnow.
  - cbn [repeat app]. f_equal. lia.
  - cbn [repeat app poll].
    destruct (now <? deadline) eqn:E; [|apply N.ltb_ge in E; lia].
    rewrite wrap32_small by lia.
    rewrite IH by lia. f_equal. lia.
Qed.

(** A stretch of the line that arrives before the deadline and on which
    the block does not return is consumed whole. *)
Lemma poll_line_of deadline arrivals : forall s s' now rest,
  deadline < 4294967296 -> now + delay_of arrivals < deadline ->
  feed body s (bytes_of arrivals) = (s', None) ->
  poll body deadline s now (line_of arrivals ++ rest)
  = poll body deadline s' (now + delay_of arrivals) rest.
Proof.
  induction arrivals as [|[d b] arrivals IH]; intros s s' now rest Hd Hnow Hf.
  - cbn in *. inversion Hf; subst. f_equal. lia.
  - cbn [line_of]. rewrite <- app_assoc.
    cbn [delay_of fold_right fst] in Hnow. fold (delay_of arrivals) in Hnow.
    rewrite poll_silence by lia.
    cbn [app poll].
    destruct (now + N.of_nat d <? deadline) eqn:E;
      [|apply N.ltb_ge in E; lia].
    cbn [bytes_of map snd feed] in Hf. fold (bytes_of arrivals) in Hf.
    destruct (body s b) as [s1 [code|]]; [discriminate|].
    rewrite (IH s1 s') by (try assumption; lia).
    cbn [delay_of fold_right fst]. fold (delay_of arrivals).
    f_equal. lia.
Qed.

(** A stretch that arrives before the deadline and on whose last byte the
    block returns: the call returns there, the rest of the line unread. *)
Lemma poll_line_of_return deadline arrivals : forall s s' code now rest,
  deadline < 4294967296 -> now + delay_of arrivals < deadline ->
  feed body s (bytes_of arrivals) = (s', Some (code, [])) ->
  poll body deadline s now (line_of arrivals ++ rest)
  = (code, s', mkRadio (now + delay_of arrivals) rest).
Proof.
  induction arrivals as [|[d b] arrivals IH];
    intros s s' code now rest Hd Hnow Hf.
  - cbn in Hf. discriminate.
  - cbn [line_of]. rewrite <- app_assoc.
    cbn [delay_of fold_right fst] in Hnow |- *.
    fold (delay_of arrivals) in Hnow |- *.
    rewrite poll_silence by lia.
    cbn [app poll].
    destruct (now + N.of_nat d <? deadline) eqn:E;
      [|apply N.ltb_ge in E; lia].
    cbn [bytes_of map snd feed] in Hf. fold (bytes_of arrivals) in Hf.
    destruct (body s b) as [s1 [code1|]].
    + inversion Hf as [[H1 H2 H3]]; subst.
      destruct arrivals; [|discriminate].
      cbn. do 2 f_equal. lia.
    + rewrite (IH s1 s' code) by (try assumption; lia).
      do 2 f_equal. lia.
Qed.

(** What a call has consumed when it returns: a stretch of the line over
    which the block ran, returning on its last byte unless the call timed
    out. *)
Lemma poll_consumed deadline : forall line s now code s' radio',
  poll body deadline s now line = (code, s', radio') ->
  exists arrivals tail,
    line = line_of arrivals ++ tail /\
    ((feed body s (bytes_of arrivals) = (s', Some (code, []))
      /\ rx radio' = tail)
     \/ (feed body s (bytes_of arrivals) = (s', None)
         /\ code = LITE_ESP8266_TIMEOUT)).
Proof.
  induction line as [|[b|] line IH]; intros s now code s' radio' H;
    cbn [poll] in H; destruct (now <? deadline) eqn:E;
    try (inversion H; subst; eexists [], _; split;
         [reflexivity | right; split; reflexivity]).
  - destruct (body s b) as [s1 [code1|]] eqn:Hb.
    + inversion H; subst. exists [(O, b)], line. split; [reflexivity|].
      left. cbn. rewrite Hb. split; reflexivity.
    + destruct (IH _ _ _ _ _ H) as (arr & tail & Hl & Hc).
      exists ((O, b) :: arr), tail. split; [cbn; now rewrite Hl|].
      cbn [bytes_of map snd feed]. rewrite Hb. exact Hc.
  - destruct (IH _ _ _ _ _ H) as (arr & tail & Hl & Hc).
    destruct arr as [|[d b] arr].
    + exists [], (None :: line). split; [reflexivity|].
      destruct Hc as [[Hc _]|Hc]; [cbn in Hc; discriminate|].
      right. exact Hc.
    + exists ((S d, b) :: arr), tail. split; [cbn; now rewrite Hl|].
      exact Hc.
Qed.

(** The trace ends with the values the call ends with. *)
Lemma poll_trace_last deadline : forall line s now,
  exists visited,
    poll_trace body deadline s now line
    = visited ++ [snd (fst (poll body deadline s now line))].
Proof.
  induction line as [|[b|] line IH]; intros s now; cbn [poll_trace poll];
    destruct (now <? deadline); try (now exists []).
  - destruct (body s b) as [s1 [code1|]] eqn:Hb.
    + now exists [s].
    + destruct (IH s1 now) as [visited ->]. now exists (s :: visited).
  - apply IH.
Qed.

(** An invariant of the loop's variables holds all along the trace. *)
Lemma poll_trace_inv (I P : St -> Prop) deadline :
  (forall s, I s -> P s) ->
  (forall s b s', I s -> body s b = (s', None) -> I s') ->
  (forall s b s' code, I s -> body s b = (s', Some code) -> P s') ->
  forall line s now, I s -> Forall P (poll_trace body deadline s now line).
Proof.
  intros HIP Hgo Hret.
  induction line as [|[b|] line IH]; intros s now Hs; cbn [poll_trace];
    destruct (now <? deadline); try (constructor; auto).
  - destruct (body s b) as [s1 [code1|]] eqn:Hb.
    + constructor; [auto|]. constructor; [|constructor]. eauto.
    + constructor; [auto|]. apply IH. eauto.
  - apply IH. exact Hs.
Qed.
End PollingFacts.

Section PollingInvariants.
Context {St : Type}.
Variable body : St -> ascii -> St * option N.
Variable I : St -> Prop.
Hypothesis I_kept : forall s b s', I s -> body s b = (s', None) -> I s'.

Lemma feed_inv bytes : forall s s',
  I s -> feed body s bytes = (s', None) -> I s'.
Proof.
  induction bytes as [|b bytes IH]; intros s s' Hs Hf; cbn [feed] in Hf.
  - inversion Hf; subst; assumption.
  - destruct (body s b) as [s1 [code|]] eqn:Hb; [discriminate|].
    apply (IH s1 s'); [exact (I_kept _ _ _ Hs Hb) | exact Hf].
Qed.

(** A value of the trace that breaks the invariant is the one the call
    returned with. *)
Lemma poll_trace_exit deadline : forall line s now x,
  I s -> In x (poll_trace body deadline s now line) -> ~ I x ->
  exists code radio', poll body deadline s now line = (code, x, radio').
Proof.
  induction line as [|[b|] line IH]; intros s now x Hs Hin Hx;
    cbn [poll_trace poll] in *; destruct (now <? deadline);
    try (destruct Hin as [<-|[]]; contradiction).
  - destruct (body s b) as [s1 [code|]] eqn:Hb.
    + destruct Hin as [<-|[<-|[]]]; [contradiction|]. eauto.
    + destruct Hin as [<-|Hin]; [contradiction|].
      apply (IH s1 now x); [exact (I_kept _ _ _ Hs Hb) | exact Hin | exact Hx].
  - apply (IH s _ x); assumption.
Qed.
End PollingInvariants.

(** * Facts about the single-token matcher *)

Section Matcher.
Variable tok : list ascii.
Hypothesis tok_cstring : cstring tok.
Hypothesis tok_short : (length tok <= 255)%nat.

Local Abbreviation len := (N.of_nat (length tok)).

Lemma response_length_short : wrap8 (strlen_P tok) = len.
Proof.
  rewrite strlen_P_cstring by assumption. apply wrap8_small.
  lia.
Qed.

(** One step of the cursor below the token's length. *)
Lemma match_char_step (hit : bool) m :
  m < len ->
  match_char hit m len =
  if hit then (m + 1, m + 1 =? len) else (0, false).
Proof.
  intros Hm. unfold match_char. destruct hit; [|reflexivity].
  rewrite wrap8_small; [reflexivity|]. lia.
Qed.

Lemma rfr_body_hit k :
  (k < length tok)%nat ->
  rfr_body tok len (N.of_nat k) (nth k tok zero)
  = (N.of_nat (S k),
     if (S k =? length tok)%nat then Some LITE_ESP8266_SUCCESS else None).
Proof.
  intros Hk. unfold rfr_body. rewrite pgm_read_nth, uint8_eqb_refl.
  rewrite match_char_step by (lia).
  replace (N.of_nat k + 1) with (N.of_nat (S k)) by lia.
  destruct (N.of_nat (S k) =? len) eqn:E.
  - apply N.eqb_eq in E. apply Nat2N.inj in E.
    now rewrite (proj2 (Nat.eqb_eq _ _) E).
  - apply N.eqb_neq in E.
    destruct (S k =? length tok)%nat eqn:E'; [|reflexivity].
    apply Nat.eqb_eq in E'. rewrite E' in E. contradiction.
Qed.

(** From a cursor at zero the token's characters advance it one by one. *)
Lemma rfr_feed_firstn k :
  (k < length tok)%nat ->
  feed (rfr_body tok len) 0 (firstn k tok) = (N.of_nat k, None).
Proof.
  induction k as [|k IH]; intros Hk; [reflexivity|].
  rewrite firstn_succ_nth by lia. rewrite feed_app, IH by lia.
  cbn [feed]. rewrite rfr_body_hit by lia.
  destruct (S k =? length tok)%nat eqn:E; [|reflexivity].
  apply Nat.eqb_eq in E. lia.
Qed.

Lemma rfr_feed_token :
  tok <> [] ->
  feed (rfr_body tok len) 0 tok = (len, Some (LITE_ESP8266_SUCCESS, [])).
Proof.
  intros Hne.
  assert (Hpos : (0 < length tok)%nat) by (destruct tok; [congruence|cbn; lia]).
  remember (pred (length tok)) as k eqn:Hk.
  assert (Htok : tok = firstn k tok ++ [nth k tok zero]).
  { rewrite <- firstn_succ_nth by lia.
    replace (S k) with (length tok) by lia. now rewrite firstn_all. }
  rewrite Htok at 3. rewrite feed_app, rfr_feed_firstn by lia.
  cbn [feed]. rewrite rfr_body_hit by lia.
  replace (S k) with (length tok) by lia. rewrite Nat.eqb_refl.
  reflexivity.
Qed.

(** The block keeps the cursor's meaning, whatever comparison produced
    [hit], as long as a hit means that the byte is the expected character. *)
Lemma match_char_sound (hit : bool) m seen b m' ret :
  trails tok m seen ->
  (hit = true -> b = nth (N.to_nat m) tok zero) ->
  match_char hit m len = (m', ret) ->
  if ret then m' = len /\ exists a, seen ++ [b] = a ++ tok
  else trails tok m' (seen ++ [b]).
Proof.
  intros [Hm [a Ha]] Hhit Hb.
  rewrite match_char_step in Hb by assumption.
  destruct hit.
  - specialize (Hhit eq_refl).
    assert (Hseen : seen ++ [b] = a ++ firstn (S (N.to_nat m)) tok).
    { rewrite firstn_succ_nth by lia.
      rewrite Ha, <- app_assoc, Hhit. reflexivity. }
    destruct (m + 1 =? len) eqn:E; inversion Hb; subst m' ret.
    + apply N.eqb_eq in E. split; [exact E|].
      exists a. rewrite Hseen. f_equal. apply firstn_all2. lia.
    + apply N.eqb_neq in E. split; [lia|].
      exists a. rewrite Hseen. do 2 f_equal. lia.
  - inversion Hb; subst m' ret. split; [lia|].
    exists (seen ++ [b]). cbn. now rewrite app_nil_r.
Qed.

Lemma rfr_body_sound m seen b m' r :
  trails tok m seen -> rfr_body tok len m b = (m', r) ->
  match r with
  | None => trails tok m' (seen ++ [b])
  | Some code =>
      code = LITE_ESP8266_SUCCESS /\ m' = len /\
      exists a, seen ++ [b] = a ++ tok
  end.
Proof.
  intros Ht Hb. unfold rfr_body in Hb.
  destruct (match_char _ m len) as [m1 ret] eqn:Hm.
  apply (match_char_sound _ _ seen b) in Hm; [|exact Ht|].
  - destruct ret; inversion Hb; subst m' r; [|exact Hm].
    destruct Hm as [H1 H2]. auto.
  - intros Hhit. apply Z.eqb_eq, uint8_inj in Hhit. exact Hhit.
Qed.

Lemma rfr_feed_sound bytes : forall m seen m' r,
  trails tok m seen -> feed (rfr_body tok len) m bytes = (m', r) ->
  match r with
  | None => trails tok m' (seen ++ bytes)
  | Some (code, rest) =>
      code = LITE_ESP8266_SUCCESS /\ m' = len /\
      exists a used, bytes = used ++ rest /\ seen ++ used = a ++ tok
  end.
Proof.
  induction bytes as [|b bytes IH]; intros m seen m' r Ht Hf; cbn [feed] in Hf.
  - inversion Hf; subst. now rewrite app_nil_r.
  - destruct (rfr_body tok len m b) as [m1 [code|]] eqn:Hb.
    + inversion Hf; subst.
      destruct (rfr_body_sound _ _ _ _ _ Ht Hb) as (Hc & Hm & a & Ha).
      repeat split; try assumption. exists a, [b]. now split.
    + pose proof (rfr_body_sound _ _ _ _ _ Ht Hb) as Ht1. cbn in Ht1.
      specialize (IH _ _ _ _ Ht1 Hf).
      destruct r as [[code rest]|].
      * destruct IH as (Hc & Hm & a & used & Hu & Ha).
        repeat split; try assumption. exists a, (b :: used).
        split; [cbn; now rewrite Hu|].
        rewrite <- Ha, <- app_assoc. reflexivity.
      * now rewrite <- app_assoc in IH.
Qed.

Lemma trails_start : tok <> [] -> trails tok 0 [].
Proof.
  intros Hne. split.
  - destruct tok; [congruence|cbn [length]; lia].
  - now exists [].
Qed.
End Matcher.

(** A stretch of bytes none of which is the token's first character leaves
    the cursor at zero. *)
Lemma rfr_feed_no_start tok before :
  tok <> [] -> cstring tok -> (length tok <= 255)%nat ->
  Forall (fun b => b <> hd zero tok) before ->
  feed (rfr_body tok (wrap8 (strlen_P tok))) 0 before = (0, None).
Proof.
  intros Hne Hc Hs Hb. rewrite response_length_short by assumption.
  induction Hb as [|b before Hb Hbefore IH]; [reflexivity|].
  cbn [feed]. unfold rfr_body at 1.
  destruct (uint8 b =? uint8 (pgm_read_byte_near tok 0))%Z eqn:E.
  - apply Z.eqb_eq, uint8_inj in E. destruct tok; [congruence|].
    cbn in E, Hb. contradiction.
  - cbn [match_char]. exact IH.
Qed.

(** * The response matcher: claims C2 and C7 *)

(** The length of a token is kept in a [uint8_t]: a token of 257 characters
    is taken to have one, and is reported found after its first character. *)
Lemma read_for_response_long_token :
  read_for_response (repeat "a"%char 257) 1000 (at_once 0 "ab")
  = (LITE_ESP8266_SUCCESS, at_once 0 "b").
Proof. vm_compute. reflexivity. Qed.

(** From a cursor at zero, a token that arrives before the deadline is
    found, and the call returns on its last character. *)
Lemma read_for_response_from_zero :
  forall tok timeout_ms radio arrivals rest before,
    tok <> [] -> cstring tok -> (length tok <= 255)%nat ->
    rx radio = line_of arrivals ++ rest ->
    bytes_of arrivals = before ++ tok ->
    before_deadline (clock radio) timeout_ms
                    (clock radio + delay_of arrivals) ->
    feed (rfr_body tok (wrap8 (strlen_P tok))) 0 before = (0, None) ->
    read_for_response tok timeout_ms radio
    = (LITE_ESP8266_SUCCESS, mkRadio (clock radio + delay_of arrivals) rest).
Proof.
  intros tok timeout_ms radio arrivals rest before
         Hne Hc Hs Hrx Hbytes Htime Hzero.
  unfold read_for_response, millis.
  rewrite response_length_short in * by assumption.
  rewrite Hrx.
  erewrite poll_line_of_return;
    [reflexivity | apply wrap32_lt | exact Htime |].
  rewrite Hbytes, feed_app, Hzero.
  apply rfr_feed_token; assumption.
Qed.




(** C7, as stated, fails for the zero-length token: the byte read at the
    cursor is then the string's NUL, a NUL on the line moves the cursor to 1,
    above the token's length, and the call does not return Success on
    entry. *)
Lemma read_for_response_empty_token_cursor :
  ~ (forall tok timeout_ms radio,
        cstring tok ->
        Forall (fun m => m <= N.of_nat (length tok))
               (read_for_response_cursors tok timeout_ms radio)).
Proof.
  intros H.
  specialize (H [] 1000 (mkRadio 0 [Some zero]) (Forall_nil _)).
  vm_compute in H.
  inversion H as [|m l Hm Hl]; subst. inversion Hl as [|m' l' Hm' Hl']; subst.
  apply Hm'. reflexivity.
Qed.

(** C7, amended: for every non-empty token, the values of [matched_chars]
    never exceed the token's length, and when the cursor reaches that length
    the call returns Success there: what it has read ends with the token and
    the rest of the line is untouched. *)
Theorem read_for_response_cursor_bound :
  forall tok timeout_ms radio,
    tok <> [] -> cstring tok ->
    Forall (fun m => m <= N.of_nat (length tok))
           (read_for_response_cursors tok timeout_ms radio)
    /\ (In (N.of_nat (length tok))
           (read_for_response_cursors tok timeout_ms radio) ->
        exists arrivals before,
          rx radio = line_of arrivals ++ rx (snd (read_for_response tok timeout_ms radio))
          /\ bytes_of arrivals = before ++ tok
          /\ fst (read_for_response tok timeout_ms radio)
             = LITE_ESP8266_SUCCESS).
Proof.
  intros tok timeout_ms radio Hne Hc.
  assert (Hpos : (0 < length tok)%nat) by (destruct tok; [congruence|cbn; lia]).
  unfold read_for_response_cursors, read_for_response, millis.
  set (body := rfr_body tok (wrap8 (strlen_P tok))).
  set (deadline := wrap32 (clock radio + timeout_ms)).
  assert (Hlt : forall n, wrap8 n < 256)
    by (intros n; unfold wrap8; apply N.mod_lt; lia).
  destruct (Nat.le_gt_cases (length tok) 255) as [Hs|Hlong].
  - (* the length fits the uint8_t *)
    pose proof (response_length_short tok Hc Hs) as Hlen.
    assert (Hkeep : forall s b s',
               s < N.of_nat (length tok) -> body s b = (s', None) ->
               s' < N.of_nat (length tok)).
    { intros s b s' Hs0 Hb. subst body. rewrite Hlen in Hb.
      unfold rfr_body in Hb. rewrite match_char_step in Hb by assumption.
      destruct (uint8 b =? _)%Z.
      - destruct (s + 1 =? N.of_nat (length tok)) eqn:E; inversion Hb; subst.
        apply N.eqb_neq in E. lia.
      - inversion Hb; subst. lia. }
    split.
    + apply (poll_trace_inv body (fun m => m < N.of_nat (length tok))).
      * intros s Hs0. lia.
      * exact Hkeep.
      * intros s b s' code Hs0 Hb. subst body. rewrite Hlen in Hb.
        unfold rfr_body in Hb. rewrite match_char_step in Hb by assumption.
        destruct (uint8 b =? _)%Z.
        -- destruct (s + 1 =? N.of_nat (length tok)) eqn:E; inversion Hb; subst.
           apply N.eqb_eq in E. lia.
        -- inversion Hb.
      * lia.
    + intros Hin.
      assert (H0 : 0 < N.of_nat (length tok)) by lia.
      assert (Hx : ~ N.of_nat (length tok) < N.of_nat (length tok)) by lia.
      destruct (poll_trace_exit body (fun m => m < N.of_nat (length tok))
                  Hkeep deadline _ 0 (clock radio) _ H0 Hin Hx)
        as (code & radio' & Hp).
      rewrite Hp. cbn [fst snd].
      destruct (poll_consumed body _ _ _ _ _ _ _ Hp)
        as (arrivals & tail & Hl & [[Hf Hrx]|[Hf _]]).
      * subst body. rewrite Hlen in Hf.
        pose proof (rfr_feed_sound tok Hs _ _ [] _ _
                      (trails_start tok Hc Hs Hne) Hf)
          as (Hcode & _ & a & used & Hu & Ha).
        exists arrivals, a. rewrite app_nil_r in Hu. cbn in Ha.
        subst tail. repeat split; congruence.
      * pose proof (feed_inv body (fun m => m < N.of_nat (length tok))
                      Hkeep _ _ _ H0 Hf) as Hbelow.
        cbn in Hbelow. lia.
  - (* a longer token: the uint8_t cursor stays below 256 *)
    assert (Hkeep : forall s b s' r, body s b = (s', r) -> s' < 256).
    { intros s b s' r Hb. subst body. unfold rfr_body, match_char in Hb.
      destruct (uint8 b =? _)%Z.
      - destruct (wrap8 (s + 1) =? _); inversion Hb; subst; apply Hlt.
      - inversion Hb; subst. lia. }
    assert (Hall : Forall (fun m => m < 256)
                     (poll_trace body deadline 0 (clock radio) (rx radio))).
    { apply (poll_trace_inv body (fun m => m < 256)); eauto. lia. }
    split.
    + eapply Forall_impl; [|exact Hall]. cbn. intros m Hm. lia.
    + intros Hin. rewrite Forall_forall in Hall. apply Hall in Hin. lia.
Qed.


Lemma read_for_response_cursor_bound_witness :
  Forall (fun m => m <= 2)
         (read_for_response_cursors (chars "OK") 1000 (at_once 0 "xOKz"))
  /\ (In 2 (read_for_response_cursors (chars "OK") 1000 (at_once 0 "xOKz")) ->
      exists arrivals before,
        rx (at_once 0 "xOKz")
        = line_of arrivals
          ++ rx (snd (read_for_response (chars "OK") 1000
                                        (at_once 0 "xOKz")))
        /\ bytes_of arrivals = before ++ chars "OK"
        /\ fst (read_for_response (chars "OK") 1000 (at_once 0 "xOKz"))
           = LITE_ESP8266_SUCCESS).
Proof.
  apply (read_for_response_cursor_bound (chars "OK") 1000
           (at_once 0 "xOKz")).
  - discriminate.
  - repeat constructor; discriminate.
Defined.

(** * Facts about the two-token matcher *)

Lemma starts_with_app tok rest : starts_with tok (tok ++ rest) = true.
Proof.
  induction tok as [|t tok IH]; [reflexivity|].
  cbn. now rewrite Ascii.eqb_refl.
Qed.

Lemma contains_intro tok a c : contains tok (a ++ tok ++ c) = true.
Proof.
  induction a as [|x a IH].
  - cbn [app]. destruct (tok ++ c) eqn:E; cbn [contains];
      rewrite <- E, starts_with_app; reflexivity.
  - cbn [app contains]. rewrite IH. apply orb_true_r.
Qed.

Lemma starts_with_elim tok : forall s,
  starts_with tok s = true -> exists c, s = tok ++ c.
Proof.
  induction tok as [|t tok IH]; intros s H.
  - now exists s.
  - destruct s as [|x s]; [discriminate|]. cbn in H.
    apply andb_true_iff in H as [Hx Hs]. apply Ascii.eqb_eq in Hx. subst x.
    destruct (IH _ Hs) as [c ->]. now exists c.
Qed.

Lemma contains_elim tok : forall s,
  contains tok s = true -> exists a c, s = a ++ tok ++ c.
Proof.
  induction s as [|x s IH]; intros H.
  - cbn in H. apply orb_true_iff in H as [H|H]; [|discriminate].
    apply starts_with_elim in H as [c ->]. now exists [], c.
  - cbn [contains] in H. apply orb_true_iff in H as [H|H].
    + apply starts_with_elim in H as [c ->]. now exists [], c.
    + destruct (IH H) as (a & c & ->). now exists (x :: a), c.
Qed.

Section Race.
Variables pass fail : list ascii.
Hypothesis pass_short : (length pass <= 255)%nat.
Hypothesis fail_short : (length fail <= 255)%nat.
Hypothesis fail_seven : seven_bit fail.

Local Abbreviation plen := (N.of_nat (length pass)).
Local Abbreviation flen := (N.of_nat (length fail)).
Local Abbreviation race := (rfrs_body pass fail plen flen).

(** The pass cursor keeps its meaning over one byte, and a return with
    Success means that the pass token has just been read. *)
Lemma rfrs_body_pass_sound p f seen b st r :
  trails pass p seen -> race (p, f) b = (st, r) ->
  (r = Some LITE_ESP8266_SUCCESS /\ exists a, seen ++ [b] = a ++ pass)
  \/ (r <> Some LITE_ESP8266_SUCCESS /\ trails pass (fst st) (seen ++ [b])).
Proof.
  intros Ht Hb. unfold rfrs_body in Hb.
  destruct (match_char _ p plen) as [p1 ret] eqn:Hp.
  apply (match_char_sound pass pass_short _ _ seen b) in Hp; [|exact Ht|].
  - destruct ret.
    + inversion Hb; subst. left. split; [reflexivity|]. apply Hp.
    + right. destruct (match_char _ f flen) as [f1 [|]];
        inversion Hb; subst; split; try exact Hp; discriminate.
  - intros Hhit. apply Z.eqb_eq, schar_eq_uint8 in Hhit. exact Hhit.
Qed.

Lemma rfrs_feed_pass_sound bytes : forall p f seen st,
  trails pass p seen -> feed race (p, f) bytes = (st, None) ->
  trails pass (fst st) (seen ++ bytes).
Proof.
  induction bytes as [|b bytes IH]; intros p f seen st Ht Hf; cbn [feed] in Hf.
  - inversion Hf; subst. now rewrite app_nil_r.
  - destruct (race (p, f) b) as [[p1 f1] [code|]] eqn:Hb; [discriminate|].
    destruct (rfrs_body_pass_sound _ _ _ _ _ _ Ht Hb) as [[Hr _]|[_ Ht1]];
      [discriminate|].
    specialize (IH _ _ _ _ Ht1 Hf). now rewrite <- app_assoc in IH.
Qed.

(** With the pass token not completing, the next character of the fail token
    moves the fail cursor on, and the last one returns Failure. *)
Lemma rfrs_body_fail_hit p k seen :
  (k < length fail)%nat ->
  trails pass p seen ->
  (forall a, seen ++ [nth k fail zero] <> a ++ pass) ->
  exists p',
    race (p, N.of_nat k) (nth k fail zero)
    = ((p', N.of_nat (S k)),
       if (S k =? length fail)%nat then Some LITE_ESP8266_FAILURE else None)
    /\ trails pass p' (seen ++ [nth k fail zero]).
Proof.
  intros Hk Ht Hno.
  destruct (race (p, N.of_nat k) (nth k fail zero)) as [[p1 f1] r] eqn:Hb.
  destruct (rfrs_body_pass_sound _ _ _ _ _ _ Ht Hb) as [[_ [a Ha]]|[Hr Ht1]];
    [now apply Hno in Ha|].
  exists p1. split; [|exact Ht1].
  unfold rfrs_body in Hb.
  destruct (match_char _ p plen) as [p2 [|]]; [inversion Hb; congruence|].
  rewrite pgm_read_nth in Hb.
  pose proof fail_seven as Hseven. unfold seven_bit in Hseven.
  rewrite Forall_forall in Hseven.
  rewrite schar_seven_bit, uint8_eqb_refl in Hb by (apply Hseven, nth_In, Hk).
  rewrite (match_char_step fail fail_short) in Hb by lia.
  replace (N.of_nat k + 1) with (N.of_nat (S k)) in Hb by lia.
  destruct (N.of_nat (S k) =? flen) eqn:E.
  - apply N.eqb_eq, Nat2N.inj in E.
    rewrite (proj2 (Nat.eqb_eq _ _) E). inversion Hb; subst. reflexivity.
  - apply N.eqb_neq in E.
    destruct (S k =? length fail)%nat eqn:E'.
    + apply Nat.eqb_eq in E'. rewrite E' in E. contradiction.
    + inversion Hb; subst. reflexivity.
Qed.

Lemma rfrs_feed_fail_firstn p before :
  trails pass p before ->
  contains pass (before ++ fail) = false ->
  forall k, (k < length fail)%nat ->
  exists p',
    feed race (p, 0) (firstn k fail) = ((p', N.of_nat k), None)
    /\ trails pass p' (before ++ firstn k fail).
Proof.
  intros Ht Hno. induction k as [|k IH]; intros Hk.
  - exists p. cbn. rewrite app_nil_r. now split.
  - destruct IH as (p1 & Hf & Ht1); [lia|].
    destruct (rfrs_body_fail_hit p1 k _ ltac:(lia) Ht1) as (p2 & Hb & Ht2).
    + intros a Ha.
      assert (Hc : contains pass (before ++ fail) = true).
      { replace (before ++ fail) with (a ++ pass ++ skipn (S k) fail);
          [apply contains_intro|].
        rewrite app_assoc, <- Ha, <- !app_assoc. f_equal.
        rewrite app_assoc, <- firstn_succ_nth by lia.
        apply firstn_skipn. }
      congruence.
    + exists p2. rewrite firstn_succ_nth by lia.
      rewrite feed_app, Hf. cbn [feed]. rewrite Hb.
      destruct (S k =? length fail)%nat eqn:E;
        [apply Nat.eqb_eq in E; lia|].
      split; [reflexivity|]. now rewrite app_assoc.
Qed.

Lemma rfrs_feed_fail p before :
  fail <> [] ->
  trails pass p before ->
  contains pass (before ++ fail) = false ->
  exists p',
    feed race (p, 0) fail = ((p', flen), Some (LITE_ESP8266_FAILURE, [])).
Proof.
  intros Hne Ht Hno.
  assert (Hpos : (0 < length fail)%nat)
    by (destruct fail; [congruence|cbn; lia]).
  remember (pred (length fail)) as k eqn:Hk.
  assert (Hfail : fail = firstn k fail ++ [nth k fail zero]).
  { rewrite <- firstn_succ_nth by lia.
    replace (S k) with (length fail) by lia. now rewrite firstn_all. }
  destruct (rfrs_feed_fail_firstn p before Ht Hno k ltac:(lia))
    as (p1 & Hf & Ht1).
  destruct (rfrs_body_fail_hit p1 k _ ltac:(lia) Ht1) as (p2 & Hb & _).
  - intros a Ha.
    assert (Hc : contains pass (before ++ fail) = true).
    { rewrite Hfail, app_assoc, Ha.
      rewrite <- (app_nil_r (a ++ pass)), <- app_assoc.
      apply contains_intro. }
    congruence.
  - exists p2. rewrite Hfail at 3. rewrite feed_app, Hf. cbn [feed].
    rewrite Hb. replace (S k) with (length fail) by lia.
    rewrite Nat.eqb_refl. reflexivity.
Qed.
End Race.

(** * The two-token matcher: claims C6 and C10 *)

(** [read_for_responses] keeps the byte read in a [char], which is negative
    from 128 on and then differs from every [uint8_t] of the token: a token
    with such a character is never found. *)
Lemma read_for_responses_eight_bit :
  read_for_responses (chars "OK") [ascii_of_N 200] 1000
    (mkRadio 0 [Some (ascii_of_N 200)])
  = (LITE_ESP8266_TIMEOUT, mkRadio 1000 []).
Proof. vm_compute. reflexivity. Qed.




(** C10: when the byte read completes the pass token and the fail token at
    once, [read_for_responses] returns Success: the pass cursor is looked at
    first and the function returns before it looks at the fail cursor. *)
Theorem read_for_responses_tie :
  forall pass fail timeout_ms radio arrivals d b rest p f,
    rx radio = line_of (arrivals ++ [(d, b)]) ++ rest ->
    before_deadline (clock radio) timeout_ms
                    (clock radio + delay_of (arrivals ++ [(d, b)])) ->
    feed (rfrs_body pass fail (wrap8 (strlen_P pass)) (wrap8 (strlen_P fail)))
         (0, 0) (bytes_of arrivals) = ((p, f), None) ->
    completes pass p b = true ->
    completes fail f b = true ->
    read_for_responses pass fail timeout_ms radio
    = (LITE_ESP8266_SUCCESS,
       mkRadio (clock radio + delay_of (arrivals ++ [(d, b)])) rest).
Proof.
  intros pass fail timeout_ms radio arrivals d b rest p f
         Hrx Htime Hfeed Hpass _.
  unfold completes in Hpass.
  destruct (match_char _ p _) as [p' ret] eqn:Hm. cbn [snd] in Hpass.
  subst ret.
  assert (Hret : feed (rfrs_body pass fail (wrap8 (strlen_P pass))
                                 (wrap8 (strlen_P fail)))
                      (0, 0) (bytes_of (arrivals ++ [(d, b)]))
                 = ((p', f), Some (LITE_ESP8266_SUCCESS, []))).
  { unfold bytes_of in *. rewrite map_app, feed_app, Hfeed.
    cbn [map snd feed]. unfold rfrs_body. rewrite Hm. reflexivity. }
  unfold read_for_responses, millis.
  rewrite Hrx.
  erewrite poll_line_of_return;
    [reflexivity | apply wrap32_lt | exact Htime | exact Hret].
Qed.

Lemma read_for_responses_tie_witness :
  read_for_responses (chars "OK") (chars "K") 1000
    (mkRadio 0 (line_of ([(2%nat, "x"%char); (0%nat, "O"%char)] ++
                         [(4%nat, "K"%char)]) ++ [Some "z"%char]))
  = (LITE_ESP8266_SUCCESS, mkRadio 6 [Some "z"%char]).
Proof.
  apply (read_for_responses_tie (chars "OK") (chars "K") 1000
           (mkRadio 0 (line_of ([(2%nat, "x"%char); (0%nat, "O"%char)] ++
                                [(4%nat, "K"%char)]) ++ [Some "z"%char]))
           [(2%nat, "x"%char); (0%nat, "O"%char)] 4%nat "K"%char
           [Some "z"%char] 1 0).
  - reflexivity.
  - vm_compute. reflexivity.
  - vm_compute. reflexivity.
  - vm_compute. reflexivity.
  - vm_compute. reflexivity.
Defined.

(** * Facts about the memory *)

Lemma poke_nat_at_end (done tl : list ascii) c :
  poke_nat (length done) c (done ++ tl) = done ++ c :: skipn 1 tl.
Proof.
  induction done as [|x done IH]; cbn [length app poke_nat].
  - destruct tl; reflexivity.
  - now rewrite IH.
Qed.

Lemma nth_at_end (done tl : list ascii) c :
  nth (length done) (done ++ c :: tl) zero = c.
Proof. induction done as [|x done IH]; [reflexivity|exact IH]. Qed.

Lemma nth_poke_nat j c : forall mem i,
  nth i (poke_nat j c mem) zero = if (i =? j)%nat then c else nth i mem zero.
Proof.
  induction j as [|j IH]; intros mem i.
  - destruct mem, i as [|i]; cbn; try reflexivity; destruct i; reflexivity.
  - destruct mem as [|x mem], i as [|i]; cbn [poke_nat nth Nat.eqb];
      try reflexivity.
    + rewrite IH. destruct (i =? j)%nat; [reflexivity|]. now destruct i.
    + apply IH.
Qed.

Lemma peek_poke i j c mem :
  peek i (poke j c mem) = if i =? j then c else peek i mem.
Proof.
  unfold peek, poke. rewrite nth_poke_nat.
  destruct (i =? j) eqn:E.
  - apply N.eqb_eq in E. subst. now rewrite Nat.eqb_refl.
  - apply N.eqb_neq in E.
    destruct (N.to_nat i =? N.to_nat j)%nat eqn:E'; [|reflexivity].
    apply Nat.eqb_eq, N2Nat.inj in E'. contradiction.
Qed.

(** * Facts about the delimited-field reader *)

Section Reader.
Variable read_until : ascii.
Variable max_bytes : N.
Hypothesis max_two : 2 <= max_bytes.
Hypothesis max_uint16 : max_bytes < 65536.

Lemma csb_limit : sub16 max_bytes 1 = max_bytes - 1.
Proof. apply sub16_small; lia. Qed.

(** A byte that is not the terminator, with room left after it, is stored
    and counted. *)
Lemma csb_body_store done tl b :
  b <> read_until ->
  N.of_nat (length done) + 1 < max_bytes - 1 ->
  csb_body read_until max_bytes (done ++ tl, N.of_nat (length done)) b
  = ((done ++ b :: skipn 1 tl, N.of_nat (length (done ++ [b]))), None).
Proof.
  intros Hb Hroom. unfold csb_body, poke, peek.
  rewrite Nat2N.id, poke_nat_at_end, nth_at_end.
  destruct (Ascii.eqb b read_until) eqn:E;
    [apply Ascii.eqb_eq in E; contradiction|].
  rewrite csb_limit, wrap16_small by lia.
  destruct (max_bytes - 1 <=? N.of_nat (length done) + 1) eqn:E';
    [apply N.leb_le in E'; lia|].
  rewrite length_app. cbn [length]. do 2 f_equal. lia.
Qed.

(** The terminator is replaced by a NUL and ends the call. *)
Lemma csb_body_stop done tl :
  csb_body read_until max_bytes (done ++ tl, N.of_nat (length done)) read_until
  = ((done ++ zero :: skipn 1 tl, N.of_nat (length done)),
     Some LITE_ESP8266_SUCCESS).
Proof.
  unfold csb_body, poke, peek.
  rewrite Nat2N.id, poke_nat_at_end, nth_at_end, Ascii.eqb_refl.
  rewrite poke_nat_at_end. destruct tl; reflexivity.
Qed.

Lemma csb_feed_store bytes : forall done buffer,
  ~ In read_until bytes ->
  N.of_nat (length done + length bytes) < max_bytes - 1 ->
  feed (csb_body read_until max_bytes)
       (done ++ skipn (length done) buffer, N.of_nat (length done)) bytes
  = ((done ++ bytes ++ skipn (length done + length bytes) buffer,
      N.of_nat (length done + length bytes)), None).
Proof.
  induction bytes as [|b bytes IH]; intros done buffer Hno Hroom.
  - cbn [feed length app]. now rewrite Nat.add_0_r.
  - cbn [feed length] in *. rewrite csb_body_store.
    + rewrite skipn_skipn. specialize (IH (done ++ [b]) buffer).
      rewrite length_app in IH. cbn [length] in IH.
      replace (1 + length done)%nat with (length done + 1)%nat by lia.
      rewrite <- app_assoc in IH. cbn [app] in IH.
      rewrite length_app. cbn [length].
      rewrite IH by (try lia; intros Hin; apply Hno; now right).
      rewrite <- !app_assoc. cbn [app].
      replace (length done + 1 + length bytes)%nat
        with (length done + S (length bytes))%nat by lia.
      reflexivity.
    + intros ->. apply Hno. now left.
    + lia.
Qed.
End Reader.

Section PollingOutcome.
Context {St : Type}.
Variable body : St -> ascii -> St * option N.
Variable I : St -> Prop.
Variable P : N -> St -> Prop.
Hypothesis I_kept : forall s b s', I s -> body s b = (s', None) -> I s'.
Hypothesis P_return :
  forall s b s' code, I s -> body s b = (s', Some code) -> P code s'.
Hypothesis P_timeout : forall s, I s -> P LITE_ESP8266_TIMEOUT s.

(** What holds of the variables of the loop when the call ends. *)
Lemma poll_outcome deadline : forall line s now code s' radio',
  I s -> poll body deadline s now line = (code, s', radio') -> P code s'.
Proof.
  induction line as [|[b|] line IH]; intros s now code s' radio' Hs Hp;
    cbn [poll] in Hp; destruct (now <? deadline);
    try (inversion Hp; subst; now apply P_timeout).
  - destruct (body s b) as [s1 [code1|]] eqn:Hb.
    + inversion Hp; subst. exact (P_return _ _ _ _ Hs Hb).
    + exact (IH _ _ _ _ _ (I_kept _ _ _ Hs Hb) Hp).
  - exact (IH _ _ _ _ _ Hs Hp).
Qed.
End PollingOutcome.

(** With a capacity of two bytes or more, [copy_serial_to_buffer] leaves the
    memory from index [max_bytes] on as it was, and on Success and on
    LengthExceeded there is a NUL below index [max_bytes]. *)
Lemma copy_serial_to_buffer_in_bounds :
  forall buffer read_until max_bytes timeout_ms radio code buffer' radio',
    2 <= max_bytes -> max_bytes < 65536 ->
    copy_serial_to_buffer buffer read_until max_bytes timeout_ms radio
    = (code, buffer', radio') ->
    (forall i, max_bytes <= i -> peek i buffer' = peek i buffer)
    /\ (code = LITE_ESP8266_SUCCESS \/ code = LITE_ESP8266_LENGTH_EXCEEDED ->
        exists i, i < max_bytes /\ peek i buffer' = zero).
Proof.
  intros buffer read_until max_bytes timeout_ms radio code buffer' radio'
         Htwo H16 Hcall.
  unfold copy_serial_to_buffer in Hcall.
  destruct (poll _ _ _ _ _) as [[code0 vars] radio0] eqn:Hp.
  inversion Hcall; subst code0 buffer' radio0. clear Hcall.
  pose (I := fun vars : list ascii * N =>
               snd vars < max_bytes - 1 /\
               forall i, max_bytes <= i -> peek i (fst vars) = peek i buffer).
  pose (P := fun (code : N) (vars : list ascii * N) =>
               (forall i, max_bytes <= i -> peek i (fst vars) = peek i buffer)
               /\ (code = LITE_ESP8266_SUCCESS
                   \/ code = LITE_ESP8266_LENGTH_EXCEEDED ->
                   exists i, i < max_bytes /\ peek i (fst vars) = zero)).
  apply (poll_outcome (csb_body read_until max_bytes) I P) in Hp;
    subst I P; cbn beta in *; [exact Hp | | | |].
  - (* the loop goes on *)
    intros [mem k] b s' [Hk Hout] Hb. cbn [fst snd] in *.
    unfold csb_body in Hb.
    destruct (Ascii.eqb _ read_until); [discriminate|].
    rewrite csb_limit, wrap16_small in Hb by lia.
    destruct (max_bytes - 1 <=? k + 1) eqn:E; [discriminate|].
    apply N.leb_gt in E. inversion Hb; subst s'. cbn [fst snd]. split; [lia|].
    intros i Hi. rewrite peek_poke.
    destruct (i =? k) eqn:Ei; [apply N.eqb_eq in Ei; lia|]. now apply Hout.
  - (* the block returns *)
    intros [mem k] b s' code1 [Hk Hout] Hb. cbn [fst snd] in *.
    unfold csb_body in Hb.
    destruct (Ascii.eqb _ read_until).
    + inversion Hb; subst s' code1. cbn [fst]. split.
      * intros i Hi. rewrite !peek_poke.
        destruct (i =? k) eqn:Ei; [apply N.eqb_eq in Ei; lia|]. now apply Hout.
      * intros _. exists k. split; [lia|].
        rewrite peek_poke, N.eqb_refl. reflexivity.
    + rewrite csb_limit, wrap16_small in Hb by lia.
      destruct (max_bytes - 1 <=? k + 1) eqn:E; [|discriminate].
      inversion Hb; subst s' code1. cbn [fst]. split.
      * intros i Hi. rewrite !peek_poke.
        destruct (i =? k + 1) eqn:Ei; [apply N.eqb_eq in Ei; lia|].
        destruct (i =? k) eqn:Ei'; [apply N.eqb_eq in Ei'; lia|].
        now apply Hout.
      * intros _. exists (k + 1). split; [lia|].
        rewrite peek_poke, N.eqb_refl. reflexivity.
  - (* the deadline passes *)
    intros [mem k] [Hk Hout]. split; [exact Hout|].
    intros [H|H]; discriminate.
  - split; cbn [fst snd]; [lia|reflexivity].
Qed.

(** * The delimited-field reader: claims C8 and C3 *)

(** A field that fits the buffer and whose terminator arrives before the
    deadline is captured. *)
Lemma copy_serial_to_buffer_field :
  forall buffer read_until max_bytes timeout_ms radio arrivals d rest,
    2 <= max_bytes -> max_bytes < 65536 ->
    rx radio = line_of (arrivals ++ [(d, read_until)]) ++ rest ->
    ~ In read_until (bytes_of arrivals) ->
    N.of_nat (length arrivals) < max_bytes - 1 ->
    before_deadline (clock radio) timeout_ms
      (clock radio + delay_of (arrivals ++ [(d, read_until)])) ->
    copy_serial_to_buffer buffer read_until max_bytes timeout_ms radio
    = (LITE_ESP8266_SUCCESS,
       bytes_of arrivals ++ zero :: skipn (S (length arrivals)) buffer,
       mkRadio (clock radio + delay_of (arrivals ++ [(d, read_until)])) rest).
Proof.
  intros buffer read_until max_bytes timeout_ms radio arrivals d rest
         Htwo H16 Hrx Hno Hk Htime.
  assert (Hlen : length (bytes_of arrivals) = length arrivals)
    by apply length_map.
  assert (Hfeed :
    feed (csb_body read_until max_bytes) (buffer, 0)
         (bytes_of (arrivals ++ [(d, read_until)]))
    = ((bytes_of arrivals ++ zero :: skipn (S (length arrivals)) buffer,
        N.of_nat (length arrivals)),
       Some (LITE_ESP8266_SUCCESS, []))).
  { unfold bytes_of at 1. rewrite map_app. fold (bytes_of arrivals).
    rewrite feed_app.
    pose proof (csb_feed_store read_until max_bytes Htwo H16
                  (bytes_of arrivals) [] buffer Hno) as Hstore.
    cbn [length app skipn Nat.add N.of_nat] in Hstore.
    rewrite Hstore by lia. cbn [map snd feed].
    rewrite csb_body_stop, skipn_skipn, Hlen. reflexivity. }
  unfold copy_serial_to_buffer, millis.
  rewrite Hrx.
  rewrite (poll_line_of_return _ _ _ _ _ _ (clock radio) rest
             (wrap32_lt _) Htime Hfeed).
  reflexivity.
Qed.



(** C3 at capacities 1 and 0.  With [max_bytes = 1] and a first byte that is
    not the terminator, the byte is stored at index 0 and the NUL at index
    1, outside the buffer (the byte "!" that followed the buffer is lost),
    and nothing within the buffer terminates the string.  With
    [max_bytes = 0] the limit [max_bytes - 1] wraps to 65535 and every byte
    up to the terminator is stored. *)
Theorem copy_serial_to_buffer_overruns_small_buffer :
  copy_serial_to_buffer (chars "?!") ":"%char 1 1000 (at_once 0 "x")
  = (LITE_ESP8266_LENGTH_EXCEEDED, ["x"%char; zero], mkRadio 0 [])
  /\ copy_serial_to_buffer (chars "!!!") ":"%char 0 1000 (at_once 0 "ab:")
     = (LITE_ESP8266_SUCCESS, ["a"%char; "b"%char; zero], mkRadio 0 []).
Proof. split; vm_compute; reflexivity. Qed.

(** * Facts about the packet extractor *)

Lemma wait_for_byte_silence deadline now d b line :
  deadline < 4294967296 -> now + N.of_nat d <= deadline ->
  wait_for_byte deadline now (repeat None d ++ Some b :: line)
  = mkRadio (now + N.of_nat d) (Some b :: line).
Proof.
  intros Hd. revert now. induction d as [|d IH]; intros now Hnow.
  - cbn. f_equal. lia.
  - cbn [repeat app wait_for_byte].
    destruct (now <? deadline) eqn:E; [|apply N.ltb_ge in E; lia].
    rewrite wrap32_small by lia. rewrite IH by lia. f_equal. lia.
Qed.

(** One turn of the copy loop on a byte that arrives in time: the byte is
    stored when its index is below [allocated - 1], and dropped otherwise. *)
Lemma copy_payload_step idle_turns remaining i deadline allocated mem now d b
    line :
  deadline < 4294967296 -> now + N.of_nat d <= deadline -> i + 1 < 65536 ->
  copy_payload idle_turns (S remaining) i deadline allocated mem
               (mkRadio now (repeat None d ++ Some b :: line))
  = copy_payload idle_turns remaining (i + 1) deadline allocated
                 (if i <? sub16 allocated 1 then poke i b mem else mem)
                 (mkRadio (now + N.of_nat d) line).
Proof.
  intros Hd Hnow Hi. cbn [copy_payload clock rx].
  rewrite wait_for_byte_silence by assumption.
  unfold millis, available. cbn [clock rx read negb andb].
  destruct (deadline <? now + N.of_nat d) eqn:E; [apply N.ltb_lt in E; lia|].
  rewrite char_of_uint8, wrap16_small by lia.
  destruct (i <? sub16 allocated 1); reflexivity.
Qed.

(** The copy loop on a line that has nothing more to bring, past the last
    index that is stored: the turns run at the deadline, as many as the
    processor completes before the clock moves, and store nothing. *)
Lemma copy_payload_silent deadline allocated :
  forall remaining idle_turns i mem now,
    deadline + 1 < 4294967296 -> now <= deadline ->
    sub16 allocated 1 <= i -> i + N.of_nat remaining < 65536 ->
    copy_payload idle_turns remaining i deadline allocated mem
                 (mkRadio now [])
    = (mem,
       mkRadio (if (idle_turns <? remaining)%nat then deadline + 1
                else match remaining with
                     | O => now
                     | S _ => deadline
                     end) []).
Proof.
  induction remaining as [|remaining IH];
    intros idle_turns i mem now Hd Hnow Hi Hr.
  - reflexivity.
  - cbn [copy_payload clock rx wait_for_byte].
    assert (Hw : (if now <? deadline then mkRadio deadline []
                  else mkRadio now []) = mkRadio deadline []).
    { destruct (now <? deadline) eqn:E; [reflexivity|].
      apply N.ltb_ge in E. f_equal. lia. }
    rewrite Hw. unfold available, millis. cbn [rx clock negb andb].
    rewrite N.eqb_refl.
    destruct idle_turns as [|idle_turns].
    + unfold tick. cbn [clock rx]. rewrite wrap32_small by lia.
      assert (E : (deadline <? deadline + 1) = true) by (apply N.ltb_lt; lia).
      rewrite E. reflexivity.
    + cbn [clock]. rewrite N.ltb_irrefl. unfold read. cbn [rx].
      assert (E : (i <? sub16 allocated 1) = false) by (apply N.ltb_ge; lia).
      rewrite E, wrap16_small by lia.
      rewrite IH by lia.
      change (S idle_turns <? S remaining)%nat
        with (idle_turns <? remaining)%nat.
      destruct remaining as [|remaining]; reflexivity.
Qed.

Lemma allocation_size_room max_allocate_bytes data_length :
  1 <= max_allocate_bytes -> max_allocate_bytes < 65536 ->
  1 <= allocation_size max_allocate_bytes data_length
  /\ (data_length < max_allocate_bytes ->
      allocation_size max_allocate_bytes data_length = data_length + 1).
Proof.
  intros H1 H16. unfold allocation_size.
  destruct (data_length <? max_allocate_bytes) eqn:E.
  - apply N.ltb_lt in E. rewrite wrap16_small by lia. split; [lia|reflexivity].
  - apply N.ltb_ge in E. split; [lia|]. lia.
Qed.


(** * The packet extractor: claims C5, C4 and C1 *)




(** C4 at [max_allocate_bytes = 0]: the size is that of the [else] branch,
    0, not 1 or more; the bound [bytes_allocated - 1] of the copy loop then
    wraps to 65535 and the five payload bytes are stored in the region of
    size 0. *)
Theorem get_response_packet_zero_ceiling :
  allocation_size 0 5 = 0
  /\ forall idle_turns,
       get_response_packet (chars "?????") idle_turns 0 5000
         (at_once 0 "+IPD,5:helloXY")
       = (Some (mkPacket 0 (chars "hello")), at_once 0 "XY").
Proof. split; [|intros idle_turns]; vm_compute; reflexivity. Qed.

(** C1 on a length field that does not fit its buffer.  In
    [get_response_packet] the length "12345" overflows the five-byte buffer:
    [copy_serial_to_buffer] returns LengthExceeded after "1234", but the
    code is not looked at and the function returns a region filled as for a
    payload of 1234 bytes that begins with "5:"; the payload stops short, so
    the copy loop runs on to its deadline, and past it by a millisecond
    unless the processor completes the 1227 turns that are left while the
    clock reads the deadline.  In [get_http_response] the
    sixteen digits of the length overflow the sixteen-byte buffer in the same
    way and a region is returned for a length of 0. *)
Theorem packet_returned_after_failed_capture :
  fst (fst (copy_serial_to_buffer [] ":"%char 5 COMMAND_RESPONSE_TIMEOUT
                                  (at_once 0 "12345:hello")))
  = LITE_ESP8266_LENGTH_EXCEEDED
  /\ (forall idle_turns,
        get_response_packet [] idle_turns 8 5000
                            (at_once 0 "+IPD,12345:hello")
        = (Some (mkPacket 8 (chars "5:hello" ++ [zero])),
           mkRadio (if (idle_turns <? 1227)%nat then 5001 else 5000) []))
  /\ fst (fst (copy_serial_to_buffer [] CR 16 COMMAND_RESPONSE_TIMEOUT
                 (mkRadio 0 (line_of (ready (chars "0000000000000002"
                                             ++ [CR; LF]))))))
     = LITE_ESP8266_LENGTH_EXCEEDED
  /\ (forall idle_turns,
        get_http_response [] idle_turns 8 5000
          (mkRadio 0 (line_of (ready (chars "Content-Length: 0000000000000002"
                                      ++ [CR; LF] ++ chars "Connection: close"
                                      ++ [CR; LF; CR; LF] ++ chars "hi"))))
        = (Some (mkPacket 1 [zero]), at_once 0 "hi")).
Proof.
  split; [vm_compute; reflexivity|].
  split; [|split; [vm_compute; reflexivity
                  |intros idle_turns; vm_compute; reflexivity]].
  intros idle_turns. unfold get_response_packet.
  assert (Hmarker :
    read_for_response ESP8266_DATA_PACKET CLIENT_CONNECT_TIMEOUT
                      (at_once 0 "+IPD,12345:hello")
    = (LITE_ESP8266_SUCCESS, at_once 0 "12345:hello"))
    by (vm_compute; reflexivity).
  rewrite Hmarker. cbn [N.eqb LITE_ESP8266_SUCCESS Pos.eqb].
  assert (Hfield :
    copy_serial_to_buffer [] ":"%char 5 COMMAND_RESPONSE_TIMEOUT
                          (at_once 0 "12345:hello")
    = (LITE_ESP8266_LENGTH_EXCEEDED, chars "1234" ++ [zero],
       at_once 0 "5:hello"))
    by (vm_compute; reflexivity).
  rewrite Hfield.
  assert (Hlength : parse_length (chars "1234" ++ [zero]) = 1234)
    by (vm_compute; reflexivity).
  rewrite Hlength. unfold receive_payload.
  change (allocation_size 8 1234) with 8.
  change (wrap32 (millis (at_once 0 "+IPD,12345:hello") + 5000)) with 5000.
  change (N.to_nat 1234) with (7 + 1227)%nat.
  change (at_once 0 "5:hello")
    with (mkRadio 0 (repeat None 0 ++ Some "5"%char
                     :: repeat None 0 ++ Some ":"%char
                     :: repeat None 0 ++ Some "h"%char
                     :: repeat None 0 ++ Some "e"%char
                     :: repeat None 0 ++ Some "l"%char
                     :: repeat None 0 ++ Some "l"%char
                     :: repeat None 0 ++ Some "o"%char :: [])).
  cbn [Nat.add].
  do 7 (rewrite copy_payload_step by (cbn; lia)).
  rewrite copy_payload_silent by (cbn; lia).
  reflexivity.
Qed.

(** * More facts about the polling loop *)

Lemma heard_app a b : heard (a ++ b) = heard a ++ heard b.
Proof.
  induction a as [|[x|] a IH]; cbn [app heard]; [reflexivity| |exact IH].
  now rewrite IH.
Qed.

Lemma heard_silence d : heard (repeat None d) = [].
Proof. induction d as [|d IH]; [reflexivity|exact IH]. Qed.

Lemma heard_line_of arrivals : heard (line_of arrivals) = bytes_of arrivals.
Proof.
  induction arrivals as [|[d b] arrivals IH]; [reflexivity|].
  cbn [line_of bytes_of map snd]. rewrite heard_app, heard_silence.
  cbn [app heard]. now rewrite IH.
Qed.

Section PollingExit.
Context {St : Type}.
Variable body : St -> ascii -> St * option N.

(** A call ends either in its block, before the deadline, or with Timeout
    once the clock has reached the deadline. *)
Lemma poll_exit deadline : forall line s now code s' radio',
  poll body deadline s now line = (code, s', radio') ->
  (clock radio' < deadline /\ exists s0 b, body s0 b = (s', Some code))
  \/ (code = LITE_ESP8266_TIMEOUT /\ deadline <= clock radio').
Proof.
  induction line as [|[b|] line IH]; intros s now code s' radio' H;
    cbn [poll] in H; destruct (now <? deadline) eqn:E;
    try (inversion H; subst; right; split; [reflexivity|]; cbn [clock];
         try apply N.ltb_ge in E; lia).
  - apply N.ltb_lt in E. destruct (body s b) as [s1 [code1|]] eqn:Hb.
    + inversion H; subst. left. split; [exact E|]. now exists s, b.
    + exact (IH _ _ _ _ _ H).
  - exact (IH _ _ _ _ _ H).
Qed.

(** What is left of the line is an end of the line. *)
Lemma poll_rest deadline : forall line s now code s' radio',
  poll body deadline s now line = (code, s', radio') ->
  exists used, line = used ++ rx radio'.
Proof.
  induction line as [|[b|] line IH]; intros s now code s' radio' H;
    cbn [poll] in H; destruct (now <? deadline);
    try (inversion H; subst; now exists []).
  - destruct (body s b) as [s1 [code1|]].
    + inversion H; subst. now exists [Some b].
    + destruct (IH _ _ _ _ _ H) as [used ->]. now exists (Some b :: used).
  - destruct (IH _ _ _ _ _ H) as [used ->]. now exists (None :: used).
Qed.
End PollingExit.

(** * The response matcher: further properties *)

(** The matcher's block returns Success and nothing else. *)
Lemma rfr_body_code tok len m b m' code :
  rfr_body tok len m b = (m', Some code) -> code = LITE_ESP8266_SUCCESS.
Proof.
  unfold rfr_body. destruct (match_char _ m len) as [m1 [|]]; intros H;
    inversion H; reflexivity.
Qed.

(** What a successful search has read ends with the token. *)
Lemma read_for_response_success_reads_token tok timeout_ms radio radio' :
  tok <> [] -> cstring tok -> (length tok <= 255)%nat ->
  read_for_response tok timeout_ms radio = (LITE_ESP8266_SUCCESS, radio') ->
  exists arrivals before,
    rx radio = line_of arrivals ++ rx radio'
    /\ bytes_of arrivals = before ++ tok.
Proof.
  intros Hne Hc Hs Hcall. unfold read_for_response in Hcall.
  destruct (poll _ _ _ _ _) as [[code m] radio0] eqn:Hp.
  inversion Hcall; subst code radio0. clear Hcall.
  rewrite response_length_short in Hp by assumption.
  destruct (poll_consumed _ _ _ _ _ _ _ _ Hp)
    as (arrivals & tail & Hl & [[Hf Hrx]|[_ Ht]]); [|discriminate].
  pose proof (rfr_feed_sound tok Hs _ _ [] _ _
                (trails_start tok Hc Hs Hne) Hf)
    as (_ & _ & a & used & Hu & Ha).
  rewrite app_nil_r in Hu. cbn [app] in Ha.
  exists arrivals, a. split; congruence.
Qed.

(** X1: when [read_for_response], called with a token of 1 to 255
    characters, returns Success, the bytes it has read end with the token,
    and the line is left right after them: Success is never reported for a
    token that did not arrive. *)
Theorem read_for_response_sound :
  forall tok timeout_ms radio radio',
    tok <> [] -> cstring tok -> (length tok <= 255)%nat ->
    read_for_response tok timeout_ms radio = (LITE_ESP8266_SUCCESS, radio') ->
    exists arrivals before,
      rx radio = line_of arrivals ++ rx radio'
      /\ bytes_of arrivals = before ++ tok.
Proof. exact read_for_response_success_reads_token. Qed.

Lemma read_for_response_sound_witness :
  exists arrivals before,
    rx (at_once 0 "xOKz") = line_of arrivals ++ [Some "z"%char]
    /\ bytes_of arrivals = before ++ chars "OK".
Proof.
  apply (read_for_response_sound (chars "OK") 1000 (at_once 0 "xOKz")
           (mkRadio 0 [Some "z"%char])).
  - discriminate.
  - repeat constructor; discriminate.
  - simpl. lia.
  - vm_compute. reflexivity.
Defined.

(** The matcher answers Success or Timeout: Success before the deadline,
    Timeout once the clock has reached it. *)
Lemma read_for_response_exit tok timeout_ms radio :
  let '(code, radio') := read_for_response tok timeout_ms radio in
  (code = LITE_ESP8266_SUCCESS
   /\ before_deadline (clock radio) timeout_ms (clock radio'))
  \/ (code = LITE_ESP8266_TIMEOUT
      /\ ~ before_deadline (clock radio) timeout_ms (clock radio')).
Proof.
  unfold read_for_response, before_deadline, millis.
  destruct (poll _ _ _ _ _) as [[code m] radio'] eqn:Hp.
  destruct (poll_exit _ _ _ _ _ _ _ _ Hp) as [[Hlt (s0 & b & Hb)]|[Hc Hge]].
  - left. split; [exact (rfr_body_code _ _ _ _ _ _ Hb)|exact Hlt].
  - right. split; [exact Hc|lia].
Qed.

(** X2: [read_for_response] returns Success or Timeout and nothing else;
    Success is returned while the clock is below the deadline, and Timeout
    only once the clock has reached the deadline (the search is never given
    up early). *)
Theorem read_for_response_deadline :
  forall tok timeout_ms radio,
    (fst (read_for_response tok timeout_ms radio) = LITE_ESP8266_SUCCESS
     /\ before_deadline (clock radio) timeout_ms
          (clock (snd (read_for_response tok timeout_ms radio))))
    \/ (fst (read_for_response tok timeout_ms radio) = LITE_ESP8266_TIMEOUT
        /\ ~ before_deadline (clock radio) timeout_ms
               (clock (snd (read_for_response tok timeout_ms radio)))).
Proof.
  intros tok timeout_ms radio.
  pose proof (read_for_response_exit tok timeout_ms radio) as H.
  destruct (read_for_response tok timeout_ms radio) as [code radio'].
  exact H.
Qed.

(** A token that is not on the line is not found. *)
Lemma read_for_response_absent tok timeout_ms radio :
  tok <> [] -> cstring tok -> (length tok <= 255)%nat ->
  contains tok (heard (rx radio)) = false ->
  fst (read_for_response tok timeout_ms radio) = LITE_ESP8266_TIMEOUT.
Proof.
  intros Hne Hc Hs Hno.
  pose proof (read_for_response_exit tok timeout_ms radio) as H.
  destruct (read_for_response tok timeout_ms radio) as [code radio'] eqn:Hcall.
  destruct H as [[-> _]|[-> _]]; [|reflexivity].
  destruct (read_for_response_success_reads_token _ _ _ _ Hne Hc Hs Hcall)
    as (arrivals & before & Hrx & Hb).
  rewrite Hrx, heard_app, heard_line_of, Hb, <- app_assoc in Hno.
  rewrite contains_intro in Hno. discriminate.
Qed.

(** X3: when the token (1 to 255 characters) is not a contiguous run of the
    bytes that the line brings, [read_for_response] returns Timeout. *)
Theorem read_for_response_absent_token :
  forall tok timeout_ms radio,
    tok <> [] -> cstring tok -> (length tok <= 255)%nat ->
    contains tok (heard (rx radio)) = false ->
    fst (read_for_response tok timeout_ms radio) = LITE_ESP8266_TIMEOUT.
Proof. exact read_for_response_absent. Qed.

Lemma read_for_response_absent_token_witness :
  fst (read_for_response (chars "OK") 1000 (at_once 3 "KOxK"))
  = LITE_ESP8266_TIMEOUT.
Proof.
  apply (read_for_response_absent_token (chars "OK") 1000 (at_once 3 "KOxK")).
  - discriminate.
  - repeat constructor; discriminate.
  - simpl. lia.
  - reflexivity.
Defined.

(** * The two-token matcher: further properties *)

Section RaceSound.
Variables pass fail : list ascii.
Hypothesis pass_short : (length pass <= 255)%nat.
Hypothesis fail_short : (length fail <= 255)%nat.

Local Abbreviation plen := (N.of_nat (length pass)).
Local Abbreviation flen := (N.of_nat (length fail)).
Local Abbreviation race := (rfrs_body pass fail plen flen).

(** Both cursors keep their meaning over one byte, and a return means that
    the token of the code returned has just been read. *)
Lemma rfrs_body_sound p f seen b st r :
  trails pass p seen -> trails fail f seen -> race (p, f) b = (st, r) ->
  match r with
  | None => trails pass (fst st) (seen ++ [b])
            /\ trails fail (snd st) (seen ++ [b])
  | Some code =>
      (code = LITE_ESP8266_SUCCESS /\ exists a, seen ++ [b] = a ++ pass)
      \/ (code = LITE_ESP8266_FAILURE /\ exists a, seen ++ [b] = a ++ fail)
  end.
Proof.
  intros Hp Hf Hb. unfold rfrs_body in Hb.
  destruct (match_char _ p plen) as [p1 retp] eqn:Ep.
  apply (match_char_sound pass pass_short _ _ seen b) in Ep;
    [|exact Hp|intros Hhit; apply Z.eqb_eq, schar_eq_uint8 in Hhit;
               exact Hhit].
  destruct retp.
  - inversion Hb; subst. left. split; [reflexivity|apply Ep].
  - destruct (match_char _ f flen) as [f1 retf] eqn:Ef.
    apply (match_char_sound fail fail_short _ _ seen b) in Ef;
      [|exact Hf|intros Hhit; apply Z.eqb_eq, schar_eq_uint8 in Hhit;
                 exact Hhit].
    destruct retf; inversion Hb; subst; cbn [fst snd].
    + right. split; [reflexivity|apply Ef].
    + split; assumption.
Qed.

Lemma rfrs_feed_sound bytes : forall p f seen st r,
  trails pass p seen -> trails fail f seen ->
  feed race (p, f) bytes = (st, r) ->
  match r with
  | None => trails pass (fst st) (seen ++ bytes)
            /\ trails fail (snd st) (seen ++ bytes)
  | Some (code, rest) =>
      exists a used,
        bytes = used ++ rest
        /\ ((code = LITE_ESP8266_SUCCESS /\ seen ++ used = a ++ pass)
            \/ (code = LITE_ESP8266_FAILURE /\ seen ++ used = a ++ fail))
  end.
Proof.
  induction bytes as [|b bytes IH]; intros p f seen st r Hp Hf Hfeed;
    cbn [feed] in Hfeed.
  - inversion Hfeed; subst. rewrite app_nil_r. now split.
  - destruct (race (p, f) b) as [[p1 f1] [code|]] eqn:Hb.
    + inversion Hfeed; subst.
      pose proof (rfrs_body_sound _ _ _ _ _ _ Hp Hf Hb) as Hs. cbn in Hs.
      destruct Hs as [[Hc [a Ha]]|[Hc [a Ha]]]; exists a, [b];
        (split; [reflexivity|]); [left|right]; now split.
    + pose proof (rfrs_body_sound _ _ _ _ _ _ Hp Hf Hb) as [Hp1 Hf1].
      cbn [fst snd] in Hp1, Hf1.
      specialize (IH _ _ _ _ _ Hp1 Hf1 Hfeed).
      destruct r as [[code rest]|].
      * destruct IH as (a & used & Hu & Hcase).
        exists a, (b :: used). split; [cbn; now rewrite Hu|].
        rewrite <- app_assoc in Hcase. exact Hcase.
      * now rewrite <- app_assoc in IH.
Qed.
End RaceSound.

(** What a call of [read_for_responses] that found a token has read. *)
Lemma read_for_responses_found pass fail timeout_ms radio code radio' :
  pass <> [] -> fail <> [] -> cstring pass -> cstring fail ->
  (length pass <= 255)%nat -> (length fail <= 255)%nat ->
  read_for_responses pass fail timeout_ms radio = (code, radio') ->
  code = LITE_ESP8266_TIMEOUT
  \/ exists arrivals before,
       rx radio = line_of arrivals ++ rx radio'
       /\ ((code = LITE_ESP8266_SUCCESS /\ bytes_of arrivals = before ++ pass)
           \/ (code = LITE_ESP8266_FAILURE
               /\ bytes_of arrivals = before ++ fail)).
Proof.
  intros Hpne Hfne Hpc Hfc Hps Hfs Hcall. unfold read_for_responses in Hcall.
  destruct (poll _ _ _ _ _) as [[code0 st] radio0] eqn:Hp.
  inversion Hcall; subst code0 radio0. clear Hcall.
  rewrite (response_length_short pass), (response_length_short fail) in Hp
    by assumption.
  destruct (poll_consumed _ _ _ _ _ _ _ _ Hp)
    as (arrivals & tail & Hl & [[Hf Hrx]|[_ Ht]]); [|now left].
  right.
  pose proof (rfrs_feed_sound pass fail Hps Hfs _ 0 0 [] _ _
                (trails_start pass Hpc Hps Hpne)
                (trails_start fail Hfc Hfs Hfne) Hf)
    as (a & used & Hu & Hcase).
  rewrite app_nil_r in Hu. cbn [app] in Hcase. subst used tail.
  exists arrivals, a. split; [exact Hl|exact Hcase].
Qed.

(** X4: for pass and fail tokens of 1 to 255 characters,
    [read_for_responses] returns Success only when the bytes it has read end
    with the pass token, Failure only when they end with the fail token, and
    Timeout otherwise; the line is left right after the bytes read. *)
Theorem read_for_responses_sound :
  forall pass fail timeout_ms radio code radio',
    pass <> [] -> fail <> [] -> cstring pass -> cstring fail ->
    (length pass <= 255)%nat -> (length fail <= 255)%nat ->
    read_for_responses pass fail timeout_ms radio = (code, radio') ->
    code = LITE_ESP8266_TIMEOUT
    \/ exists arrivals before,
         rx radio = line_of arrivals ++ rx radio'
         /\ ((code = LITE_ESP8266_SUCCESS
              /\ bytes_of arrivals = before ++ pass)
             \/ (code = LITE_ESP8266_FAILURE
                 /\ bytes_of arrivals = before ++ fail)).
Proof. exact read_for_responses_found. Qed.

Lemma read_for_responses_sound_witness :
  LITE_ESP8266_FAILURE = LITE_ESP8266_TIMEOUT
  \/ exists arrivals before,
       rx (at_once 0 "xERRORyOK")
       = line_of arrivals ++ line_of (ready (chars "yOK"))
       /\ ((LITE_ESP8266_FAILURE = LITE_ESP8266_SUCCESS
            /\ bytes_of arrivals = before ++ chars "OK")
           \/ (LITE_ESP8266_FAILURE = LITE_ESP8266_FAILURE
               /\ bytes_of arrivals = before ++ chars "ERROR")).
Proof.
  apply (read_for_responses_sound (chars "OK") (chars "ERROR") 1000
           (at_once 0 "xERRORyOK") LITE_ESP8266_FAILURE
           (mkRadio 0 (line_of (ready (chars "yOK"))))).
  - discriminate.
  - discriminate.
  - repeat constructor; discriminate.
  - repeat constructor; discriminate.
  - simpl. lia.
  - simpl. lia.
  - vm_compute. reflexivity.
Defined.

Section RacePass.
Variables pass fail : list ascii.
Hypothesis pass_short : (length pass <= 255)%nat.
Hypothesis fail_short : (length fail <= 255)%nat.
Hypothesis pass_seven : seven_bit pass.

Local Abbreviation plen := (N.of_nat (length pass)).
Local Abbreviation flen := (N.of_nat (length fail)).
Local Abbreviation race := (rfrs_body pass fail plen flen).

(** The pass block on the next character of the pass token. *)
Lemma rfrs_pass_block k :
  (k < length pass)%nat ->
  match_char (schar (nth k pass zero)
              =? uint8 (pgm_read_byte_near pass (N.of_nat k)))%Z
             (N.of_nat k) plen
  = (N.of_nat (S k), (S k =? length pass)%nat).
Proof.
  intros Hk. rewrite pgm_read_nth.
  pose proof pass_seven as Hseven. unfold seven_bit in Hseven.
  rewrite Forall_forall in Hseven.
  rewrite schar_seven_bit, uint8_eqb_refl by (apply Hseven, nth_In, Hk).
  rewrite (match_char_step pass pass_short) by lia.
  replace (N.of_nat k + 1) with (N.of_nat (S k)) by lia. f_equal.
  destruct (S k =? length pass)%nat eqn:E.
  - apply Nat.eqb_eq in E. rewrite E. apply N.eqb_refl.
  - apply Nat.eqb_neq in E. apply N.eqb_neq. lia.
Qed.

(** The last character of the pass token returns Success, whatever the fail
    cursor. *)
Lemma rfrs_body_pass_last k f :
  S k = length pass ->
  race (N.of_nat k, f) (nth k pass zero)
  = ((N.of_nat (S k), f), Some LITE_ESP8266_SUCCESS).
Proof.
  intros Hk. unfold rfrs_body. rewrite rfrs_pass_block by lia.
  rewrite (proj2 (Nat.eqb_eq _ _) Hk). reflexivity.
Qed.

(** An earlier character of the pass token moves the pass cursor on, as long
    as the fail token does not complete on it. *)
Lemma rfrs_body_pass_hit k f seen :
  (S k < length pass)%nat ->
  trails fail f seen ->
  (forall a, seen ++ [nth k pass zero] <> a ++ fail) ->
  exists f',
    race (N.of_nat k, f) (nth k pass zero) = ((N.of_nat (S k), f'), None)
    /\ trails fail f' (seen ++ [nth k pass zero]).
Proof.
  intros Hk Ht Hno. unfold rfrs_body. rewrite rfrs_pass_block by lia.
  destruct (S k =? length pass)%nat eqn:E; [apply Nat.eqb_eq in E; lia|].
  destruct (match_char _ f flen) as [f1 ret] eqn:Ef.
  apply (match_char_sound fail fail_short _ _ seen (nth k pass zero)) in Ef;
    [|exact Ht|intros Hhit; apply Z.eqb_eq, schar_eq_uint8 in Hhit;
               exact Hhit].
  destruct ret.
  - destruct Ef as [_ [a Ha]]. now apply Hno in Ha.
  - exists f1. now split.
Qed.

Lemma rfrs_feed_pass_firstn f before :
  trails fail f before ->
  contains fail (before ++ removelast pass) = false ->
  forall k, (k < length pass)%nat ->
  exists f',
    feed race (0, f) (firstn k pass) = ((N.of_nat k, f'), None)
    /\ trails fail f' (before ++ firstn k pass).
Proof.
  intros Ht Hno. induction k as [|k IH]; intros Hk.
  - exists f. cbn. rewrite app_nil_r. now split.
  - destruct IH as (f1 & Hf & Ht1); [lia|].
    destruct (rfrs_body_pass_hit k f1 _ Hk Ht1) as (f2 & Hb & Ht2).
    + intros a Ha.
      assert (Hc : contains fail (before ++ removelast pass) = true).
      { replace (before ++ removelast pass)
          with (a ++ fail ++ skipn (S k) (removelast pass));
          [apply contains_intro|].
        rewrite app_assoc, <- Ha, <- !app_assoc. f_equal.
        rewrite app_assoc, <- firstn_succ_nth by lia.
        rewrite <- (firstn_skipn (S k) (removelast pass)) at 2. f_equal.
        rewrite removelast_firstn_len, firstn_firstn. f_equal. lia. }
      congruence.
    + exists f2. rewrite firstn_succ_nth by lia.
      rewrite feed_app, Hf. cbn [feed]. rewrite Hb.
      split; [reflexivity|]. now rewrite app_assoc.
Qed.

Lemma rfrs_feed_pass f before :
  pass <> [] ->
  trails fail f before ->
  contains fail (before ++ removelast pass) = false ->
  exists f',
    feed race (0, f) pass = ((plen, f'), Some (LITE_ESP8266_SUCCESS, [])).
Proof.
  intros Hne Ht Hno.
  assert (Hpos : (0 < length pass)%nat)
    by (destruct pass; [congruence|cbn; lia]).
  remember (pred (length pass)) as k eqn:Hk.
  assert (Hpass : pass = firstn k pass ++ [nth k pass zero]).
  { rewrite <- firstn_succ_nth by lia.
    replace (S k) with (length pass) by lia. now rewrite firstn_all. }
  destruct (rfrs_feed_pass_firstn f before Ht Hno k ltac:(lia))
    as (f1 & Hf & _).
  exists f1. rewrite Hpass at 3. rewrite feed_app, Hf. cbn [feed].
  rewrite rfrs_body_pass_last by lia.
  replace (S k) with (length pass) by lia. reflexivity.
Qed.
End RacePass.

(** The fail token found first. *)
Lemma read_for_responses_fail_found :
  forall pass fail timeout_ms radio arrivals rest before p,
    pass <> [] -> fail <> [] -> cstring pass -> cstring fail ->
    (length pass <= 255)%nat -> (length fail <= 255)%nat ->
    seven_bit fail ->
    rx radio = line_of arrivals ++ rest ->
    bytes_of arrivals = before ++ fail ->
    contains pass (before ++ fail) = false ->
    before_deadline (clock radio) timeout_ms
                    (clock radio + delay_of arrivals) ->
    feed (rfrs_body pass fail (wrap8 (strlen_P pass)) (wrap8 (strlen_P fail)))
         (0, 0) before = ((p, 0), None) ->
    read_for_responses pass fail timeout_ms radio
    = (LITE_ESP8266_FAILURE, mkRadio (clock radio + delay_of arrivals) rest).
Proof.
  intros pass fail timeout_ms radio arrivals rest before p
         Hpne Hfne Hpc Hfc Hps Hfs H7 Hrx Hbytes Hno Htime Hzero.
  unfold read_for_responses, millis.
  rewrite (response_length_short pass) in * by assumption.
  rewrite (response_length_short fail) in * by assumption.
  rewrite Hrx.
  pose proof (rfrs_feed_pass_sound pass fail Hps before 0 0 [] _
                (trails_start pass Hpc Hps Hpne) Hzero) as Ht.
  cbn [fst app] in Ht.
  destruct (rfrs_feed_fail pass fail Hps Hfs H7 p before Hfne Ht Hno)
    as (p' & Hfeed).
  erewrite poll_line_of_return;
    [reflexivity | apply wrap32_lt | exact Htime |].
  rewrite Hbytes, feed_app, Hzero. exact Hfeed.
Qed.

(** The pass token found first. *)
Lemma read_for_responses_pass_found :
  forall pass fail timeout_ms radio arrivals rest before f,
    pass <> [] -> fail <> [] -> cstring pass -> cstring fail ->
    (length pass <= 255)%nat -> (length fail <= 255)%nat ->
    seven_bit pass ->
    rx radio = line_of arrivals ++ rest ->
    bytes_of arrivals = before ++ pass ->
    contains fail (before ++ removelast pass) = false ->
    before_deadline (clock radio) timeout_ms
                    (clock radio + delay_of arrivals) ->
    feed (rfrs_body pass fail (wrap8 (strlen_P pass)) (wrap8 (strlen_P fail)))
         (0, 0) before = ((0, f), None) ->
    read_for_responses pass fail timeout_ms radio
    = (LITE_ESP8266_SUCCESS, mkRadio (clock radio + delay_of arrivals) rest).
Proof.
  intros pass fail timeout_ms radio arrivals rest before f
         Hpne Hfne Hpc Hfc Hps Hfs H7 Hrx Hbytes Hno Htime Hzero.
  unfold read_for_responses, millis.
  rewrite (response_length_short pass) in * by assumption.
  rewrite (response_length_short fail) in * by assumption.
  rewrite Hrx.
  pose proof (rfrs_feed_sound pass fail Hps Hfs before 0 0 [] _ _
                (trails_start pass Hpc Hps Hpne)
                (trails_start fail Hfc Hfs Hfne) Hzero) as [_ Ht].
  cbn [snd app] in Ht.
  destruct (rfrs_feed_pass pass fail Hps Hfs H7 f before Hpne Ht Hno)
    as (f' & Hfeed).
  erewrite poll_line_of_return;
    [reflexivity | apply wrap32_lt | exact Htime |].
  rewrite Hbytes, feed_app, Hzero. exact Hfeed.
Qed.


(** X5: for pass and fail tokens of 1 to 255 characters, the pass token made
    of seven-bit characters, and a line that brings, before the deadline,
    some bytes and then the pass token, [read_for_responses] returns Success
    and leaves the line at the byte after the pass token, provided that the
    fail token does not occur in what is read before the last character of
    the pass token and that, when the pass token begins, no token has
    completed and the pass cursor is zero. *)
Theorem read_for_responses_pass_first :
  forall pass fail timeout_ms radio arrivals rest before f,
    pass <> [] -> fail <> [] -> cstring pass -> cstring fail ->
    (length pass <= 255)%nat -> (length fail <= 255)%nat ->
    seven_bit pass ->
    rx radio = line_of arrivals ++ rest ->
    bytes_of arrivals = before ++ pass ->
    contains fail (before ++ removelast pass) = false ->
    before_deadline (clock radio) timeout_ms
                    (clock radio + delay_of arrivals) ->
    feed (rfrs_body pass fail (wrap8 (strlen_P pass)) (wrap8 (strlen_P fail)))
         (0, 0) before = ((0, f), None) ->
    read_for_responses pass fail timeout_ms radio
    = (LITE_ESP8266_SUCCESS, mkRadio (clock radio + delay_of arrivals) rest).
Proof. exact read_for_responses_pass_found. Qed.

Lemma read_for_responses_pass_first_witness :
  read_for_responses (chars "OK") (chars "K") 1000
    (mkRadio 7 (line_of [(3%nat, "F"%char); (1%nat, "O"%char);
                         (2%nat, "K"%char)] ++ [Some "z"%char]))
  = (LITE_ESP8266_SUCCESS, mkRadio 13 [Some "z"%char]).
Proof.
  apply (read_for_responses_pass_first (chars "OK") (chars "K") 1000
           (mkRadio 7 (line_of [(3%nat, "F"%char); (1%nat, "O"%char);
                                (2%nat, "K"%char)] ++ [Some "z"%char]))
           [(3%nat, "F"%char); (1%nat, "O"%char); (2%nat, "K"%char)]
           [Some "z"%char] (chars "F") 0).
  - discriminate.
  - discriminate.
  - repeat constructor; discriminate.
  - repeat constructor; discriminate.
  - simpl. lia.
  - simpl. lia.
  - repeat constructor.
  - reflexivity.
  - reflexivity.
  - reflexivity.
  - vm_compute. reflexivity.
  - vm_compute. reflexivity.
Defined.

(** * The delimited-field reader: further properties *)

(** X6: with a capacity from 2 to 65535, [copy_serial_to_buffer] never
    changes the memory at an index [max_bytes] or above, whatever the line
    brings, and when it returns Success or LengthExceeded the buffer holds a
    NUL at an index below [max_bytes]. *)
Theorem copy_serial_to_buffer_stays_in_buffer :
  forall buffer read_until max_bytes timeout_ms radio code buffer' radio',
    2 <= max_bytes -> max_bytes < 65536 ->
    copy_serial_to_buffer buffer read_until max_bytes timeout_ms radio
    = (code, buffer', radio') ->
    (forall i, max_bytes <= i -> peek i buffer' = peek i buffer)
    /\ (code = LITE_ESP8266_SUCCESS \/ code = LITE_ESP8266_LENGTH_EXCEEDED ->
        exists i, i < max_bytes /\ peek i buffer' = zero).
Proof. exact copy_serial_to_buffer_in_bounds. Qed.

Lemma copy_serial_to_buffer_stays_in_buffer_witness :
  (forall i, 4 <= i ->
     peek i (chars "abc" ++ [zero; "!"%char]) = peek i (chars "????!"))
  /\ (LITE_ESP8266_LENGTH_EXCEEDED = LITE_ESP8266_SUCCESS
      \/ LITE_ESP8266_LENGTH_EXCEEDED = LITE_ESP8266_LENGTH_EXCEEDED ->
      exists i, i < 4 /\ peek i (chars "abc" ++ [zero; "!"%char]) = zero).
Proof.
  apply (copy_serial_to_buffer_stays_in_buffer (chars "????!") "d"%char 4
           1000 (at_once 0 "abcdefg") LITE_ESP8266_LENGTH_EXCEEDED
           (chars "abc" ++ [zero; "!"%char]) (at_once 0 "defg")).
  - lia.
  - lia.
  - vm_compute. reflexivity.
Defined.

Section ReaderFull.
Variable read_until : ascii.
Variable max_bytes : N.
Hypothesis max_two : 2 <= max_bytes.
Hypothesis max_uint16 : max_bytes < 65536.

(** The byte that fills the buffer, the terminator apart, is stored, a NUL
    is stored after it and the call ends. *)
Lemma csb_body_full done tl b :
  b <> read_until ->
  N.of_nat (length done) + 1 = max_bytes - 1 ->
  csb_body read_until max_bytes (done ++ tl, N.of_nat (length done)) b
  = ((done ++ b :: zero :: skipn 2 tl, N.of_nat (length done) + 1),
     Some LITE_ESP8266_LENGTH_EXCEEDED).
Proof.
  intros Hb Hfull. unfold csb_body, poke, peek.
  rewrite Nat2N.id, poke_nat_at_end, nth_at_end.
  destruct (Ascii.eqb b read_until) eqn:E;
    [apply Ascii.eqb_eq in E; contradiction|].
  rewrite (csb_limit max_bytes max_two max_uint16), wrap16_small by lia.
  destruct (max_bytes - 1 <=? N.of_nat (length done) + 1) eqn:E';
    [|apply N.leb_gt in E'; lia].
  replace (N.to_nat (N.of_nat (length done) + 1))
    with (length (done ++ [b])) by (rewrite length_app; cbn [length]; lia).
  replace (done ++ b :: skipn 1 tl) with ((done ++ [b]) ++ skipn 1 tl)
    by (now rewrite <- app_assoc).
  rewrite poke_nat_at_end, skipn_skipn, <- app_assoc. reflexivity.
Qed.
End ReaderFull.

(** A field longer than the buffer fills it and is cut. *)
Lemma copy_serial_to_buffer_fills :
  forall buffer read_until max_bytes timeout_ms radio arrivals rest,
    2 <= max_bytes -> max_bytes < 65536 ->
    rx radio = line_of arrivals ++ rest ->
    ~ In read_until (bytes_of arrivals) ->
    N.of_nat (length arrivals) = max_bytes - 1 ->
    before_deadline (clock radio) timeout_ms
                    (clock radio + delay_of arrivals) ->
    copy_serial_to_buffer buffer read_until max_bytes timeout_ms radio
    = (LITE_ESP8266_LENGTH_EXCEEDED,
       bytes_of arrivals ++ zero :: skipn (N.to_nat max_bytes) buffer,
       mkRadio (clock radio + delay_of arrivals) rest).
Proof.
  intros buffer read_until max_bytes timeout_ms radio arrivals rest
         Htwo H16 Hrx Hno Hlen Htime.
  destruct (exists_last (l := arrivals)) as (init & [d b] & ->).
  { intros ->. cbn in Hlen. lia. }
  rewrite length_app in Hlen. cbn [length] in Hlen.
  unfold bytes_of in Hno |- *. rewrite map_app in Hno |- *.
  fold (bytes_of init) in Hno |- *. cbn [map snd] in Hno |- *.
  assert (Hinit : length (bytes_of init) = length init) by apply length_map.
  assert (Hfeed :
    feed (csb_body read_until max_bytes) (buffer, 0)
         (bytes_of (init ++ [(d, b)]))
    = (((bytes_of init ++ [b]) ++ zero :: skipn (N.to_nat max_bytes) buffer,
        N.of_nat (length (bytes_of init)) + 1),
       Some (LITE_ESP8266_LENGTH_EXCEEDED, []))).
  { unfold bytes_of at 1. rewrite map_app. fold (bytes_of init).
    rewrite feed_app.
    pose proof (csb_feed_store read_until max_bytes Htwo H16
                  (bytes_of init) [] buffer) as Hstore.
    cbn [length app skipn Nat.add N.of_nat] in Hstore.
    rewrite Hstore;
      [|intros Hin; apply Hno, in_or_app; now left|rewrite Hinit; lia].
    cbn [map snd feed].
    rewrite (csb_body_full read_until max_bytes Htwo H16);
      [|intros ->; apply Hno, in_or_app; right; now left|rewrite Hinit; lia].
    rewrite skipn_skipn, <- app_assoc. cbn [app].
    replace (2 + length (bytes_of init))%nat with (N.to_nat max_bytes)
      by (rewrite Hinit; lia).
    reflexivity. }
  unfold copy_serial_to_buffer, millis.
  rewrite Hrx.
  rewrite (poll_line_of_return _ _ _ _ _ _ (clock radio) rest
             (wrap32_lt _) Htime Hfeed).
  reflexivity.
Qed.


(** X7: with a capacity C from 2 to 65535, when the first C - 1 bytes arrive
    before the deadline and none is the terminator,
    [copy_serial_to_buffer] returns LengthExceeded after the byte of
    position C - 2; the buffer holds those C - 1 bytes and a NUL at index
    C - 1, and what follows on the line is left unread. *)
Theorem copy_serial_to_buffer_length_exceeded :
  forall buffer read_until max_bytes timeout_ms radio arrivals rest,
    2 <= max_bytes -> max_bytes < 65536 ->
    rx radio = line_of arrivals ++ rest ->
    ~ In read_until (bytes_of arrivals) ->
    N.of_nat (length arrivals) = max_bytes - 1 ->
    before_deadline (clock radio) timeout_ms
                    (clock radio + delay_of arrivals) ->
    copy_serial_to_buffer buffer read_until max_bytes timeout_ms radio
    = (LITE_ESP8266_LENGTH_EXCEEDED,
       bytes_of arrivals ++ zero :: skipn (N.to_nat max_bytes) buffer,
       mkRadio (clock radio + delay_of arrivals) rest).
Proof. exact copy_serial_to_buffer_fills. Qed.

Lemma copy_serial_to_buffer_length_exceeded_witness :
  copy_serial_to_buffer (chars "????!") "d"%char 4 1000
    (mkRadio 5 (line_of [(1%nat, "a"%char); (0%nat, "b"%char);
                         (2%nat, "c"%char)] ++
                line_of (ready (chars "defg"))))
  = (LITE_ESP8266_LENGTH_EXCEEDED, chars "abc" ++ [zero; "!"%char],
     mkRadio 8 (line_of (ready (chars "defg")))).
Proof.
  apply (copy_serial_to_buffer_length_exceeded (chars "????!") "d"%char 4
           1000
           (mkRadio 5 (line_of [(1%nat, "a"%char); (0%nat, "b"%char);
                                (2%nat, "c"%char)] ++
                       line_of (ready (chars "defg"))))
           [(1%nat, "a"%char); (0%nat, "b"%char); (2%nat, "c"%char)]
           (line_of (ready (chars "defg")))).
  - lia.
  - lia.
  - reflexivity.
  - simpl. intros [H|[H|[H|[]]]]; discriminate.
  - reflexivity.
  - vm_compute. reflexivity.
Defined.

(** X8: when the line brings, before the deadline, fewer than C - 1 bytes,
    none the terminator, and then stays silent, [copy_serial_to_buffer]
    returns Timeout at the deadline with those bytes stored and no NUL
    written after them: the rest of the buffer is as it was on entry. *)
Theorem copy_serial_to_buffer_timeout_unterminated :
  forall buffer read_until max_bytes timeout_ms radio arrivals,
    2 <= max_bytes -> max_bytes < 65536 ->
    rx radio = line_of arrivals ->
    ~ In read_until (bytes_of arrivals) ->
    N.of_nat (length arrivals) < max_bytes - 1 ->
    before_deadline (clock radio) timeout_ms
                    (clock radio + delay_of arrivals) ->
    copy_serial_to_buffer buffer read_until max_bytes timeout_ms radio
    = (LITE_ESP8266_TIMEOUT,
       bytes_of arrivals ++ skipn (length arrivals) buffer,
       mkRadio (wrap32 (clock radio + timeout_ms)) []).
Proof.
  intros buffer read_until max_bytes timeout_ms radio arrivals
         Htwo H16 Hrx Hno Hlen Htime.
  assert (Hl : length (bytes_of arrivals) = length arrivals)
    by apply length_map.
  pose proof (csb_feed_store read_until max_bytes Htwo H16
                (bytes_of arrivals) [] buffer Hno) as Hstore.
  cbn [length app skipn Nat.add N.of_nat] in Hstore.
  specialize (Hstore ltac:(lia)).
  unfold copy_serial_to_buffer, millis.
  rewrite Hrx, <- (app_nil_r (line_of arrivals)).
  rewrite (poll_line_of _ _ _ _ _ (clock radio) [] (wrap32_lt _) Htime Hstore).
  cbn [poll]. unfold before_deadline in Htime.
  destruct (clock radio + delay_of arrivals <? wrap32 (clock radio + timeout_ms))
    eqn:E; [|apply N.ltb_ge in E; lia].
  cbn [fst]. now rewrite Hl.
Qed.

Lemma copy_serial_to_buffer_timeout_unterminated_witness :
  copy_serial_to_buffer (chars "????!") "d"%char 5 1000
    (mkRadio 5 (line_of [(1%nat, "a"%char); (2%nat, "b"%char)]))
  = (LITE_ESP8266_TIMEOUT, chars "ab??!", mkRadio 1005 []).
Proof.
  apply (copy_serial_to_buffer_timeout_unterminated (chars "????!") "d"%char
           5 1000 (mkRadio 5 (line_of [(1%nat, "a"%char); (2%nat, "b"%char)]))
           [(1%nat, "a"%char); (2%nat, "b"%char)]).
  - lia.
  - lia.
  - reflexivity.
  - simpl. intros [H|[H|[]]]; discriminate.
  - simpl. lia.
  - vm_compute. reflexivity.
Defined.

(** * read_until *)

(** Bytes other than the terminator are dropped. *)
Lemma ru_feed_skip terminator bytes :
  ~ In terminator bytes ->
  feed (ru_body terminator) tt bytes = (tt, None).
Proof.
  induction bytes as [|b bytes IH]; intros Hno; [reflexivity|].
  cbn [feed]. unfold ru_body at 1.
  destruct (schar terminator =? uint8 b)%Z eqn:E.
  - apply Z.eqb_eq, schar_eq_uint8 in E. subst. exfalso. apply Hno. now left.
  - apply IH. intros Hin. apply Hno. now right.
Qed.

Lemma ru_feed_find terminator bytes :
  (uint8 terminator < 128)%Z ->
  ~ In terminator bytes ->
  feed (ru_body terminator) tt (bytes ++ [terminator])
  = (tt, Some (LITE_ESP8266_SUCCESS, [])).
Proof.
  intros H7 Hno. rewrite feed_app, ru_feed_skip by assumption.
  cbn [feed]. unfold ru_body.
  now rewrite schar_seven_bit, uint8_eqb_refl by assumption.
Qed.

(** The first terminator that arrives before the deadline ends the call. *)
Lemma read_until_first terminator timeout_ms radio arrivals d rest :
  (uint8 terminator < 128)%Z ->
  rx radio = line_of (arrivals ++ [(d, terminator)]) ++ rest ->
  ~ In terminator (bytes_of arrivals) ->
  before_deadline (clock radio) timeout_ms
    (clock radio + delay_of (arrivals ++ [(d, terminator)])) ->
  read_until terminator timeout_ms radio
  = (LITE_ESP8266_SUCCESS,
     mkRadio (clock radio + delay_of (arrivals ++ [(d, terminator)])) rest).
Proof.
  intros H7 Hrx Hno Htime. unfold read_until, millis. rewrite Hrx.
  assert (Hfeed : feed (ru_body terminator) tt
                       (bytes_of (arrivals ++ [(d, terminator)]))
                  = (tt, Some (LITE_ESP8266_SUCCESS, []))).
  { unfold bytes_of. rewrite map_app. now apply ru_feed_find. }
  rewrite (poll_line_of_return _ _ _ _ _ _ (clock radio) rest
             (wrap32_lt _) Htime Hfeed).
  reflexivity.
Qed.

(** X9: for a seven-bit terminator that arrives before the deadline,
    [read_until] returns Success at its first occurrence: the bytes before
    it and the terminator itself are consumed, and the line is left at the
    byte after it. *)
Theorem read_until_finds :
  forall terminator timeout_ms radio arrivals d rest,
    (uint8 terminator < 128)%Z ->
    rx radio = line_of (arrivals ++ [(d, terminator)]) ++ rest ->
    ~ In terminator (bytes_of arrivals) ->
    before_deadline (clock radio) timeout_ms
      (clock radio + delay_of (arrivals ++ [(d, terminator)])) ->
    read_until terminator timeout_ms radio
    = (LITE_ESP8266_SUCCESS,
       mkRadio (clock radio + delay_of (arrivals ++ [(d, terminator)])) rest).
Proof. exact read_until_first. Qed.

Lemma read_until_finds_witness :
  read_until ":"%char 1000
    (mkRadio 4 (line_of ([(1%nat, "a"%char); (2%nat, "b"%char)] ++
                         [(3%nat, ":"%char)]) ++
                line_of (ready (chars "c:d"))))
  = (LITE_ESP8266_SUCCESS, mkRadio 10 (line_of (ready (chars "c:d")))).
Proof.
  apply (read_until_finds ":"%char 1000
           (mkRadio 4 (line_of ([(1%nat, "a"%char); (2%nat, "b"%char)] ++
                                [(3%nat, ":"%char)]) ++
                       line_of (ready (chars "c:d"))))
           [(1%nat, "a"%char); (2%nat, "b"%char)] 3%nat
           (line_of (ready (chars "c:d")))).
  - reflexivity.
  - reflexivity.
  - simpl. intros [H|[H|[]]]; discriminate.
  - vm_compute. reflexivity.
Defined.

(** X10: two calls of [read_until] in a row consume two occurrences of the
    terminator: after the second call the line is left after the second
    occurrence, the first one is not matched again. *)
Theorem read_until_twice :
  forall terminator timeout_ms radio first d1 second d2 rest,
    (uint8 terminator < 128)%Z ->
    rx radio = line_of (first ++ [(d1, terminator)])
               ++ line_of (second ++ [(d2, terminator)]) ++ rest ->
    ~ In terminator (bytes_of first) ->
    ~ In terminator (bytes_of second) ->
    before_deadline (clock radio) timeout_ms
      (clock radio + delay_of (first ++ [(d1, terminator)])) ->
    before_deadline (clock radio + delay_of (first ++ [(d1, terminator)]))
      timeout_ms
      (clock radio + delay_of (first ++ [(d1, terminator)])
       + delay_of (second ++ [(d2, terminator)])) ->
    read_until terminator timeout_ms
               (snd (read_until terminator timeout_ms radio))
    = (LITE_ESP8266_SUCCESS,
       mkRadio (clock radio + delay_of (first ++ [(d1, terminator)])
                + delay_of (second ++ [(d2, terminator)])) rest).
Proof.
  intros terminator timeout_ms radio first d1 second d2 rest
         H7 Hrx Hno1 Hno2 Ht1 Ht2.
  rewrite (read_until_first terminator timeout_ms radio first d1
             (line_of (second ++ [(d2, terminator)]) ++ rest) H7 Hrx Hno1 Ht1).
  cbn [snd].
  apply (read_until_first terminator timeout_ms
           (mkRadio (clock radio + delay_of (first ++ [(d1, terminator)]))
                    (line_of (second ++ [(d2, terminator)]) ++ rest))
           second d2 rest H7);
    [reflexivity | exact Hno2 | exact Ht2].
Qed.

Lemma read_until_twice_witness :
  read_until ":"%char 1000
    (snd (read_until ":"%char 1000
            (mkRadio 4 (line_of ([(1%nat, "a"%char)] ++ [(2%nat, ":"%char)])
                        ++ line_of ([(0%nat, "b"%char)] ++ [(3%nat, ":"%char)])
                        ++ line_of (ready (chars "c"))))))
  = (LITE_ESP8266_SUCCESS, mkRadio 10 (line_of (ready (chars "c")))).
Proof.
  apply (read_until_twice ":"%char 1000
           (mkRadio 4 (line_of ([(1%nat, "a"%char)] ++ [(2%nat, ":"%char)])
                       ++ line_of ([(0%nat, "b"%char)] ++ [(3%nat, ":"%char)])
                       ++ line_of (ready (chars "c"))))
           [(1%nat, "a"%char)] 2%nat [(0%nat, "b"%char)] 3%nat
           (line_of (ready (chars "c")))).
  - reflexivity.
  - reflexivity.
  - simpl. intros [H|[]]; discriminate.
  - simpl. intros [H|[]]; discriminate.
  - vm_compute. reflexivity.
  - vm_compute. reflexivity.
Defined.

(** X11: [read_until] compares its [char] argument with the [int] that
    [read] returns, so a terminator of 128 or above, negative as a [char],
    equals no byte read: the call returns Timeout whatever the line
    brings. *)
Theorem read_until_eight_bit_terminator :
  forall terminator timeout_ms radio,
    (128 <= uint8 terminator)%Z ->
    fst (read_until terminator timeout_ms radio) = LITE_ESP8266_TIMEOUT.
Proof.
  intros terminator timeout_ms radio H8. unfold read_until.
  destruct (poll _ _ _ _ _) as [[code u] radio'] eqn:Hp. cbn [fst].
  destruct (poll_exit _ _ _ _ _ _ _ _ Hp) as [[_ (s0 & b & Hb)]|[Hc _]];
    [|exact Hc].
  unfold ru_body in Hb.
  destruct (schar terminator =? uint8 b)%Z eqn:E; [|discriminate].
  apply Z.eqb_eq in E. unfold schar in E.
  pose proof (uint8_range terminator). pose proof (uint8_range b).
  destruct (uint8 terminator <? 128)%Z eqn:E'.
  - apply Z.ltb_lt in E'. lia.
  - lia.
Qed.

Lemma read_until_eight_bit_terminator_witness :
  fst (read_until (ascii_of_N 200) 1000
         (mkRadio 0 [Some (ascii_of_N 200); Some (ascii_of_N 200)]))
  = LITE_ESP8266_TIMEOUT.
Proof.
  apply (read_until_eight_bit_terminator (ascii_of_N 200) 1000
           (mkRadio 0 [Some (ascii_of_N 200); Some (ascii_of_N 200)])).
  vm_compute. discriminate.
Defined.

(** X12: when the bytes that the line brings all arrive before the deadline
    and none is the terminator, [read_until] consumes them all and returns
    Timeout at the deadline. *)
Theorem read_until_drains :
  forall terminator timeout_ms radio arrivals,
    rx radio = line_of arrivals ->
    ~ In terminator (bytes_of arrivals) ->
    before_deadline (clock radio) timeout_ms
                    (clock radio + delay_of arrivals) ->
    read_until terminator timeout_ms radio
    = (LITE_ESP8266_TIMEOUT, mkRadio (wrap32 (clock radio + timeout_ms)) []).
Proof.
  intros terminator timeout_ms radio arrivals Hrx Hno Htime.
  unfold read_until, millis.
  rewrite Hrx, <- (app_nil_r (line_of arrivals)).
  rewrite (poll_line_of _ _ _ _ _ (clock radio) [] (wrap32_lt _) Htime
             (ru_feed_skip terminator _ Hno)).
  cbn [poll]. unfold before_deadline in Htime.
  destruct (clock radio + delay_of arrivals <? wrap32 (clock radio + timeout_ms))
    eqn:E; [reflexivity|apply N.ltb_ge in E; lia].
Qed.

Lemma read_until_drains_witness :
  read_until ":"%char 1000
    (mkRadio 4 (line_of [(1%nat, "a"%char); (2%nat, "b"%char)]))
  = (LITE_ESP8266_TIMEOUT, mkRadio 1004 []).
Proof.
  apply (read_until_drains ":"%char 1000
           (mkRadio 4 (line_of [(1%nat, "a"%char); (2%nat, "b"%char)]))
           [(1%nat, "a"%char); (2%nat, "b"%char)]).
  - reflexivity.
  - simpl. intros [H|[H|[]]]; discriminate.
  - vm_compute. reflexivity.
Defined.

(** * The packet extractor: further properties *)

Lemma length_poke_nat i c : forall mem,
  (i < length mem)%nat -> length (poke_nat i c mem) = length mem.
Proof.
  induction i as [|i IH]; intros [|x mem] Hi; cbn [length] in *;
    try lia; cbn [poke_nat length]; [reflexivity|].
  rewrite IH by lia. reflexivity.
Qed.

Lemma line_of_app a b : line_of (a ++ b) = line_of a ++ line_of b.
Proof.
  induction a as [|[d x] a IH]; [reflexivity|].
  cbn [app line_of]. now rewrite IH, <- app_assoc.
Qed.

Lemma delay_of_app a b : delay_of (a ++ b) = delay_of a + delay_of b.
Proof.
  induction a as [|[d x] a IH]; [reflexivity|].
  cbn [app delay_of fold_right fst] in *. fold (delay_of (a ++ b)).
  fold (delay_of a). rewrite IH. lia.
Qed.

Lemma store_run_past cap bytes : forall i mem,
  (cap <= i)%nat -> store_run i cap bytes mem = mem.
Proof.
  induction bytes as [|b bytes IH]; intros i mem Hi; [reflexivity|].
  cbn [store_run]. destruct (i <? cap)%nat eqn:E;
    [apply Nat.ltb_lt in E; lia|]. apply IH. lia.
Qed.

(** On a region of zeros the run leaves its first bytes, one byte short of
    the size of the region, and a NUL after them. *)
Lemma store_run_zero bytes : forall done k,
  (1 <= k)%nat ->
  store_run (length done) (length done + k - 1) bytes (done ++ repeat zero k)
  = done ++ firstn (k - 1) bytes
    ++ repeat zero (k - length (firstn (k - 1) bytes)).
Proof.
  induction bytes as [|b bytes IH]; intros done k Hk.
  - cbn [store_run]. rewrite firstn_nil. cbn [length app].
    now rewrite Nat.sub_0_r.
  - cbn [store_run]. destruct (length done <? length done + k - 1)%nat eqn:E.
    + apply Nat.ltb_lt in E.
      destruct k as [|[|k]]; try lia.
      rewrite poke_nat_at_end. cbn [repeat skipn].
      specialize (IH (done ++ [b]) (S k) ltac:(lia)).
      rewrite length_app in IH. cbn [length] in IH.
      replace (length done + 1 + S k - 1)%nat
        with (length done + S (S k) - 1)%nat in IH by lia.
      replace (S (length done)) with (length done + 1)%nat by lia.
      rewrite <- app_assoc in IH. cbn [app] in IH.
      replace (done ++ b :: zero :: repeat zero k)
        with (done ++ b :: repeat zero (S k)) by reflexivity.
      rewrite IH. replace (S (S k) - 1)%nat with (S k) by lia.
      replace (S k - 1)%nat with k by lia.
      cbn [firstn length app]. rewrite <- app_assoc. reflexivity.
    + apply Nat.ltb_ge in E. assert (k = 1%nat) by lia. subst k.
      rewrite store_run_past by lia. reflexivity.
Qed.

Section Payload.
Variables deadline allocated : N.
Hypothesis deadline_ulong : deadline < 4294967296.
Hypothesis allocated_pos : 1 <= allocated.
Hypothesis allocated_uint16 : allocated < 65536.

(** The copy loop over a run of bytes that arrive before the deadline. *)
Lemma copy_payload_run arrivals : forall idle_turns i mem now rest,
  now + delay_of arrivals <= deadline ->
  N.of_nat i + N.of_nat (length arrivals) < 65536 ->
  copy_payload idle_turns (length arrivals) (N.of_nat i) deadline allocated mem
               (mkRadio now (line_of arrivals ++ rest))
  = (store_run i (N.to_nat (allocated - 1)) (bytes_of arrivals) mem,
     mkRadio (now + delay_of arrivals) rest).
Proof.
  induction arrivals as [|[d b] arrivals IH];
    intros idle_turns i mem now rest Hnow Hi.
  - cbn. do 2 f_equal. lia.
  - cbn [length line_of delay_of fold_right fst bytes_of map snd store_run]
      in *.
    fold (delay_of arrivals) in *. fold (bytes_of arrivals).
    rewrite <- app_assoc. cbn [app].
    rewrite copy_payload_step by lia.
    rewrite sub16_small by lia.
    replace (N.of_nat i + 1) with (N.of_nat (S i)) by lia.
    rewrite IH by lia.
    f_equal; [|f_equal; lia].
    f_equal. unfold poke. rewrite Nat2N.id.
    destruct (N.of_nat i <? allocated - 1) eqn:E;
      destruct (i <? N.to_nat (allocated - 1))%nat eqn:E'; try reflexivity.
    + apply N.ltb_lt in E. apply Nat.ltb_ge in E'. lia.
    + apply N.ltb_ge in E. apply Nat.ltb_lt in E'. lia.
Qed.

(** The copy loop keeps the size of the region and the NUL in its last
    byte, whatever the line brings. *)
Lemma copy_payload_region remaining : forall idle_turns i mem radio,
  length mem = N.to_nat allocated ->
  peek (allocated - 1) mem = zero ->
  length (fst (copy_payload idle_turns remaining i deadline allocated
                            mem radio))
  = N.to_nat allocated
  /\ peek (allocated - 1)
          (fst (copy_payload idle_turns remaining i deadline allocated
                             mem radio))
     = zero.
Proof.
  induction remaining as [|remaining IH];
    intros idle_turns i mem radio Hlen Hlast.
  - cbn. now split.
  - cbn [copy_payload].
    destruct (if negb _ && _ then _ else _) as [idle radio0].
    destruct (deadline <? millis radio0); [cbn; now split|].
    destruct (read radio0) as [c radio1].
    rewrite sub16_small by lia.
    destruct (i <? allocated - 1) eqn:E; [|now apply IH].
    apply N.ltb_lt in E. apply IH.
    + unfold poke. rewrite length_poke_nat; [exact Hlen|lia].
    + rewrite peek_poke.
      destruct (allocated - 1 =? i) eqn:E'; [apply N.eqb_eq in E'; lia|].
      exact Hlast.
Qed.
End Payload.

Lemma parse_length_lt buffer : parse_length buffer < 65536.
Proof.
  unfold parse_length, unsigned_of_int.
  pose proof (Z.mod_pos_bound (atoi buffer) 65536 ltac:(lia)). lia.
Qed.

Lemma allocation_size_range max_allocate_bytes data_length :
  1 <= max_allocate_bytes -> max_allocate_bytes < 65536 ->
  1 <= allocation_size max_allocate_bytes data_length <= max_allocate_bytes.
Proof.
  intros H1 H16. unfold allocation_size.
  destruct (data_length <? max_allocate_bytes) eqn:E.
  - apply N.ltb_lt in E. rewrite wrap16_small by lia. lia.
  - lia.
Qed.

(** The region that [receive_payload] hands over. *)
Lemma receive_payload_region idle_turns max_allocate_bytes data_length
    deadline radio :
  1 <= max_allocate_bytes -> max_allocate_bytes < 65536 ->
  deadline < 4294967296 ->
  let packet := fst (receive_payload idle_turns max_allocate_bytes
                                     data_length deadline radio) in
  1 <= bytes_allocated packet <= max_allocate_bytes
  /\ length (data packet) = N.to_nat (bytes_allocated packet)
  /\ peek (bytes_allocated packet - 1) (data packet) = zero.
Proof.
  intros H1 H16 Hd. unfold receive_payload.
  pose proof (allocation_size_range max_allocate_bytes data_length H1 H16)
    as Hrange.
  set (allocated := allocation_size max_allocate_bytes data_length) in *.
  assert (Hpos : 1 <= allocated) by lia.
  assert (Hsmall : allocated < 65536) by lia.
  pose proof (copy_payload_region deadline allocated Hd Hpos Hsmall
                (N.to_nat data_length) idle_turns 0
                (repeat zero (N.to_nat allocated))
                radio (repeat_length _ _)) as Hregion.
  destruct (copy_payload _ _ _ _ _ _) as [mem radio'].
  cbn [fst bytes_allocated data] in *.
  split; [exact Hrange|]. apply Hregion.
  unfold peek. apply nth_repeat.
Qed.

(** X13: for a ceiling [max_allocate_bytes] from 1 to 65535, every region
    that [get_response_packet] or [get_http_response] returns, whatever the
    line brings and whenever, has a size from 1 to [max_allocate_bytes],
    holds exactly that many bytes and ends with a NUL: the payload is never
    stored past the region and the string is always terminated. *)
Theorem packet_region_terminated :
  forall stack idle_turns max_allocate_bytes timeout_ms radio packet,
    1 <= max_allocate_bytes -> max_allocate_bytes < 65536 ->
    fst (get_response_packet stack idle_turns max_allocate_bytes
                             timeout_ms radio)
    = Some packet
    \/ fst (get_http_response stack idle_turns max_allocate_bytes
                              timeout_ms radio)
       = Some packet ->
    1 <= bytes_allocated packet <= max_allocate_bytes
    /\ length (data packet) = N.to_nat (bytes_allocated packet)
    /\ peek (bytes_allocated packet - 1) (data packet) = zero.
Proof.
  intros stack idle_turns max_allocate_bytes timeout_ms radio packet
         H1 H16 [H|H].
  - unfold get_response_packet in H.
    destruct (read_for_response _ _ _) as [code radio1].
    destruct (code =? LITE_ESP8266_SUCCESS); [|discriminate].
    destruct (copy_serial_to_buffer _ _ _ _ _) as [[code2 buffer] radio2].
    pose proof (receive_payload_region idle_turns max_allocate_bytes
                  (parse_length buffer)
                  (wrap32 (millis radio + timeout_ms)) radio2 H1 H16
                  (wrap32_lt _)) as Hregion.
    destruct (receive_payload _ _ _ _ _) as [packet0 radio3].
    cbn [fst] in *. inversion H; subst. exact Hregion.
  - unfold get_http_response in H.
    destruct (read_for_response _ _ _) as [code radio1].
    destruct (code =? LITE_ESP8266_SUCCESS); [|discriminate].
    destruct (copy_serial_to_buffer _ _ _ _ _) as [[code2 buffer] radio2].
    destruct (read_for_response _ _ radio2) as [code3 radio3].
    destruct (code3 =? LITE_ESP8266_SUCCESS); [|discriminate].
    pose proof (receive_payload_region idle_turns max_allocate_bytes
                  (parse_length buffer)
                  (wrap32 (millis radio + timeout_ms)) radio3 H1 H16
                  (wrap32_lt _)) as Hregion.
    destruct (receive_payload _ _ _ _ _) as [packet0 radio4].
    cbn [fst] in *. inversion H; subst. exact Hregion.
Qed.

Lemma packet_region_terminated_witness :
  1 <= 8 <= 8
  /\ length (chars "5:hello" ++ [zero]) = N.to_nat 8
  /\ peek (8 - 1) (chars "5:hello" ++ [zero]) = zero.
Proof.
  apply (packet_region_terminated [] 250%nat 8 5000
           (at_once 0 "+IPD,12345:hello")
           (mkPacket 8 (chars "5:hello" ++ [zero]))).
  - lia.
  - lia.
  - left. vm_compute. reflexivity.
Defined.

(** ** Lengths *)

Lemma isdigit_range c : isdigit c = true -> 48 <= N_of_ascii c <= 57.
Proof.
  unfold isdigit. intros H. apply andb_true_iff in H as [H1 H2].
  apply N.leb_le in H1, H2. lia.
Qed.

Lemma isdigit_not_space c : isdigit c = true -> isspace c = false.
Proof.
  intros H. apply isdigit_range in H. unfold isspace.
  destruct (N_of_ascii c =? 32) eqn:E1; [apply N.eqb_eq in E1; lia|].
  destruct (N_of_ascii c <=? 13) eqn:E2; [apply N.leb_le in E2; lia|].
  now rewrite andb_false_r.
Qed.

Lemma isdigit_not_char c x :
  isdigit c = true -> isdigit x = false -> Ascii.eqb c x = false.
Proof.
  intros Hc Hx. destruct (Ascii.eqb c x) eqn:E; [|reflexivity].
  apply Ascii.eqb_eq in E. subst. congruence.
Qed.

Lemma digits_without x digits :
  Forall (fun c => isdigit c = true) digits -> isdigit x = false ->
  ~ In x digits.
Proof.
  intros Hd Hx Hin. rewrite Forall_forall in Hd. apply Hd in Hin. congruence.
Qed.

(** [atoi]'s loop on a string of digits that a NUL ends. *)
Lemma atoi_digits_number digits : forall acc tl,
  Forall (fun c => isdigit c = true) digits ->
  atoi_digits (Z.of_N acc) (digits ++ zero :: tl)
  = Z.of_N (fold_left (fun a c => 10 * a + (N_of_ascii c - 48)) digits acc).
Proof.
  induction digits as [|c digits IH]; intros acc tl Hd.
  - reflexivity.
  - inversion Hd as [|c' ds Hc Hds]; subst. cbn [app atoi_digits fold_left].
    rewrite Hc. pose proof (isdigit_range c Hc).
    replace (Z.of_N acc * 10 + (uint8 c - 48))%Z
      with (Z.of_N (10 * acc + (N_of_ascii c - 48)))
      by (unfold uint8; lia).
    now apply IH.
Qed.

Lemma unsigned_of_int16 z : unsigned_of_int (int16 z) = Z.to_N (z mod 65536).
Proof.
  unfold unsigned_of_int, int16. f_equal.
  rewrite Zminus_mod, Z.mod_mod by lia.
  rewrite <- Zminus_mod. f_equal. lia.
Qed.

(** The length parsed from a field of digits is the number they denote, as
    far as the [unsigned int] holds it. *)
Lemma parse_length_digits digits tl :
  Forall (fun c => isdigit c = true) digits ->
  number_of digits < 65536 ->
  parse_length (digits ++ zero :: tl) = number_of digits.
Proof.
  intros Hd Hsmall. unfold parse_length, atoi.
  assert (Hgo : unsigned_of_int (int16 (atoi_digits 0 (digits ++ zero :: tl)))
                = number_of digits).
  { rewrite unsigned_of_int16.
    change 0%Z with (Z.of_N 0).
    rewrite (atoi_digits_number digits 0 tl Hd). fold (number_of digits).
    rewrite Z.mod_small by lia. apply N2Z.id. }
  destruct digits as [|c digits]; [reflexivity|].
  inversion Hd as [|c' ds Hc Hds]; subst.
  cbn [app skip_space]. rewrite (isdigit_not_space c Hc).
  rewrite (isdigit_not_char c "-" Hc eq_refl).
  rewrite (isdigit_not_char c "+" Hc eq_refl).
  exact Hgo.
Qed.

Lemma number_of_step digits : forall acc,
  Forall (fun c => isdigit c = true) digits ->
  fold_left (fun a c => 10 * a + (N_of_ascii c - 48)) digits acc
  < (acc + 1) * 10 ^ N.of_nat (length digits).
Proof.
  induction digits as [|c digits IH]; intros acc Hd.
  - cbn. lia.
  - inversion Hd as [|c' ds Hc Hds]; subst. cbn [fold_left length].
    pose proof (isdigit_range c Hc).
    specialize (IH (10 * acc + (N_of_ascii c - 48)) Hds).
    rewrite Nat2N.inj_succ, N.pow_succ_r'.
    eapply N.lt_le_trans; [exact IH|].
    rewrite N.mul_assoc. apply N.mul_le_mono_r. lia.
Qed.

Lemma number_of_four digits :
  Forall (fun c => isdigit c = true) digits -> (length digits <= 4)%nat ->
  number_of digits < 10000.
Proof.
  intros Hd Hlen. pose proof (number_of_step digits 0 Hd) as H.
  unfold number_of. eapply N.lt_le_trans; [exact H|].
  change 10000 with ((0 + 1) * 10 ^ 4). apply N.mul_le_mono_l.
  apply N.pow_le_mono_r; lia.
Qed.

(** The payload that arrives before the deadline is stored up to the size of
    the region less one, and read to its end. *)
Lemma receive_payload_line idle_turns max_allocate_bytes deadline now payload
    rest :
  1 <= max_allocate_bytes -> max_allocate_bytes < 65536 ->
  deadline < 4294967296 ->
  N.of_nat (length payload) < 65536 ->
  now + delay_of payload <= deadline ->
  receive_payload idle_turns max_allocate_bytes
                  (N.of_nat (length payload)) deadline
                  (mkRadio now (line_of payload ++ rest))
  = (mkPacket
       (allocation_size max_allocate_bytes (N.of_nat (length payload)))
       (firstn (N.to_nat (allocation_size max_allocate_bytes
                                          (N.of_nat (length payload))) - 1)
               (bytes_of payload) ++ [zero]),
     mkRadio (now + delay_of payload) rest).
Proof.
  intros H1 H16 Hd HL Hnow. unfold receive_payload.
  pose proof (allocation_size_range max_allocate_bytes
                (N.of_nat (length payload)) H1 H16) as Hrange.
  assert (Hfit : allocation_size max_allocate_bytes
                   (N.of_nat (length payload)) - 1
                 <= N.of_nat (length payload)).
  { unfold allocation_size.
    destruct (N.of_nat (length payload) <? max_allocate_bytes) eqn:E.
    - apply N.ltb_lt in E. rewrite wrap16_small by lia. lia.
    - apply N.ltb_ge in E. lia. }
  set (allocated := allocation_size max_allocate_bytes
                      (N.of_nat (length payload))) in *.
  rewrite Nat2N.id.
  assert (Hpos : 1 <= allocated) by lia.
  assert (Hsmall : allocated < 65536) by lia.
  rewrite (copy_payload_run deadline allocated Hd Hpos Hsmall payload
             idle_turns 0%nat)
    by (cbn; lia).
  f_equal. f_equal.
  pose proof (store_run_zero (bytes_of payload) [] (N.to_nat allocated)
                ltac:(lia)) as Hrun.
  cbn [length app Nat.add] in Hrun.
  replace (N.to_nat (allocated - 1)) with (N.to_nat allocated - 1)%nat by lia.
  rewrite Hrun. f_equal.
  rewrite length_firstn. unfold bytes_of. rewrite length_map.
  replace (N.to_nat allocated - Nat.min (N.to_nat allocated - 1)
                                        (length payload))%nat
    with 1%nat by lia.
  reflexivity.
Qed.

(** ** Packets *)

(** X14: the line brings, each before the deadline of the step that reads
    it, the marker "+IPD,", a length of at most three decimal digits, ":"
    and as many payload bytes as the length says; for a ceiling from 1 to
    65535, [get_response_packet] returns a region of the size computed from
    the length and the ceiling (length + 1 when that is below the ceiling,
    the ceiling otherwise), holding the payload bytes that fit before a
    NUL, and has read the whole payload: the line is left after it. *)
Theorem get_response_packet_payload :
  forall stack idle_turns max_allocate_bytes timeout_ms radio marker field d
         payload rest,
    1 <= max_allocate_bytes -> max_allocate_bytes < 65536 ->
    bytes_of marker = ESP8266_DATA_PACKET ->
    Forall (fun c => isdigit c = true) (bytes_of field) ->
    (length field <= 3)%nat ->
    N.of_nat (length payload) = number_of (bytes_of field) ->
    rx radio = line_of marker ++ line_of (field ++ [(d, ":"%char)])
               ++ line_of payload ++ rest ->
    before_deadline (clock radio) CLIENT_CONNECT_TIMEOUT
                    (clock radio + delay_of marker) ->
    before_deadline (clock radio + delay_of marker) COMMAND_RESPONSE_TIMEOUT
                    (clock radio + delay_of marker
                     + delay_of (field ++ [(d, ":"%char)])) ->
    before_deadline (clock radio) timeout_ms
                    (clock radio + delay_of marker
                     + delay_of (field ++ [(d, ":"%char)])
                     + delay_of payload) ->
    get_response_packet stack idle_turns max_allocate_bytes timeout_ms radio
    = (Some (mkPacket
               (allocation_size max_allocate_bytes (N.of_nat (length payload)))
               (firstn (N.to_nat (allocation_size max_allocate_bytes
                                    (N.of_nat (length payload))) - 1)
                       (bytes_of payload) ++ [zero])),
       mkRadio (clock radio + delay_of marker
                + delay_of (field ++ [(d, ":"%char)]) + delay_of payload)
               rest).
Proof.
  intros stack idle_turns max_allocate_bytes timeout_ms radio marker field d
         payload rest H1 H16 Hmarker Hdigits Hlen HL Hrx Hdm Hdf Hdp.
  assert (Hfl : length (bytes_of field) = length field) by apply length_map.
  pose proof (number_of_four (bytes_of field) Hdigits ltac:(lia)) as Hnum.
  unfold get_response_packet, millis.
  rewrite (read_for_response_from_zero ESP8266_DATA_PACKET
             CLIENT_CONNECT_TIMEOUT radio marker
             (line_of (field ++ [(d, ":"%char)]) ++ line_of payload ++ rest)
             []);
    [ | discriminate | repeat constructor; discriminate | cbn; lia
      | exact Hrx | exact Hmarker | exact Hdm | reflexivity].
  cbn [N.eqb LITE_ESP8266_SUCCESS].
  rewrite (copy_serial_to_buffer_field stack ":"%char 5
             COMMAND_RESPONSE_TIMEOUT _ field d (line_of payload ++ rest));
    [ | lia | lia | reflexivity
      | apply digits_without; [exact Hdigits|reflexivity]
      | lia | exact Hdf ].
  cbn [clock].
  rewrite parse_length_digits by (try assumption; lia).
  rewrite <- HL.
  unfold before_deadline in Hdp.
  rewrite receive_payload_line;
    [reflexivity | lia | lia | apply wrap32_lt | lia | lia].
Qed.

Lemma get_response_packet_payload_witness :
  get_response_packet (chars "?????") 250 4 5000
    (mkRadio 100
       (line_of [(2%nat, "+"%char); (0%nat, "I"%char); (0%nat, "P"%char);
                 (0%nat, "D"%char); (1%nat, ","%char)] ++
        line_of ([(0%nat, "0"%char); (0%nat, "5"%char)] ++ [(1%nat, ":"%char)])
        ++ line_of [(0%nat, "h"%char); (3%nat, "e"%char); (0%nat, "l"%char);
                    (0%nat, "l"%char); (1%nat, "o"%char)] ++
        line_of (ready (chars "XY"))))
  = (Some (mkPacket 4 (chars "hel" ++ [zero])),
     mkRadio 108 (line_of (ready (chars "XY")))).
Proof.
  apply (get_response_packet_payload (chars "?????") 250%nat 4 5000
           (mkRadio 100
              (line_of [(2%nat, "+"%char); (0%nat, "I"%char);
                        (0%nat, "P"%char); (0%nat, "D"%char);
                        (1%nat, ","%char)] ++
               line_of ([(0%nat, "0"%char); (0%nat, "5"%char)]
                        ++ [(1%nat, ":"%char)]) ++
               line_of [(0%nat, "h"%char); (3%nat, "e"%char);
                        (0%nat, "l"%char); (0%nat, "l"%char);
                        (1%nat, "o"%char)] ++
               line_of (ready (chars "XY"))))
           [(2%nat, "+"%char); (0%nat, "I"%char); (0%nat, "P"%char);
            (0%nat, "D"%char); (1%nat, ","%char)]
           [(0%nat, "0"%char); (0%nat, "5"%char)] 1%nat
           [(0%nat, "h"%char); (3%nat, "e"%char); (0%nat, "l"%char);
            (0%nat, "l"%char); (1%nat, "o"%char)]
           (line_of (ready (chars "XY")))).
  - lia.
  - lia.
  - reflexivity.
  - repeat constructor.
  - simpl. lia.
  - reflexivity.
  - reflexivity.
  - vm_compute. reflexivity.
  - vm_compute. reflexivity.
  - vm_compute. reflexivity.
Defined.

(** X15: a length of four digits fills the five-byte buffer of
    [get_response_packet]: the length is cut off after its fourth digit with
    the ":" still on the line, so the ":" is taken as the first payload
    byte, the region holds ":" and the payload less its last byte (as far as
    they fit), and the last payload byte is left unread on the line. *)
Theorem get_response_packet_four_digits :
  forall stack idle_turns max_allocate_bytes timeout_ms radio marker field d
         init last rest,
    1 <= max_allocate_bytes -> max_allocate_bytes < 65536 ->
    bytes_of marker = ESP8266_DATA_PACKET ->
    Forall (fun c => isdigit c = true) (bytes_of field) ->
    length field = 4%nat ->
    N.of_nat (length (init ++ [last])) = number_of (bytes_of field) ->
    rx radio = line_of marker ++ line_of field
               ++ line_of ((d, ":"%char) :: init) ++ line_of [last] ++ rest ->
    before_deadline (clock radio) CLIENT_CONNECT_TIMEOUT
                    (clock radio + delay_of marker) ->
    before_deadline (clock radio + delay_of marker) COMMAND_RESPONSE_TIMEOUT
                    (clock radio + delay_of marker + delay_of field) ->
    before_deadline (clock radio) timeout_ms
                    (clock radio + delay_of marker + delay_of field
                     + delay_of ((d, ":"%char) :: init)) ->
    get_response_packet stack idle_turns max_allocate_bytes timeout_ms radio
    = (Some (mkPacket
               (allocation_size max_allocate_bytes
                                (N.of_nat (length (init ++ [last]))))
               (firstn (N.to_nat (allocation_size max_allocate_bytes
                                    (N.of_nat (length (init ++ [last])))) - 1)
                       (":"%char :: bytes_of init) ++ [zero])),
       mkRadio (clock radio + delay_of marker + delay_of field
                + delay_of ((d, ":"%char) :: init))
               (line_of [last] ++ rest)).
Proof.
  intros stack idle_turns max_allocate_bytes timeout_ms radio marker field d
         init last rest H1 H16 Hmarker Hdigits Hlen HL Hrx Hdm Hdf Hdp.
  assert (Hfl : length (bytes_of field) = length field) by apply length_map.
  pose proof (number_of_four (bytes_of field) Hdigits ltac:(lia)) as Hnum.
  unfold get_response_packet, millis.
  rewrite (read_for_response_from_zero ESP8266_DATA_PACKET
             CLIENT_CONNECT_TIMEOUT radio marker
             (line_of field ++ line_of ((d, ":"%char) :: init)
              ++ line_of [last] ++ rest) []);
    [ | discriminate | repeat constructor; discriminate | cbn; lia
      | exact Hrx | exact Hmarker | exact Hdm | reflexivity].
  cbn [N.eqb LITE_ESP8266_SUCCESS].
  rewrite (copy_serial_to_buffer_fills stack ":"%char 5
             COMMAND_RESPONSE_TIMEOUT _ field
             (line_of ((d, ":"%char) :: init) ++ line_of [last] ++ rest));
    [ | lia | lia | reflexivity
      | apply digits_without; [exact Hdigits|reflexivity]
      | rewrite Hlen; reflexivity | exact Hdf ].
  cbn [clock].
  rewrite parse_length_digits by (try assumption; lia).
  rewrite <- HL.
  assert (Hsame : length (init ++ [last]) = length ((d, ":"%char) :: init))
    by (rewrite length_app; cbn [length]; lia).
  rewrite Hsame in *.
  unfold before_deadline in Hdp.
  rewrite receive_payload_line;
    [reflexivity | lia | lia | apply wrap32_lt | lia | lia].
Qed.

Lemma get_response_packet_four_digits_witness :
  get_response_packet (chars "?????") 250 10 5000
    (mkRadio 100
       (line_of (ready (chars "+IPD,")) ++ line_of (ready (chars "0004"))
        ++ line_of ((1%nat, ":"%char) :: ready (chars "abc"))
        ++ line_of [(2%nat, "d"%char)] ++ line_of (ready (chars "XY"))))
  = (Some (mkPacket 5 (chars ":abc" ++ [zero])),
     mkRadio 101 (line_of [(2%nat, "d"%char)] ++ line_of (ready (chars "XY")))).
Proof.
  apply (get_response_packet_four_digits (chars "?????") 250%nat 10 5000
           (mkRadio 100
              (line_of (ready (chars "+IPD,"))
               ++ line_of (ready (chars "0004"))
               ++ line_of ((1%nat, ":"%char) :: ready (chars "abc"))
               ++ line_of [(2%nat, "d"%char)]
               ++ line_of (ready (chars "XY"))))
           (ready (chars "+IPD,")) (ready (chars "0004")) 1%nat
           (ready (chars "abc")) (2%nat, "d"%char)
           (line_of (ready (chars "XY")))).
  - lia.
  - lia.
  - reflexivity.
  - repeat constructor.
  - reflexivity.
  - reflexivity.
  - reflexivity.
  - vm_compute. reflexivity.
  - vm_compute. reflexivity.
  - vm_compute. reflexivity.
Defined.

(** X16: the line brings, each before the deadline of the step that reads
    it, "Content-Length: ", a length of at most fourteen decimal digits
    denoting a number below 65536, a carriage return, more header bytes that
    end with the blank line "\r\n\r\n" (the cursor of its search being zero
    when the blank line begins), and as many body bytes as the length says;
    for a ceiling from 1 to 65535, [get_http_response] returns a region of
    the size computed from the length and the ceiling, holding the body
    bytes that fit before a NUL, and leaves the line after the body. *)
Theorem get_http_response_body :
  forall stack idle_turns max_allocate_bytes timeout_ms radio marker field d
         headers middle payload rest,
    1 <= max_allocate_bytes -> max_allocate_bytes < 65536 ->
    bytes_of marker = ESP8266_CONTENT_LENGTH_HEADER ->
    Forall (fun c => isdigit c = true) (bytes_of field) ->
    (length field <= 14)%nat ->
    N.of_nat (length payload) = number_of (bytes_of field) ->
    N.of_nat (length payload) < 65536 ->
    bytes_of headers = middle ++ ESP8266_CRLFCRLF ->
    feed (rfr_body ESP8266_CRLFCRLF (wrap8 (strlen_P ESP8266_CRLFCRLF)))
         0 middle = (0, None) ->
    rx radio = line_of marker ++ line_of (field ++ [(d, CR)])
               ++ line_of headers ++ line_of payload ++ rest ->
    before_deadline (clock radio) CLIENT_CONNECT_TIMEOUT
                    (clock radio + delay_of marker) ->
    before_deadline (clock radio + delay_of marker) COMMAND_RESPONSE_TIMEOUT
                    (clock radio + delay_of marker
                     + delay_of (field ++ [(d, CR)])) ->
    before_deadline (clock radio + delay_of marker
                     + delay_of (field ++ [(d, CR)])) CLIENT_CONNECT_TIMEOUT
                    (clock radio + delay_of marker
                     + delay_of (field ++ [(d, CR)]) + delay_of headers) ->
    before_deadline (clock radio) timeout_ms
                    (clock radio + delay_of marker
                     + delay_of (field ++ [(d, CR)]) + delay_of headers
                     + delay_of payload) ->
    get_http_response stack idle_turns max_allocate_bytes timeout_ms radio
    = (Some (mkPacket
               (allocation_size max_allocate_bytes (N.of_nat (length payload)))
               (firstn (N.to_nat (allocation_size max_allocate_bytes
                                    (N.of_nat (length payload))) - 1)
                       (bytes_of payload) ++ [zero])),
       mkRadio (clock radio + delay_of marker
                + delay_of (field ++ [(d, CR)]) + delay_of headers
                + delay_of payload) rest).
Proof.
  intros stack idle_turns max_allocate_bytes timeout_ms radio marker field d
         headers middle payload rest H1 H16 Hmarker Hdigits Hlen HL Hsmall
         Hheaders Hzero Hrx Hdm Hdf Hdh Hdp.
  assert (Hfl : length (bytes_of field) = length field) by apply length_map.
  unfold get_http_response, millis.
  rewrite (read_for_response_from_zero ESP8266_CONTENT_LENGTH_HEADER
             CLIENT_CONNECT_TIMEOUT radio marker
             (line_of (field ++ [(d, CR)]) ++ line_of headers
              ++ line_of payload ++ rest) []);
    [ | discriminate | repeat constructor; discriminate | cbn; lia
      | exact Hrx | exact Hmarker | exact Hdm | reflexivity].
  cbn [N.eqb LITE_ESP8266_SUCCESS].
  rewrite (copy_serial_to_buffer_field stack CR 16
             COMMAND_RESPONSE_TIMEOUT _ field d
             (line_of headers ++ line_of payload ++ rest));
    [ | lia | lia | reflexivity
      | apply digits_without; [exact Hdigits|reflexivity]
      | lia | exact Hdf ].
  cbn [clock].
  rewrite parse_length_digits by (try assumption; lia).
  rewrite <- HL.
  rewrite (read_for_response_from_zero ESP8266_CRLFCRLF
             CLIENT_CONNECT_TIMEOUT _ headers (line_of payload ++ rest)
             middle);
    [ | discriminate | repeat constructor; discriminate | cbn; lia
      | reflexivity | exact Hheaders | exact Hdh | exact Hzero].
  cbn [N.eqb LITE_ESP8266_SUCCESS clock].
  unfold before_deadline in Hdp.
  rewrite receive_payload_line;
    [reflexivity | lia | lia | apply wrap32_lt | lia | lia].
Qed.

Lemma get_http_response_body_witness :
  get_http_response [] 250 10 5000
    (mkRadio 100
       (line_of (ready (chars "Content-Length: "))
        ++ line_of (ready (chars "2") ++ [(1%nat, CR)])
        ++ line_of (ready (LF :: chars "Connection: close"
                           ++ [CR; LF; CR; LF]))
        ++ line_of [(2%nat, "h"%char); (0%nat, "i"%char)]
        ++ line_of (ready (chars "X"))))
  = (Some (mkPacket 3 (chars "hi" ++ [zero])),
     mkRadio 103 (line_of (ready (chars "X")))).
Proof.
  apply (get_http_response_body [] 250%nat 10 5000
           (mkRadio 100
              (line_of (ready (chars "Content-Length: "))
               ++ line_of (ready (chars "2") ++ [(1%nat, CR)])
               ++ line_of (ready (LF :: chars "Connection: close"
                                  ++ [CR; LF; CR; LF]))
               ++ line_of [(2%nat, "h"%char); (0%nat, "i"%char)]
               ++ line_of (ready (chars "X"))))
           (ready (chars "Content-Length: ")) (ready (chars "2")) 1%nat
           (ready (LF :: chars "Connection: close" ++ [CR; LF; CR; LF]))
           (LF :: chars "Connection: close")
           [(2%nat, "h"%char); (0%nat, "i"%char)]
           (line_of (ready (chars "X")))).
  - lia.
  - lia.
  - reflexivity.
  - repeat constructor.
  - simpl. lia.
  - reflexivity.
  - reflexivity.
  - reflexivity.
  - vm_compute. reflexivity.
  - reflexivity.
  - vm_compute. reflexivity.
  - vm_compute. reflexivity.
  - vm_compute. reflexivity.
  - vm_compute. reflexivity.
Defined.

(** X17: [get_http_response] reads the length up to the carriage return and
    consumes that carriage return; when "Content-Length" is the last header,
    so that the line goes on with "\n\r\n" and a body in which "\r\n\r\n"
    does not occur, the search for the blank line fails and the function
    returns NULL. *)
Theorem get_http_response_last_header :
  forall stack idle_turns max_allocate_bytes timeout_ms radio marker field d
         tail body,
    bytes_of marker = ESP8266_CONTENT_LENGTH_HEADER ->
    ~ In CR (bytes_of field) ->
    (length field <= 14)%nat ->
    rx radio = line_of marker ++ line_of (field ++ [(d, CR)]) ++ tail ->
    heard tail = LF :: CR :: LF :: body ->
    contains ESP8266_CRLFCRLF (LF :: CR :: LF :: body) = false ->
    before_deadline (clock radio) CLIENT_CONNECT_TIMEOUT
                    (clock radio + delay_of marker) ->
    before_deadline (clock radio + delay_of marker) COMMAND_RESPONSE_TIMEOUT
                    (clock radio + delay_of marker
                     + delay_of (field ++ [(d, CR)])) ->
    fst (get_http_response stack idle_turns max_allocate_bytes timeout_ms
                           radio)
    = None.
Proof.
  intros stack idle_turns max_allocate_bytes timeout_ms radio marker field d
         tail body Hmarker Hno Hlen Hrx Htail Habsent Hdm Hdf.
  unfold get_http_response, millis.
  rewrite (read_for_response_from_zero ESP8266_CONTENT_LENGTH_HEADER
             CLIENT_CONNECT_TIMEOUT radio marker
             (line_of (field ++ [(d, CR)]) ++ tail) []);
    [ | discriminate | repeat constructor; discriminate | cbn; lia
      | exact Hrx | exact Hmarker | exact Hdm | reflexivity].
  cbn [N.eqb LITE_ESP8266_SUCCESS].
  rewrite (copy_serial_to_buffer_field stack CR 16
             COMMAND_RESPONSE_TIMEOUT _ field d tail);
    [ | lia | lia | reflexivity | exact Hno | lia | exact Hdf ].
  cbn [clock].
  pose proof (read_for_response_absent ESP8266_CRLFCRLF
                CLIENT_CONNECT_TIMEOUT
                (mkRadio (clock radio + delay_of marker
                          + delay_of (field ++ [(d, CR)])) tail)) as Habs.
  cbn [rx] in Habs. rewrite Htail in Habs.
  specialize (Habs ltac:(discriminate)
                   ltac:(repeat constructor; discriminate)
                   ltac:(cbn; lia) Habsent).
  destruct (read_for_response ESP8266_CRLFCRLF _ _) as [code radio3].
  cbn [fst] in Habs. subst code. reflexivity.
Qed.

Lemma get_http_response_last_header_witness :
  fst (get_http_response [] 250 10 5000
         (mkRadio 0 (line_of (ready (chars "Content-Length: "))
                     ++ line_of (ready (chars "2") ++ [(0%nat, CR)])
                     ++ line_of (ready ([LF; CR; LF] ++ chars "hi")))))
  = None.
Proof.
  apply (get_http_response_last_header [] 250%nat 10 5000
           (mkRadio 0 (line_of (ready (chars "Content-Length: "))
                       ++ line_of (ready (chars "2") ++ [(0%nat, CR)])
                       ++ line_of (ready ([LF; CR; LF] ++ chars "hi"))))
           (ready (chars "Content-Length: ")) (ready (chars "2")) 0%nat
           (line_of (ready ([LF; CR; LF] ++ chars "hi"))) (chars "hi")).
  - reflexivity.
  - simpl. intros [H|[]]. discriminate.
  - simpl. lia.
  - reflexivity.
  - reflexivity.
  - reflexivity.
  - vm_compute. reflexivity.
  - vm_compute. reflexivity.
Defined.

(** X18: when the marker "+IPD," is not among the bytes that the line
    brings, [get_response_packet] returns NULL, and only once the clock has
    reached the deadline of the marker search, CLIENT_CONNECT_TIMEOUT after
    the call, whatever [timeout_ms] is. *)
Theorem get_response_packet_no_marker :
  forall stack idle_turns max_allocate_bytes timeout_ms radio,
    contains ESP8266_DATA_PACKET (heard (rx radio)) = false ->
    fst (get_response_packet stack idle_turns max_allocate_bytes
                             timeout_ms radio)
    = None
    /\ ~ before_deadline (clock radio) CLIENT_CONNECT_TIMEOUT
           (clock (snd (get_response_packet stack idle_turns max_allocate_bytes
                                            timeout_ms radio))).
Proof.
  intros stack idle_turns max_allocate_bytes timeout_ms radio Habsent.
  pose proof (read_for_response_absent ESP8266_DATA_PACKET
                CLIENT_CONNECT_TIMEOUT radio ltac:(discriminate)
                ltac:(repeat constructor; discriminate)
                ltac:(cbn; lia) Habsent) as Habs.
  pose proof (read_for_response_exit ESP8266_DATA_PACKET
                CLIENT_CONNECT_TIMEOUT radio) as Hexit.
  unfold get_response_packet.
  destruct (read_for_response ESP8266_DATA_PACKET _ _) as [code radio1].
  cbn [fst] in Habs. subst code.
  destruct Hexit as [[Hc _]|[_ Hlate]]; [discriminate|].
  cbn. split; [reflexivity|exact Hlate].
Qed.

Lemma get_response_packet_no_marker_witness :
  fst (get_response_packet [] 250 10 0 (at_once 7 "+IPx+IP,D,5:hello")) = None
  /\ ~ before_deadline 7 CLIENT_CONNECT_TIMEOUT
         (clock (snd (get_response_packet [] 250 10 0
                        (at_once 7 "+IPx+IP,D,5:hello")))).
Proof.
  apply (get_response_packet_no_marker [] 250%nat 10 0
           (at_once 7 "+IPx+IP,D,5:hello")).
  reflexivity.
Defined.

(** * get_software_version, dns_lookup and send *)

Lemma before_deadline_within start_time timeout_ms at_time :
  start_time + timeout_ms < 4294967296 ->
  at_time < start_time + timeout_ms ->
  before_deadline start_time timeout_ms at_time.
Proof.
  intros Hwrap Hlt. unfold before_deadline. now rewrite wrap32_small.
Qed.

Lemma print_cstring s : cstring s -> print s = s.
Proof.
  intros Hc. unfold print, strlen. rewrite strlen_P_cstring by assumption.
  rewrite Nat2N.id. apply firstn_all.
Qed.

(** X19: the radio answers AT+GMR with three lines, each a label that ends
    with its first ":" and a value of at most 30 characters that a carriage
    return ends, and then "OK\r\n"; when the whole answer arrives within a
    second, [get_software_version] writes "AT+GMR\r\n", stores the three
    values, each followed by a NUL, in the three fields, returns true and
    leaves the line after the "OK\r\n". *)
Theorem get_software_version_parses :
  forall version radio label1 d1 value1 e1 label2 d2 value2 e2
         label3 d3 value3 e3 ok trailer rest,
    let answer := (label1 ++ [(d1, ":"%char)]) ++ (value1 ++ [(e1, CR)])
                  ++ (label2 ++ [(d2, ":"%char)]) ++ (value2 ++ [(e2, CR)])
                  ++ (label3 ++ [(d3, ":"%char)]) ++ (value3 ++ [(e3, CR)])
                  ++ ok in
    rx radio = line_of answer ++ rest ->
    ~ In ":"%char (bytes_of label1) -> ~ In ":"%char (bytes_of label2) ->
    ~ In ":"%char (bytes_of label3) ->
    ~ In CR (bytes_of value1) -> ~ In CR (bytes_of value2) ->
    ~ In CR (bytes_of value3) ->
    (length value1 <= 30)%nat -> (length value2 <= 30)%nat ->
    (length value3 <= 30)%nat ->
    bytes_of ok = trailer ++ ESP8266_RESPONSE_OK ->
    feed (rfr_body ESP8266_RESPONSE_OK (wrap8 (strlen_P ESP8266_RESPONSE_OK)))
         0 trailer = (0, None) ->
    delay_of answer < COMMAND_RESPONSE_TIMEOUT ->
    clock radio + delay_of answer + COMMAND_RESPONSE_TIMEOUT < 4294967296 ->
    get_software_version version radio
    = (chars "AT+GMR" ++ [CR; LF], true,
       mkVersion
         (bytes_of value1 ++ zero
            :: skipn (S (length value1)) (at_version version))
         (bytes_of value2 ++ zero
            :: skipn (S (length value2)) (sdk_version version))
         (bytes_of value3 ++ zero
            :: skipn (S (length value3)) (compile_time version)),
       mkRadio (clock radio + delay_of answer) rest).
Proof.
  intros version radio label1 d1 value1 e1 label2 d2 value2 e2
         label3 d3 value3 e3 ok trailer rest answer
         Hrx Hl1 Hl2 Hl3 Hv1 Hv2 Hv3 Hn1 Hn2 Hn3 Hok Hzero Hdelay Hclock.
  subst answer.
  set (t6 := line_of ok ++ rest).
  set (t5 := line_of (value3 ++ [(e3, CR)]) ++ t6).
  set (t4 := line_of (label3 ++ [(d3, ":"%char)]) ++ t5).
  set (t3 := line_of (value2 ++ [(e2, CR)]) ++ t4).
  set (t2 := line_of (label2 ++ [(d2, ":"%char)]) ++ t3).
  set (t1 := line_of (value1 ++ [(e1, CR)]) ++ t2).
  assert (Hrx' : rx radio = line_of (label1 ++ [(d1, ":"%char)]) ++ t1).
  { rewrite Hrx. subst t1 t2 t3 t4 t5 t6.
    rewrite !line_of_app, <- !app_assoc. reflexivity. }
  clear Hrx.
  rewrite !delay_of_app in Hdelay, Hclock |- *.
  unfold COMMAND_RESPONSE_TIMEOUT in Hdelay, Hclock.
  cbn [delay_of fold_right fst] in Hdelay, Hclock |- *.
  unfold get_software_version.
  unfold COMMAND_RESPONSE_TIMEOUT, VERSION_STRING_LENGTH.
  rewrite (read_until_first ":"%char 1000 radio label1 d1 t1 eq_refl);
    [ | exact Hrx' | exact Hl1
      | apply before_deadline_within; rewrite ?delay_of_app;
        cbn [delay_of fold_right fst]; lia ].
  rewrite (copy_serial_to_buffer_field (at_version version) CR 32 1000 _
             value1 e1 t2);
    [ | lia | lia | reflexivity | exact Hv1 | lia
      | apply before_deadline_within; cbn [clock]; rewrite ?delay_of_app;
        cbn [delay_of fold_right fst]; lia ].
  rewrite (read_until_first ":"%char 1000 _ label2 d2 t3 eq_refl);
    [ | reflexivity | exact Hl2
      | apply before_deadline_within; cbn [clock]; rewrite ?delay_of_app;
        cbn [delay_of fold_right fst]; lia ].
  rewrite (copy_serial_to_buffer_field (sdk_version version) CR 32 1000 _
             value2 e2 t4);
    [ | lia | lia | reflexivity | exact Hv2 | lia
      | apply before_deadline_within; cbn [clock]; rewrite ?delay_of_app;
        cbn [delay_of fold_right fst]; lia ].
  rewrite (read_until_first ":"%char 1000 _ label3 d3 t5 eq_refl);
    [ | reflexivity | exact Hl3
      | apply before_deadline_within; cbn [clock]; rewrite ?delay_of_app;
        cbn [delay_of fold_right fst]; lia ].
  rewrite (copy_serial_to_buffer_field (compile_time version) CR 32 1000 _
             value3 e3 t6);
    [ | lia | lia | reflexivity | exact Hv3 | lia
      | apply before_deadline_within; cbn [clock]; rewrite ?delay_of_app;
        cbn [delay_of fold_right fst]; lia ].
  rewrite (read_for_response_from_zero ESP8266_RESPONSE_OK 1000 _ ok rest
             trailer);
    [ | discriminate | repeat constructor; discriminate | cbn; lia
      | reflexivity | exact Hok
      | apply before_deadline_within; cbn [clock]; rewrite ?delay_of_app;
        cbn [delay_of fold_right fst]; lia
      | exact Hzero ].
  cbn [clock N.eqb LITE_ESP8266_SUCCESS].
  rewrite !delay_of_app. cbn [delay_of fold_right fst].
  f_equal. f_equal. lia.
Qed.

Lemma get_software_version_parses_witness :
  get_software_version
    (mkVersion (repeat "?"%char 32) (repeat "?"%char 32) (repeat "?"%char 32))
    (mkRadio 50
       (line_of ((ready (chars "AT version") ++ [(1%nat, ":"%char)])
                 ++ (ready (chars "1.3.0.0(Jul 14 2016 18:54:01)")
                     ++ [(2%nat, CR)])
                 ++ (ready (LF :: chars "SDK version") ++ [(0%nat, ":"%char)])
                 ++ (ready (chars "2.0.0(656edbf)") ++ [(0%nat, CR)])
                 ++ (ready (LF :: chars "compile time")
                     ++ [(3%nat, ":"%char)])
                 ++ (ready (chars "Jul 19 2016 18:43:55") ++ [(0%nat, CR)])
                 ++ ready (LF :: chars "OK" ++ [CR; LF]))
        ++ [Some "x"%char]))
  = (chars "AT+GMR" ++ [CR; LF], true,
     mkVersion
       (chars "1.3.0.0(Jul 14 2016 18:54:01)" ++ zero :: repeat "?"%char 2)
       (chars "2.0.0(656edbf)" ++ zero :: repeat "?"%char 17)
       (chars "Jul 19 2016 18:43:55" ++ zero :: repeat "?"%char 11),
     mkRadio 56 [Some "x"%char]).
Proof.
  apply (get_software_version_parses
           (mkVersion (repeat "?"%char 32) (repeat "?"%char 32)
                      (repeat "?"%char 32))
           (mkRadio 50
              (line_of ((ready (chars "AT version") ++ [(1%nat, ":"%char)])
                        ++ (ready (chars "1.3.0.0(Jul 14 2016 18:54:01)")
                            ++ [(2%nat, CR)])
                        ++ (ready (LF :: chars "SDK version")
                            ++ [(0%nat, ":"%char)])
                        ++ (ready (chars "2.0.0(656edbf)") ++ [(0%nat, CR)])
                        ++ (ready (LF :: chars "compile time")
                            ++ [(3%nat, ":"%char)])
                        ++ (ready (chars "Jul 19 2016 18:43:55")
                            ++ [(0%nat, CR)])
                        ++ ready (LF :: chars "OK" ++ [CR; LF]))
               ++ [Some "x"%char]))
           (ready (chars "AT version")) 1%nat
           (ready (chars "1.3.0.0(Jul 14 2016 18:54:01)")) 2%nat
           (ready (LF :: chars "SDK version")) 0%nat
           (ready (chars "2.0.0(656edbf)")) 0%nat
           (ready (LF :: chars "compile time")) 3%nat
           (ready (chars "Jul 19 2016 18:43:55")) 0%nat
           (ready (LF :: chars "OK" ++ [CR; LF])) [LF] [Some "x"%char]).
  - reflexivity.
  - vm_compute. intuition discriminate.
  - vm_compute. intuition discriminate.
  - vm_compute. intuition discriminate.
  - vm_compute. intuition discriminate.
  - vm_compute. intuition discriminate.
  - vm_compute. intuition discriminate.
  - simpl. lia.
  - simpl. lia.
  - simpl. lia.
  - reflexivity.
  - reflexivity.
  - vm_compute. reflexivity.
  - vm_compute. reflexivity.
Defined.

(** ** dns_lookup *)

(** X20: the line brings, within a second, some bytes and "+CIPDOMAIN:"
    (found before any "ERROR\r\n"), an address of at most 15 characters, a
    carriage return, and more bytes that end with "OK\r\n"; [dns_lookup]
    writes AT+CIPDOMAIN= and the quoted domain, stores the address followed
    by a NUL in the 16-byte buffer, also when the address has the full 15
    characters, returns true and leaves the line after the "OK\r\n". *)
Theorem dns_lookup_address :
  forall domain ip_address radio found before f ip d ok trailer rest,
    let answer := found ++ (ip ++ [(d, CR)]) ++ ok in
    rx radio = line_of answer ++ rest ->
    bytes_of found = before ++ ESP8266_DNS_LOOKUP_PREFIX ->
    contains ESP8266_RESPONSE_ERROR
             (before ++ removelast ESP8266_DNS_LOOKUP_PREFIX) = false ->
    feed (rfrs_body ESP8266_DNS_LOOKUP_PREFIX ESP8266_RESPONSE_ERROR
                    (wrap8 (strlen_P ESP8266_DNS_LOOKUP_PREFIX))
                    (wrap8 (strlen_P ESP8266_RESPONSE_ERROR)))
         (0, 0) before = ((0, f), None) ->
    ~ In CR (bytes_of ip) -> (length ip <= 15)%nat ->
    bytes_of ok = trailer ++ ESP8266_RESPONSE_OK ->
    feed (rfr_body ESP8266_RESPONSE_OK (wrap8 (strlen_P ESP8266_RESPONSE_OK)))
         0 trailer = (0, None) ->
    delay_of answer < COMMAND_RESPONSE_TIMEOUT ->
    clock radio + delay_of answer + WIFI_CONNECT_TIMEOUT < 4294967296 ->
    dns_lookup domain ip_address radio
    = (chars "AT+CIPDOMAIN=" ++ QUOTE :: print domain ++ [QUOTE; CR; LF],
       true,
       bytes_of ip ++ zero :: skipn (S (length ip)) ip_address,
       mkRadio (clock radio + delay_of answer) rest).
Proof.
  intros domain ip_address radio found before f ip d ok trailer rest answer
         Hrx Hfound Hno Hzero Hcr Hlen Hok Hokzero Hdelay Hclock.
  subst answer.
  rewrite !delay_of_app in Hdelay, Hclock |- *.
  unfold COMMAND_RESPONSE_TIMEOUT, WIFI_CONNECT_TIMEOUT in Hdelay, Hclock.
  cbn [delay_of fold_right fst] in Hdelay, Hclock |- *.
  assert (Hil : length (bytes_of ip) = length ip) by apply length_map.
  unfold dns_lookup.
  unfold COMMAND_RESPONSE_TIMEOUT, WIFI_CONNECT_TIMEOUT, IP_ADDRESS_LENGTH.
  rewrite (read_for_responses_pass_found ESP8266_DNS_LOOKUP_PREFIX
             ESP8266_RESPONSE_ERROR 30000 radio found
             (line_of (ip ++ [(d, CR)]) ++ line_of ok ++ rest) before f);
    [ | discriminate | discriminate | repeat constructor; discriminate
      | repeat constructor; discriminate | cbn; lia | cbn; lia
      | repeat constructor
      | rewrite Hrx, !line_of_app, <- !app_assoc; reflexivity
      | exact Hfound | exact Hno
      | apply before_deadline_within; lia | exact Hzero ].
  cbn [N.eqb LITE_ESP8266_SUCCESS].
  destruct (Nat.eq_dec (length ip) 15) as [Hfull|Hshort].
  - (* the address fills the buffer: the carriage return stays on the line *)
    rewrite (copy_serial_to_buffer_fills ip_address CR 16 1000 _ ip
               (line_of ((d, CR) :: ok) ++ rest));
      [ | lia | lia
        | cbn [rx]; rewrite line_of_app, <- app_assoc; f_equal;
          change ((d, CR) :: ok) with ([(d, CR)] ++ ok);
          rewrite line_of_app, <- app_assoc; reflexivity
        | exact Hcr | rewrite Hfull; reflexivity
        | apply before_deadline_within; cbn [clock]; lia ].
    rewrite (read_for_response_from_zero ESP8266_RESPONSE_OK 1000 _
               ((d, CR) :: ok) rest (CR :: trailer));
      [ | discriminate | repeat constructor; discriminate | cbn; lia
        | reflexivity
        | cbn [bytes_of map snd]; fold (bytes_of ok); rewrite Hok;
          reflexivity
        | apply before_deadline_within; cbn [clock delay_of fold_right fst];
          fold (delay_of ok); lia
        | exact Hokzero ].
    cbn [clock delay_of fold_right fst]. fold (delay_of ok).
    rewrite Hfull. f_equal. f_equal. lia.
  - rewrite (copy_serial_to_buffer_field ip_address CR 16 1000 _ ip d
               (line_of ok ++ rest));
      [ | lia | lia | reflexivity | exact Hcr | lia
        | apply before_deadline_within; cbn [clock]; rewrite ?delay_of_app;
          cbn [delay_of fold_right fst]; lia ].
    rewrite (read_for_response_from_zero ESP8266_RESPONSE_OK 1000 _ ok rest
               trailer);
      [ | discriminate | repeat constructor; discriminate | cbn; lia
        | reflexivity | exact Hok
        | apply before_deadline_within; cbn [clock]; rewrite ?delay_of_app;
          cbn [delay_of fold_right fst]; lia
        | exact Hokzero ].
    cbn [clock]. rewrite !delay_of_app. cbn [delay_of fold_right fst].
    f_equal. f_equal. lia.
Qed.

Lemma dns_lookup_address_witness :
  dns_lookup (chars "example.com") (repeat "?"%char 16)
    (mkRadio 9
       (line_of (ready (chars "+CIPDOMAIN:")
                 ++ (ready (chars "216.158.216.142") ++ [(2%nat, CR)])
                 ++ ready (LF :: CR :: LF :: chars "OK" ++ [CR; LF]))
        ++ [Some "x"%char]))
  = (chars "AT+CIPDOMAIN=" ++ QUOTE :: chars "example.com"
       ++ [QUOTE; CR; LF],
     true, chars "216.158.216.142" ++ [zero], mkRadio 11 [Some "x"%char]).
Proof.
  apply (dns_lookup_address (chars "example.com") (repeat "?"%char 16)
           (mkRadio 9
              (line_of (ready (chars "+CIPDOMAIN:")
                        ++ (ready (chars "216.158.216.142") ++ [(2%nat, CR)])
                        ++ ready (LF :: CR :: LF :: chars "OK" ++ [CR; LF]))
               ++ [Some "x"%char]))
           (ready (chars "+CIPDOMAIN:")) [] 0
           (ready (chars "216.158.216.142")) 2%nat
           (ready (LF :: CR :: LF :: chars "OK" ++ [CR; LF]))
           [LF; CR; LF] [Some "x"%char]).
  - reflexivity.
  - reflexivity.
  - reflexivity.
  - reflexivity.
  - vm_compute. intuition discriminate.
  - simpl. lia.
  - reflexivity.
  - reflexivity.
  - vm_compute. reflexivity.
  - vm_compute. reflexivity.
Defined.

(** X21: when the line brings, before the deadline, some bytes and then
    "ERROR\r\n", with "+CIPDOMAIN:" not among them and no partial match of
    "ERROR\r\n" in progress when it begins, [dns_lookup] returns false,
    leaves the address buffer as it was and leaves the line right after the
    "ERROR\r\n". *)
Theorem dns_lookup_error :
  forall domain ip_address radio arrivals before p rest,
    rx radio = line_of arrivals ++ rest ->
    bytes_of arrivals = before ++ ESP8266_RESPONSE_ERROR ->
    contains ESP8266_DNS_LOOKUP_PREFIX (before ++ ESP8266_RESPONSE_ERROR)
    = false ->
    feed (rfrs_body ESP8266_DNS_LOOKUP_PREFIX ESP8266_RESPONSE_ERROR
                    (wrap8 (strlen_P ESP8266_DNS_LOOKUP_PREFIX))
                    (wrap8 (strlen_P ESP8266_RESPONSE_ERROR)))
         (0, 0) before = ((p, 0), None) ->
    before_deadline (clock radio) WIFI_CONNECT_TIMEOUT
                    (clock radio + delay_of arrivals) ->
    dns_lookup domain ip_address radio
    = (chars "AT+CIPDOMAIN=" ++ QUOTE :: print domain ++ [QUOTE; CR; LF],
       false, ip_address, mkRadio (clock radio + delay_of arrivals) rest).
Proof.
  intros domain ip_address radio arrivals before p rest
         Hrx Hbytes Hno Hzero Htime.
  unfold dns_lookup.
  rewrite (read_for_responses_fail_found ESP8266_DNS_LOOKUP_PREFIX
             ESP8266_RESPONSE_ERROR WIFI_CONNECT_TIMEOUT radio arrivals rest
             before p);
    [ reflexivity | discriminate | discriminate
      | repeat constructor; discriminate | repeat constructor; discriminate
      | cbn; lia | cbn; lia | repeat constructor
      | exact Hrx | exact Hbytes | exact Hno | exact Htime | exact Hzero ].
Qed.

Lemma dns_lookup_error_witness :
  dns_lookup (chars "no.such.host") (chars "0.0.0.0")
    (mkRadio 9
       (line_of ((15%nat, "D"%char)
                 :: ready (chars "NS Fail" ++ [CR; LF; CR; LF]
                           ++ chars "ERROR" ++ [CR; LF]))
        ++ [Some "x"%char]))
  = (chars "AT+CIPDOMAIN=" ++ QUOTE :: chars "no.such.host"
       ++ [QUOTE; CR; LF],
     false, chars "0.0.0.0", mkRadio 24 [Some "x"%char]).
Proof.
  apply (dns_lookup_error (chars "no.such.host") (chars "0.0.0.0")
           (mkRadio 9
              (line_of ((15%nat, "D"%char)
                        :: ready (chars "NS Fail" ++ [CR; LF; CR; LF]
                                  ++ chars "ERROR" ++ [CR; LF]))
               ++ [Some "x"%char]))
           ((15%nat, "D"%char)
            :: ready (chars "NS Fail" ++ [CR; LF; CR; LF]
                      ++ chars "ERROR" ++ [CR; LF]))
           (chars "DNS Fail" ++ [CR; LF; CR; LF]) 0 [Some "x"%char]).
  - reflexivity.
  - reflexivity.
  - reflexivity.
  - reflexivity.
  - vm_compute. reflexivity.
Defined.

(** ** send *)

Lemma number_of_app a b :
  number_of (a ++ b)
  = fold_left (fun acc c => 10 * acc + (N_of_ascii c - 48)) b (number_of a).
Proof. unfold number_of. apply fold_left_app. Qed.

Lemma utoa_digit_code n : N_of_ascii (ascii_of_N (48 + n mod 10)) = 48 + n mod 10.
Proof.
  apply N_ascii_embedding.
  pose proof (N.mod_lt n 10 ltac:(lia)). lia.
Qed.

Lemma utoa_digits_acc turns : forall n acc,
  utoa_digits turns n acc = utoa_digits turns n [] ++ acc.
Proof.
  induction turns as [|turns IH]; intros n acc; [reflexivity|].
  cbn [utoa_digits]. destruct (n / 10 =? 0); [reflexivity|].
  rewrite IH, (IH _ [_]), <- app_assoc. reflexivity.
Qed.

Lemma utoa_digits_isdigit turns : forall n,
  Forall (fun c => isdigit c = true) (utoa_digits turns n []).
Proof.
  induction turns as [|turns IH]; intros n; [constructor|].
  assert (Hd : isdigit (ascii_of_N (48 + n mod 10)) = true).
  { unfold isdigit. cbv zeta. rewrite utoa_digit_code.
    pose proof (N.mod_lt n 10 ltac:(lia)) as Hm.
    generalize dependent (n mod 10). intros m Hm.
    apply andb_true_iff. split; apply N.leb_le; lia. }
  cbn [utoa_digits]. destruct (n / 10 =? 0).
  - now constructor.
  - rewrite utoa_digits_acc. apply Forall_app. split; [apply IH|].
    now constructor.
Qed.

Lemma utoa_digits_nonempty turns n : utoa_digits (S turns) n [] <> [].
Proof.
  cbn [utoa_digits]. destruct (n / 10 =? 0); [discriminate|].
  rewrite utoa_digits_acc. intros H. apply app_eq_nil in H as [_ H].
  discriminate.
Qed.

(** The digits written denote the value. *)
Lemma utoa_digits_number turns : forall n,
  n < 10 ^ N.of_nat turns -> number_of (utoa_digits turns n []) = n.
Proof.
  induction turns as [|turns IH]; intros n Hn.
  - cbn in *. lia.
  - cbn [utoa_digits]. rewrite Nat2N.inj_succ, N.pow_succ_r' in Hn.
    pose proof (N.Div0.div_mod n 10) as Hdm.
    pose proof (N.mod_lt n 10 ltac:(lia)) as Hm.
    destruct (n / 10 =? 0) eqn:E.
    + apply N.eqb_eq in E. unfold number_of. cbn [fold_left].
      rewrite utoa_digit_code. rewrite E in Hdm.
      replace (10 * 0 + (48 + n mod 10 - 48)) with (10 * 0 + n mod 10)
        by (generalize (n mod 10); intros; lia).
      symmetry. exact Hdm.
    + rewrite utoa_digits_acc, number_of_app. cbn [fold_left].
      rewrite utoa_digit_code, IH;
        [|apply N.Div0.div_lt_upper_bound; exact Hn].
      replace (48 + n mod 10 - 48) with (n mod 10)
        by (generalize (n mod 10); intros; lia).
      symmetry. exact Hdm.
Qed.

Lemma digits_cstring digits :
  Forall (fun c => isdigit c = true) digits -> cstring digits.
Proof.
  intros H. unfold cstring. eapply Forall_impl; [|exact H].
  cbn. intros c Hc ->. discriminate.
Qed.

Lemma strlen_P_terminated s tl :
  cstring s -> strlen_P (s ++ zero :: tl) = N.of_nat (length s).
Proof.
  induction 1 as [|c s Hc Hs IH]; [reflexivity|].
  cbn [app strlen_P length]. destruct (Ascii.eqb c zero) eqn:E.
  - apply Ascii.eqb_eq in E. contradiction.
  - rewrite IH. lia.
Qed.

Lemma print_terminated s tl : cstring s -> print (s ++ zero :: tl) = s.
Proof.
  intros Hc. unfold print, strlen. rewrite strlen_P_terminated by assumption.
  rewrite Nat2N.id, firstn_app, firstn_all, Nat.sub_diag. cbn [firstn].
  apply app_nil_r.
Qed.

(** The command that announces [value] bytes. *)
Lemma send_command_length value :
  value < 65536 ->
  exists digits,
    Forall (fun c => isdigit c = true) digits
    /\ number_of digits = value
    /\ send_command_with_prefix ESP8266_COMMAND_SEND_DATA (Some (utoa value))
       = chars "AT+CIPSEND=" ++ digits ++ [CR; LF].
Proof.
  intros Hv. exists (utoa_digits 5 value []).
  pose proof (utoa_digits_isdigit 5 value) as Hd.
  split; [exact Hd|]. split; [apply utoa_digits_number; cbn; lia|].
  unfold send_command_with_prefix, send_command, utoa.
  rewrite wrap16_small by assumption.
  rewrite (print_terminated _ [] (digits_cstring _ Hd)).
  unfold strlen. rewrite (strlen_P_terminated _ [] (digits_cstring _ Hd)).
  destruct (0 <? N.of_nat (length (utoa_digits 5 value []))) eqn:E.
  - reflexivity.
  - apply N.ltb_ge in E.
    pose proof (utoa_digits_nonempty 4 value) as Hne.
    destruct (utoa_digits 5 value []); [congruence|cbn [length] in E; lia].
Qed.

(** X22: [send] writes AT+CIPSEND= with the length of the data in decimal
    digits, and writes the data after it only when it has read "OK\r\n" on
    the line; otherwise it returns false with nothing more written.  The
    data are never sent to a radio that did not answer OK. *)
Theorem send_after_ok :
  forall data radio,
    cstring data -> N.of_nat (length data) < 65536 ->
    exists digits,
      Forall (fun c => isdigit c = true) digits
      /\ number_of digits = N.of_nat (length data)
      /\ ((fst (fst (send data radio))
           = chars "AT+CIPSEND=" ++ digits ++ [CR; LF]
           /\ snd (fst (send data radio)) = false)
          \/ (fst (fst (send data radio))
              = chars "AT+CIPSEND=" ++ digits ++ [CR; LF] ++ data
              /\ exists arrivals before tail,
                   rx radio = line_of arrivals ++ tail
                   /\ bytes_of arrivals = before ++ ESP8266_RESPONSE_OK)).
Proof.
  intros data radio Hc Hlen.
  destruct (send_command_length (N.of_nat (length data)) Hlen)
    as (digits & Hd & Hnum & Hcmd).
  exists digits. split; [exact Hd|]. split; [exact Hnum|].
  unfold send. unfold strlen. rewrite strlen_P_cstring by assumption.
  rewrite Hcmd.
  destruct (read_for_responses ESP8266_RESPONSE_OK ESP8266_RESPONSE_ERROR
              COMMAND_RESPONSE_TIMEOUT radio) as [code radio1] eqn:Hcall.
  destruct (LITE_ESP8266_SUCCESS =? code) eqn:E.
  - apply N.eqb_eq in E. subst code. right.
    destruct (read_for_response ESP8266_SEND_OK _ radio1) as [code2 radio2].
    cbn [fst snd]. split.
    + rewrite (print_cstring data Hc), <- !app_assoc. reflexivity.
    + assert (Hok : cstring ESP8266_RESPONSE_OK)
        by (repeat constructor; discriminate).
      assert (Herr : cstring ESP8266_RESPONSE_ERROR)
        by (repeat constructor; discriminate).
      destruct (read_for_responses_found ESP8266_RESPONSE_OK
                  ESP8266_RESPONSE_ERROR COMMAND_RESPONSE_TIMEOUT radio
                  LITE_ESP8266_SUCCESS radio1
                  ltac:(discriminate) ltac:(discriminate) Hok Herr
                  ltac:(cbn; lia) ltac:(cbn; lia) Hcall)
        as [Ht|(arrivals & before & Hrx & [[_ Hb]|[Hf _]])];
        try discriminate.
      now exists arrivals, before, (rx radio1).
  - left. cbn [fst snd]. now split.
Qed.

Lemma send_after_ok_witness :
  exists digits,
    Forall (fun c => isdigit c = true) digits
    /\ number_of digits = N.of_nat (length (chars "GET / HTTP/1.0"))
    /\ ((fst (fst (send (chars "GET / HTTP/1.0") (at_once 0 "busy")))
         = chars "AT+CIPSEND=" ++ digits ++ [CR; LF]
         /\ snd (fst (send (chars "GET / HTTP/1.0") (at_once 0 "busy")))
            = false)
        \/ (fst (fst (send (chars "GET / HTTP/1.0") (at_once 0 "busy")))
            = chars "AT+CIPSEND=" ++ digits ++ [CR; LF]
              ++ chars "GET / HTTP/1.0"
            /\ exists arrivals before tail,
                 rx (at_once 0 "busy") = line_of arrivals ++ tail
                 /\ bytes_of arrivals = before ++ ESP8266_RESPONSE_OK)).
Proof.
  apply (send_after_ok (chars "GET / HTTP/1.0") (at_once 0 "busy")).
  - repeat constructor; discriminate.
  - vm_compute. reflexivity.
Defined.

(** ** connect_to_ap *)

Lemma skipn_one_zeros k : skipn 1 (repeat zero (S k)) = repeat zero k.
Proof. reflexivity. Qed.

Lemma strlen_zeros s k :
  cstring s -> strlen (s ++ repeat zero (S k)) = N.of_nat (length s).
Proof. intros Hc. unfold strlen. now apply strlen_P_terminated. Qed.

(** A character put at the end of the string takes the place of its NUL;
    the zeros that follow end the longer string. *)
Lemma put_at_end_zeros s k c :
  cstring s ->
  put_at_end (s ++ repeat zero (S k)) c = (s ++ [c]) ++ repeat zero k.
Proof.
  intros Hc. unfold put_at_end, poke. rewrite strlen_zeros by assumption.
  rewrite Nat2N.id, poke_nat_at_end, skipn_one_zeros, <- app_assoc.
  reflexivity.
Qed.

Lemma store_chars_zeros src : forall s k,
  (length src <= k)%nat ->
  store_chars (length s) src (s ++ repeat zero (S k))
  = (s ++ src) ++ repeat zero (S k - length src).
Proof.
  induction src as [|c src IH]; intros s k Hk; cbn [store_chars length].
  - rewrite poke_nat_at_end, skipn_one_zeros, app_nil_r. reflexivity.
  - cbn [length] in Hk. destruct k as [|k]; [lia|].
    rewrite poke_nat_at_end, skipn_one_zeros.
    specialize (IH (s ++ [c]) k ltac:(lia)).
    rewrite length_app in IH. cbn [length] in IH.
    replace (S (length s)) with (length s + 1)%nat by lia.
    rewrite <- app_assoc in IH. cbn [app] in IH. rewrite IH.
    rewrite <- !app_assoc. reflexivity.
Qed.

Lemma strcat_P_zeros s src k :
  cstring s -> cstring src -> (length src <= k)%nat ->
  strcat_P (s ++ repeat zero (S k)) src
  = (s ++ src) ++ repeat zero (S k - length src).
Proof.
  intros Hs Hsrc Hk. unfold strcat_P.
  rewrite strlen_zeros, Nat2N.id, (print_cstring src Hsrc) by assumption.
  now apply store_chars_zeros.
Qed.

Lemma cstring_app a b : cstring a -> cstring b -> cstring (a ++ b).
Proof. intros Ha Hb. apply Forall_app. now split. Qed.

Lemma cstring_char c : c <> zero -> cstring [c].
Proof. intros Hc. now repeat constructor. Qed.

(** One more quoted string, after a comma, at the end of the buffer. *)
Lemma join_comma_quoted s arg k :
  cstring s -> cstring arg -> (length arg + 3 <= k)%nat ->
  put_at_end
    (strcat_P (put_at_end (put_at_end (s ++ repeat zero (S k)) ","%char)
                          QUOTE) arg) QUOTE
  = (s ++ comma_quoted (Some arg)) ++ repeat zero (S k - (length arg + 3)).
Proof.
  intros Hs Harg Hk.
  destruct k as [|[|[|k]]]; try lia.
  rewrite put_at_end_zeros by assumption.
  rewrite put_at_end_zeros
    by (apply cstring_app; [assumption|apply cstring_char; discriminate]).
  rewrite strcat_P_zeros;
    [ | repeat apply cstring_app; try assumption;
        apply cstring_char; discriminate
      | assumption | lia ].
  replace (S (S k) - length arg)%nat with (S (S k - length arg)) by lia.
  rewrite put_at_end_zeros
    by (repeat apply cstring_app; try assumption;
        apply cstring_char; discriminate).
  unfold comma_quoted, quoted. rewrite <- !app_assoc. cbn [app].
  replace (S k - length arg)%nat
    with (S (S (S (S k))) - (length arg + 3))%nat by lia.
  rewrite <- !app_assoc. reflexivity.
Qed.

(** The buffer that [connect_to_ap] builds. *)
Lemma join_ap_buffer_zeros ssid password bssid :
  cstring ssid ->
  match password with Some s => cstring s | None => True end ->
  match bssid with Some s => cstring s | None => True end ->
  (length (quoted ssid ++ comma_quoted password ++ comma_quoted bssid)
   <= 127)%nat ->
  join_ap_buffer ssid password bssid
  = (quoted ssid ++ comma_quoted password ++ comma_quoted bssid)
    ++ repeat zero
         (128 - length (quoted ssid ++ comma_quoted password
                        ++ comma_quoted bssid)).
Proof.
  intros Hssid Hpw Hbssid Hlen. unfold join_ap_buffer.
  assert (Hq : cstring [QUOTE]) by (apply cstring_char; discriminate).
  rewrite !length_app in Hlen. unfold quoted in Hlen.
  cbn [length] in Hlen. rewrite length_app in Hlen. cbn [length] in Hlen.
  change (poke 0 QUOTE (repeat zero 128)) with ([QUOTE] ++ repeat zero 127).
  change 127%nat with (S 126) at 1.
  rewrite strcat_P_zeros by (try assumption; lia).
  replace (S 126 - length ssid)%nat with (S (126 - length ssid)) by lia.
  rewrite put_at_end_zeros by (apply cstring_app; assumption).
  assert (Hquoted : cstring (([QUOTE] ++ ssid) ++ [QUOTE]))
    by (repeat apply cstring_app; assumption).
  change (([QUOTE] ++ ssid) ++ [QUOTE]) with (quoted ssid) in *.
  destruct password as [pw|].
  - cbn [comma_quoted length] in Hlen. unfold quoted in Hlen.
    cbn [length] in Hlen. rewrite length_app in Hlen. cbn [length] in Hlen.
    replace (126 - length ssid)%nat with (S (125 - length ssid)) by lia.
    rewrite join_comma_quoted by (try assumption; lia).
    assert (Hboth : cstring (quoted ssid ++ comma_quoted (Some pw))).
    { apply cstring_app; [assumption|]. unfold comma_quoted, quoted.
      change (","%char :: QUOTE :: pw ++ [QUOTE])
        with ([","%char; QUOTE] ++ pw ++ [QUOTE]).
      repeat apply cstring_app; try assumption.
      repeat constructor; discriminate. }
    destruct bssid as [b|].
    + cbn [comma_quoted length] in Hlen. unfold quoted in Hlen.
      cbn [length] in Hlen. rewrite length_app in Hlen. cbn [length] in Hlen.
      replace (S (125 - length ssid) - (length pw + 3))%nat
        with (S (122 - length ssid - length pw)) by lia.
      rewrite join_comma_quoted by (try assumption; lia).
      rewrite <- !app_assoc. do 3 f_equal.
      rewrite !length_app. unfold quoted, comma_quoted, quoted.
      cbn [length]. rewrite !length_app. cbn [length]. f_equal. lia.
    + cbn [comma_quoted]. rewrite app_nil_r, <- !app_assoc. do 2 f_equal.
      rewrite !length_app. unfold quoted, comma_quoted, quoted.
      cbn [length]. rewrite !length_app. cbn [length]. f_equal. lia.
  - cbn [comma_quoted app] in *. destruct bssid as [b|].
    + cbn [comma_quoted length] in Hlen. unfold quoted in Hlen.
      cbn [length] in Hlen. rewrite length_app in Hlen. cbn [length] in Hlen.
      replace (126 - length ssid)%nat with (S (125 - length ssid)) by lia.
      rewrite join_comma_quoted by (try assumption; lia).
      rewrite <- !app_assoc. do 2 f_equal.
      rewrite !length_app. unfold quoted, comma_quoted, quoted.
      cbn [length]. rewrite !length_app. cbn [length]. f_equal. lia.
    + cbn [comma_quoted]. rewrite app_nil_r. f_equal.
      unfold quoted. cbn [length]. rewrite length_app. cbn [length].
      f_equal. lia.
Qed.

(** X23: [connect_to_ap] with an SSID, and a password and a BSSID when they
    are given, that fit the buffer between their quotes and commas (127
    characters at most, which the documented 32, 64 and 17 characters do):
    the 128 bytes of the buffer are never exceeded, and the command sent is
    [AT+CWJAP_DEF=] followed by the quoted SSID, then a comma and the quoted
    password when there is one, then a comma and the quoted BSSID when there
    is one, and CR LF.  A BSSID given without a password so takes the
    password's place in the command. *)
Theorem connect_to_ap_command :
  forall ssid password bssid radio,
    cstring ssid ->
    match password with Some s => cstring s | None => True end ->
    match bssid with Some s => cstring s | None => True end ->
    (length (quoted ssid ++ comma_quoted password ++ comma_quoted bssid)
     <= 127)%nat ->
    length (join_ap_buffer ssid password bssid) = 128%nat
    /\ fst (fst (connect_to_ap ssid password bssid radio))
       = chars "AT+CWJAP_DEF=" ++ quoted ssid ++ comma_quoted password
         ++ comma_quoted bssid ++ [CR; LF].
Proof.
  intros ssid password bssid radio Hssid Hpw Hbssid Hlen.
  pose proof (join_ap_buffer_zeros ssid password bssid Hssid Hpw Hbssid Hlen)
    as Hbuf.
  set (command := quoted ssid ++ comma_quoted password ++ comma_quoted bssid)
    in *.
  assert (Hcmd : cstring command).
  { unfold command, quoted.
    change (QUOTE :: ssid ++ [QUOTE]) with ([QUOTE] ++ ssid ++ [QUOTE]).
    assert (Hq : cstring [QUOTE]) by (apply cstring_char; discriminate).
    assert (Hcq : cstring [","%char; QUOTE])
      by (repeat constructor; discriminate).
    repeat apply cstring_app; try assumption.
    - destruct password as [pw|]; [|constructor].
      unfold comma_quoted, quoted.
      change (","%char :: QUOTE :: pw ++ [QUOTE])
        with ([","%char; QUOTE] ++ pw ++ [QUOTE]).
      repeat apply cstring_app; assumption.
    - destruct bssid as [b|]; [|constructor].
      unfold comma_quoted, quoted.
      change (","%char :: QUOTE :: b ++ [QUOTE])
        with ([","%char; QUOTE] ++ b ++ [QUOTE]).
      repeat apply cstring_app; assumption. }
  split.
  - rewrite Hbuf, length_app, repeat_length. lia.
  - unfold connect_to_ap.
    destruct (read_for_responses ESP8266_RESPONSE_OK ESP8266_RESPONSE_FAIL
                WIFI_CONNECT_TIMEOUT radio) as [code radio'].
    cbn [fst]. unfold send_command_with_prefix, send_command.
    rewrite Hbuf.
    replace (128 - length command)%nat with (S (127 - length command))
      by lia.
    cbn [repeat]. rewrite (print_terminated _ _ Hcmd).
    unfold strlen. rewrite (strlen_P_terminated _ _ Hcmd).
    assert (Hne : (0 <? N.of_nat (length command)) = true).
    { apply N.ltb_lt. unfold command, quoted. cbn [length app]. lia. }
    rewrite Hne. unfold command. rewrite <- !app_assoc. reflexivity.
Qed.

Lemma connect_to_ap_command_witness :
  length (join_ap_buffer (chars "home") (Some (chars "secret")) None)
  = 128%nat
  /\ fst (fst (connect_to_ap (chars "home") (Some (chars "secret")) None
                 (mkRadio 0 [])))
     = chars "AT+CWJAP_DEF=" ++ quoted (chars "home")
       ++ comma_quoted (Some (chars "secret")) ++ comma_quoted None
       ++ [CR; LF].
Proof.
  apply (connect_to_ap_command (chars "home") (Some (chars "secret")) None
           (mkRadio 0 [])).
  - repeat constructor; discriminate.
  - repeat constructor; discriminate.
  - exact I.
  - vm_compute. lia.
Defined.

(** * The length parser: claim C9 *)

Lemma skip_space_blanks blanks s :
  Forall (fun c => isspace c = true) blanks ->
  skip_space (blanks ++ s) = skip_space s.
Proof.
  induction 1 as [|c blanks Hc _ IH]; [reflexivity|].
  cbn [app skip_space]. now rewrite Hc.
Qed.

(** [atoi]'s loop on a run of digits that anything but a digit ends. *)
Lemma atoi_digits_run digits : forall acc rest,
  Forall (fun c => isdigit c = true) digits ->
  isdigit (hd zero rest) = false ->
  atoi_digits (Z.of_N acc) (digits ++ rest)
  = Z.of_N (fold_left (fun a c => 10 * a + (N_of_ascii c - 48)) digits acc).
Proof.
  induction digits as [|c digits IH]; intros acc rest Hd Hrest.
  - destruct rest as [|x rest]; [reflexivity|].
    cbn [app atoi_digits fold_left hd] in *. now rewrite Hrest.
  - inversion Hd as [|c' ds Hc Hds]; subst. cbn [app atoi_digits fold_left].
    rewrite Hc. pose proof (isdigit_range c Hc).
    replace (Z.of_N acc * 10 + (uint8 c - 48))%Z
      with (Z.of_N (10 * acc + (N_of_ascii c - 48)))
      by (unfold uint8; lia).
    now apply IH.
Qed.

(** What the [unsigned int] holds of a number and of its negation. *)
Lemma unsigned_of_number n :
  unsigned_of_int (int16 (Z.of_N n)) = n mod 65536.
Proof.
  rewrite unsigned_of_int16. change 65536%Z with (Z.of_N 65536).
  rewrite <- N2Z.inj_mod. apply N2Z.id.
Qed.

Lemma unsigned_of_negated n :
  unsigned_of_int (int16 (- Z.of_N n)) = (65536 - n mod 65536) mod 65536.
Proof.
  rewrite unsigned_of_int16.
  pose proof (N.mod_lt n 65536 ltac:(lia)) as Hlt.
  apply N2Z.inj. rewrite Z2N.id by (apply Z.mod_pos_bound; lia).
  rewrite N2Z.inj_mod, N2Z.inj_sub by lia. rewrite N2Z.inj_mod.
  change (Z.of_N 65536) with 65536%Z.
  rewrite Zminus_mod_idemp_r.
  rewrite <- (Z.mod_add (- Z.of_N n) 1 65536) by lia.
  f_equal. lia.
Qed.

(** C9, as stated, fails: "-3" is not a string of digits, and it parses to
    -3, which the [unsigned int] holds as 65533, not to 0. *)
Lemma parse_length_minus_three :
  parse_length (chars "-3") = 65533
  /\ ~ (forall buffer,
          buffer = [] \/ forallb isdigit buffer = false ->
          parse_length buffer = 0).
Proof.
  split; [vm_compute; reflexivity|].
  intros H. specialize (H (chars "-3") (or_intror eq_refl)).
  vm_compute in H. discriminate.
Qed.

(** C9, amended: the parsed length is an integer from 0 to 65535, and a
    captured string with no number at its head (the empty string, or one
    whose first character after white space and an optional sign is not a
    digit) parses to 0.  A string that holds, after white space and an
    optional plus sign, a run of digits that anything but a digit ends,
    parses to the number that the digits denote, modulo 65536; with a minus
    sign before the digits it parses to the negation of that number modulo
    65536, so that "-3" gives 65533. *)
Theorem parse_length_value :
  forall buffer,
    parse_length buffer < 65536
    /\ (has_number buffer = false -> parse_length buffer = 0)
    /\ (forall blanks digits rest,
          Forall (fun c => isspace c = true) blanks ->
          Forall (fun c => isdigit c = true) digits -> digits <> [] ->
          isdigit (hd zero rest) = false ->
          (buffer = blanks ++ digits ++ rest
           \/ buffer = blanks ++ "+"%char :: digits ++ rest ->
           parse_length buffer = number_of digits mod 65536)
          /\ (buffer = blanks ++ "-"%char :: digits ++ rest ->
              parse_length buffer
              = (65536 - number_of digits mod 65536) mod 65536)).
Proof.
  intros buffer. split; [|split].
  - unfold parse_length, unsigned_of_int.
    pose proof (Z.mod_pos_bound (atoi buffer) 65536 ltac:(lia)). lia.
  - unfold has_number, parse_length, atoi.
    destruct (skip_space buffer) as [|c s']; [reflexivity|].
    destruct (Ascii.eqb c "-") eqn:Eminus; cbn [orb].
    + destruct s' as [|c' s'']; [reflexivity|]. intros Hd.
      cbn [atoi_digits]. rewrite Hd. reflexivity.
    + destruct (Ascii.eqb c "+") eqn:Eplus.
      * destruct s' as [|c' s'']; [reflexivity|]. intros Hd.
        cbn [atoi_digits]. rewrite Hd. reflexivity.
      * intros Hd. cbn [atoi_digits]. rewrite Hd. reflexivity.
  - intros blanks digits rest Hb Hd Hne Hrest.
    pose proof (atoi_digits_run digits 0 rest Hd Hrest) as Hrun.
    fold (number_of digits) in Hrun. change (Z.of_N 0) with 0%Z in Hrun.
    split.
    + intros [-> | ->]; unfold parse_length, atoi;
        rewrite skip_space_blanks by assumption.
      * destruct digits as [|c digits]; [congruence|].
        inversion Hd as [|c' ds Hc Hds]; subst.
        cbn [app skip_space]. rewrite (isdigit_not_space c Hc).
        rewrite (isdigit_not_char c "-" Hc eq_refl).
        rewrite (isdigit_not_char c "+" Hc eq_refl).
        cbn [app] in Hrun. rewrite Hrun. apply unsigned_of_number.
      * cbn [skip_space]. change (isspace "+") with false.
        change (Ascii.eqb "+" "-") with false.
        change (Ascii.eqb "+" "+") with true. cbn iota.
        rewrite Hrun. apply unsigned_of_number.
    + intros ->. unfold parse_length, atoi.
      rewrite skip_space_blanks by assumption.
      cbn [skip_space]. change (isspace "-") with false.
      change (Ascii.eqb "-" "-") with true. cbn iota.
      rewrite Hrun. apply unsigned_of_negated.
Qed.

Lemma parse_length_value_witness :
  (has_number (chars " -x1") = false /\ parse_length (chars " -x1") = 0)
  /\ parse_length (chars " 532:7") = number_of (chars "532") mod 65536
  /\ parse_length (chars "+70000") = number_of (chars "70000") mod 65536
  /\ parse_length (chars "-3")
     = (65536 - number_of (chars "3") mod 65536) mod 65536.
Proof.
  split; [split; [reflexivity|]|split; [|split]].
  - apply (proj1 (proj2 (parse_length_value (chars " -x1")))). reflexivity.
  - apply (proj1 (proj2 (proj2 (parse_length_value (chars " 532:7")))
                   (chars " ") (chars "532") (chars ":7")
                   ltac:(repeat constructor) ltac:(repeat constructor)
                   ltac:(discriminate) eq_refl)).
    left. reflexivity.
  - apply (proj1 (proj2 (proj2 (parse_length_value (chars "+70000")))
                   [] (chars "70000") []
                   ltac:(constructor) ltac:(repeat constructor)
                   ltac:(discriminate) eq_refl)).
    right. reflexivity.
  - apply (proj2 (proj2 (proj2 (parse_length_value (chars "-3")))
                   [] (chars "3") []
                   ltac:(constructor) ltac:(repeat constructor)
                   ltac:(discriminate) eq_refl)).
    reflexivity.
Defined.
